(** * package.py: the Thunderstore packaging script, embedded and verified

    The script reads the mod's .csproj, writes manifest.json, stages a
    handful of files in a timestamped directory under dist/ and zips them.

    Conventions of the embedding.
    - A Python [str] is a [string]; a character is a code point below 256.
    - Paths follow pathlib on POSIX: a pure path is a list of parts with an
      absolute flag, and the operating system resolves [..] against the
      directory tree when a path is used.
    - The file system is a finite map from canonical absolute paths to
      nodes; there are no symbolic links.
    - [sys.exit] and raised exceptions are outcomes of a small state monad;
      [except Exception] catches the second kind only. *)

From Stdlib Require Import Ascii String List ZArith Lia Bool.
From stdpp Require Import base option list strings gmap fin_maps sorting.

Local Open Scope string_scope.
Local Open Scope list_scope.

(** ** Python string primitives *)

Module PyStr.

(** [str.isspace] on one character, for code points 0..255:
    TAB..CR, FS..US, SPACE, NEL and NBSP. *)
Definition isspace (c : ascii) : bool :=
  let n := nat_of_ascii c in
  ((9 <=? n)%nat && (n <=? 13)%nat) || ((28 <=? n)%nat && (n <=? 32)%nat)
  || (n =? 133)%nat || (n =? 160)%nat.

Fixpoint lstrip (s : string) : string :=
  match s with
  | String c s' => if isspace c then lstrip s' else s
  | EmptyString => EmptyString
  end.

(** Drops trailing whitespace: a character is kept when something
    non-blank follows it or it is itself non-blank. *)
Fixpoint rstrip (s : string) : string :=
  match s with
  | EmptyString => EmptyString
  | String c s' =>
      match rstrip s' with
      | EmptyString => if isspace c then EmptyString else String c EmptyString
      | r => String c r
      end
  end.

(** [s.strip()] *)
Definition strip (s : string) : string := rstrip (lstrip s).

(** [s.startswith(p)] *)
Fixpoint startswith (p s : string) : bool :=
  match p, s with
  | EmptyString, _ => true
  | String a p', String b s' => if Ascii.eqb a b then startswith p' s' else false
  | String _ _, EmptyString => false
  end.

Fixpoint drop (n : nat) (s : string) : string :=
  match n, s with
  | O, _ => s
  | S n', String _ s' => drop n' s'
  | S _, EmptyString => EmptyString
  end.

(** [s.replace(old, new)] for a non-empty [old]: scan from the left, and at
    every position where [old] starts emit [new] and jump over the match.
    [skip] counts the characters of a match still to be jumped over. *)
Fixpoint replace_from (old new : string) (skip : nat) (s : string) : string :=
  match s with
  | EmptyString => EmptyString
  | String c s' =>
      match skip with
      | S k => replace_from old new k s'
      | O =>
          if startswith old s
          then new +:+ replace_from old new (String.length old - 1) s'
          else String c (replace_from old new 0 s')
      end
  end.

Definition replace (old new s : string) : string := replace_from old new 0 s.

(** [sep.join(parts)] *)
Fixpoint join (sep : string) (parts : list string) : string :=
  match parts with
  | [] => EmptyString
  | [x] => x
  | x :: rest => x +:+ sep +:+ join sep rest
  end.

(** Text-mode reading with universal newlines: CR LF and a lone CR both
    become LF. *)
Fixpoint translate_newlines (s : string) : string :=
  match s with
  | EmptyString => EmptyString
  | String c s' =>
      if Ascii.eqb c "013"%char
      then match s' with
           | String d s'' =>
               if Ascii.eqb d "010"%char then String "010"%char (translate_newlines s'')
               else String "010"%char (translate_newlines s')
           | EmptyString => String "010"%char EmptyString
           end
      else String c (translate_newlines s')
  end.

(** [f.readlines()]: the lines of the text, each keeping its LF; [cur] is
    the part of the current line read so far. *)
Fixpoint readlines_from (cur : string) (s : string) : list string :=
  match s with
  | EmptyString =>
      match cur with EmptyString => [] | _ => [cur] end
  | String c s' =>
      if Ascii.eqb c "010"%char
      then (cur +:+ String c EmptyString) :: readlines_from EmptyString s'
      else readlines_from (cur +:+ String c EmptyString) s'
  end.

Definition readlines (text : string) : list string :=
  readlines_from EmptyString (translate_newlines text).

(** Lower case of an ASCII letter; other characters are left alone. *)
Definition lower (c : ascii) : ascii :=
  let n := nat_of_ascii c in
  if (65 <=? n)%nat && (n <=? 90)%nat then ascii_of_nat (n + 32) else c.

End PyStr.

(** ** The regular expressions of the script *)

Module Re.

(** The fragment of [re] syntax that the script uses: one character of a
    class, and a class repeated with [*] or [+]. *)
Inductive item :=
  | One (p : ascii → bool)
  | Star (p : ascii → bool)
  | Plus (p : ascii → bool).

(** [pattern.match(s)]: the pattern matches a prefix of [s]. Every way of
    splitting the repetitions is tried, as a backtracking matcher does. *)
Fixpoint matches (r : list item) (s : string) {struct r} : bool :=
  match r with
  | [] => true
  | One p :: r' =>
      match s with
      | String c s' => p c && matches r' s'
      | EmptyString => false
      end
  | Star p :: r' =>
      (fix star (t : string) : bool :=
         matches r' t
         || match t with
            | String c t' => p c && star t'
            | EmptyString => false
            end) s
  | Plus p :: r' =>
      match s with
      | String c s' =>
          p c &&
          (fix star (t : string) : bool :=
             matches r' t
             || match t with
                | String c t' => p c && star t'
                | EmptyString => false
                end) s'
      | EmptyString => false
      end
  end.

(** A literal character. *)
Definition lit (a : ascii) : ascii → bool := λ c, Ascii.eqb a c.

(** A literal character under [re.IGNORECASE]. *)
Definition lit_i (a : ascii) : ascii → bool :=
  λ c, Ascii.eqb (PyStr.lower a) (PyStr.lower c).

Fixpoint literal_i (s : string) : list item :=
  match s with
  | EmptyString => []
  | String c s' => One (lit_i c) :: literal_i s'
  end.

End Re.

(** [re.compile(r"^#+\s*Summary", re.IGNORECASE)] *)
Definition summary_header_pattern : list Re.item :=
  Re.Plus (Re.lit "#"%char) :: Re.Star PyStr.isspace :: Re.literal_i "Summary".

(** ** get_description: the loop over the README lines *)

(** The state of the [for line in lines] loop is [in_summary_section] and
    [summary_content]; [break] returns the content at once. *)
Fixpoint summary_loop (lines : list string) (in_summary_section : bool)
    (summary_content : list string) : list string :=
  match lines with
  | [] => summary_content
  | line :: rest =>
      if Re.matches summary_header_pattern line
      then summary_loop rest true summary_content
      else if PyStr.startswith "#" line && in_summary_section
      then summary_content
      else if in_summary_section
      then
        let stripped_line := PyStr.strip line in
        match stripped_line with
        | EmptyString => summary_loop rest in_summary_section summary_content
        | _ => summary_loop rest in_summary_section
                 (summary_content ++ [stripped_line])
        end
      else summary_loop rest in_summary_section summary_content
  end.

(** The body of [get_description] once README.md has been read. *)
Definition description_of_text (text : string) : string :=
  let lines := PyStr.readlines text in
  let summary_content := summary_loop lines false [] in
  match summary_content with
  | [] => EmptyString
  | _ => PyStr.join " " summary_content
  end.

(** ** Pure paths (pathlib) *)

Module Path.

Record t := mk { absolute : bool; parts : list string }.

(** Cuts a string at every slash; [cur] is the piece being read. *)
Fixpoint split_slash (cur : string) (s : string) : list string :=
  match s with
  | EmptyString => [cur]
  | String c s' =>
      if Ascii.eqb c "/"%char then cur :: split_slash EmptyString s'
      else split_slash (cur +:+ String c EmptyString) s'
  end.

(** No character of the string is the separator. *)
Fixpoint no_sep (s : string) : bool :=
  match s with
  | EmptyString => true
  | String c s' => negb (Ascii.eqb c "/"%char) && no_sep s'
  end.

(** pathlib drops empty pieces and [.] pieces and keeps [..]. *)
Definition kept (piece : string) : bool :=
  negb (String.eqb piece "") && negb (String.eqb piece ".").

(** [Path(s)] *)
Definition of_str (s : string) : t :=
  mk (PyStr.startswith "/" s) (filter (λ x, Is_true (kept x)) (split_slash EmptyString s)).

(** [p / q]: an absolute right operand replaces the left one. *)
Definition div (p q : t) : t :=
  if absolute q then q else mk (absolute p) (parts p ++ parts q).

(** [p / s] for a string [s] *)
Definition div_str (p : t) (s : string) : t := div p (of_str s).

(** [p.name]: the last part, or the empty string. *)
Definition name (p : t) : string := default EmptyString (last (parts p)).

(** [p.parent] *)
Definition parent (p : t) : t := mk (absolute p) (removelast (parts p)).

End Path.

(** ** The file system *)

Inductive node := File (content : string) | Dir.

(** What resolving a path gives: the canonical location, or the error of
    the first component that is not a directory. *)
Inductive resolved := Found (d : list string) | NoEnt | NotDir.

Module FS.

Definition is_dir (fs : gmap (list string) node) (d : list string) : bool :=
  match d with
  | [] => true
  | _ => match fs !! d with Some Dir => true | _ => false end
  end.

Definition present (fs : gmap (list string) node) (d : list string) : bool :=
  match d with
  | [] => true
  | _ => match fs !! d with Some _ => true | None => false end
  end.

(** Walks the parts from the location [stk]: every part is looked up in a
    directory, and [..] goes to the parent (the root is its own parent). *)
Fixpoint resolve_from (fs : gmap (list string) node) (stk : list string)
    (comps : list string) : resolved :=
  match comps with
  | [] => Found stk
  | c :: rest =>
      if is_dir fs stk
      then if String.eqb c ".."
           then resolve_from fs (removelast stk) rest
           else resolve_from fs (stk ++ [c]) rest
      else if present fs stk then NotDir else NoEnt
  end.

(** A name that a directory entry can have. *)
Definition valid_name (n : string) : bool :=
  negb (String.eqb n "") && negb (String.eqb n ".") && negb (String.eqb n "..")
  && Path.no_sep n.

(** Every entry has a valid name and lies in a directory. *)
Definition wf_entry (fs : gmap (list string) node) (k : list string) : bool :=
  match last k with
  | Some n => valid_name n && is_dir fs (removelast k)
  | None => false
  end.

Definition wf (fs : gmap (list string) node) : bool :=
  forallb (λ kv, wf_entry fs kv.1) (map_to_list fs).

(** The tree without [d] and everything below it. *)
Definition remove_tree (d : list string) (fs : gmap (list string) node)
  : gmap (list string) node :=
  filter (λ kv, ¬ d `prefix_of` kv.1) fs.

(** The directories strictly between [d] and the entry [k] below it. *)
Definition between (d k : list string) : list (list string) :=
  map (λ n, take n k) (seq (S (length d)) (length k - S (length d))).

(** The regular files that a walk from directory [d] reaches, as paths
    relative to [d]. *)
Definition files_below (fs : gmap (list string) node) (d : list string)
  : list (list string) :=
  omap (λ kv,
          match kv.2 with
          | File _ =>
              if bool_decide (d `prefix_of` kv.1)
                 && (length d <? length kv.1)%nat
                 && forallb (is_dir fs) (between d kv.1)
              then Some (drop (length d) kv.1)
              else None
          | Dir => None
          end)
       (map_to_list fs).

End FS.

(** ** The world of one run *)

(** [datetime.datetime.now(tz=datetime.UTC)] *)
Record datetime := {
  year : nat; month : nat; day : nat; hour : nat; minute : nat; second : nat
}.

(** What [subprocess.run] reports: the tool is absent, or it ran. *)
Inductive completed :=
  | ToolNotFound
  | Completed (returncode : Z) (stdout stderr : string).

(** [io_faults] decides, for the file operations in the order they are
    made, which ones fail for a reason outside the tree (a full disk, a
    permission): [true] makes the operation raise. Removing a tree and
    asking whether a path exists are not subject to it. *)
Record World := {
  fs : gmap (list string) node;
  clock : datetime;
  git_remote : completed;
  io_faults : list bool
}.

Definition with_fs (f : gmap (list string) node) (w : World) : World :=
  {| fs := f; clock := clock w; git_remote := git_remote w;
     io_faults := io_faults w |}.

(** ** Outcomes and the monad of the script *)

Inductive exn :=
  | ParseError | FileNotFoundError | NotADirectoryError | IsADirectoryError
  | FileExistsError | SameFileError | OSError.

(** A call returns, raises an [Exception], or leaves through [sys.exit]. *)
Inductive outcome (A : Type) :=
  | Ok (a : A)
  | Raise (e : exn)
  | Exit (code : Z).
Arguments Ok {A} a.
Arguments Raise {A} e.
Arguments Exit {A} code.

Definition M (A : Type) : Type := World → outcome A * World.

#[global] Instance M_ret : MRet M := λ A a w, (Ok a, w).

#[global] Instance M_bind : MBind M := λ A B k m w,
  match m w with
  | (Ok a, w') => k a w'
  | (Raise e, w') => (Raise e, w')
  | (Exit c, w') => (Exit c, w')
  end.

Definition raise {A} (e : exn) : M A := λ w, (Raise e, w).

(** [sys.exit(code)] raises SystemExit, which is no [Exception]. *)
Definition sys_exit {A} (code : Z) : M A := λ w, (Exit code, w).

(** [try: body except Exception: handler] *)
Definition try_except {A} (body : M A) (handler : exn → M A) : M A :=
  λ w, match body w with
       | (Raise e, w') => handler e w'
       | r => r
       end.

(** [try: body finally: final]: [final] runs on every way out of [body],
    and what it raises replaces the outcome of [body]. *)
Definition try_finally {A} (body : M A) (final : M unit) : M A :=
  λ w, match body w with
       | (o, w') =>
           match final w' with
           | (Ok _, w'') => (o, w'')
           | (Raise e, w'') => (Raise e, w'')
           | (Exit c, w'') => (Exit c, w'')
           end
       end.

(** The exit status of the process that runs [m]: an exception that nobody
    catches ends the interpreter with status 1. *)
Definition exit_status {A} (o : outcome A) : Z :=
  match o with
  | Ok _ => 0%Z
  | Raise _ => 1%Z
  | Exit c => c
  end.

(** ** XML elements and the paths of [Element.find] *)

#[warnings="-register-all"]
Inductive Element :=
  | Elem (tag : string) (text : option string) (children : list Element).

Definition tag_of (e : Element) : string := let 'Elem t _ _ := e in t.
Definition text_of (e : Element) : option string := let 'Elem _ x _ := e in x.
Definition children_of (e : Element) : list Element := let 'Elem _ _ c := e in c.

(** [elem.iter()]: the element and all its descendants in document order. *)
Fixpoint iter (e : Element) : list Element :=
  match e with
  | Elem _ _ cs =>
      e :: (fix iter_all (l : list Element) : list Element :=
              match l with
              | [] => []
              | c :: l' => iter c ++ iter_all l'
              end) cs
  end.

Module ElementPath.

(** The steps of the paths that the script uses: [.], [//tag] and [/tag]. *)
Inductive step := Self | Descendant (tag : string) | Child (tag : string).

Definition has_tag (tag : string) (e : Element) : bool := String.eqb (tag_of e) tag.

(** One step applied to the elements selected so far. [//tag] selects the
    matching descendants of each element but not the element itself. *)
Definition select (st : step) (context : list Element) : list Element :=
  match st with
  | Self => context
  | Descendant tag =>
      flat_map (λ elem, List.filter (has_tag tag) (tail (iter elem))) context
  | Child tag =>
      flat_map (λ elem, List.filter (has_tag tag) (children_of elem)) context
  end.

Definition findall (path : list step) (root : Element) : list Element :=
  fold_left (λ context st, select st context) path [root].

(** [root.find(path)]: the first selected element, or [None]. *)
Definition find (path : list step) (root : Element) : option Element :=
  head (findall path root).

End ElementPath.

(** [".//PropertyGroup/AssemblyName"] and its two siblings *)
Definition xp_AssemblyName : list ElementPath.step :=
  [ElementPath.Self; ElementPath.Descendant "PropertyGroup"; ElementPath.Child "AssemblyName"].
Definition xp_Version : list ElementPath.step :=
  [ElementPath.Self; ElementPath.Descendant "PropertyGroup"; ElementPath.Child "Version"].
Definition xp_Product : list ElementPath.step :=
  [ElementPath.Self; ElementPath.Descendant "PropertyGroup"; ElementPath.Child "Product"].

(** ** strftime *)

Definition digit (n : nat) : ascii := ascii_of_nat (48 + n mod 10).
Definition pad2 (n : nat) : string :=
  String (digit (n / 10)) (String (digit n) EmptyString).
Definition pad4 (n : nat) : string :=
  String (digit (n / 1000)) (String (digit (n / 100)) (pad2 n)).

(** [t.strftime("%Y%m%d%H%M%S")] *)
Definition strftime_YmdHMS (t : datetime) : string :=
  pad4 (year t) +:+ pad2 (month t) +:+ pad2 (day t)
  +:+ pad2 (hour t) +:+ pad2 (minute t) +:+ pad2 (second t).

(** ** JSON: what [json.dump] writes and what [json.load] reads *)

Module Json.

#[warnings="-register-all"]
Inductive value :=
  | Str (s : string)
  | Arr (items : list value)
  | Obj (members : list (string * value)).

Definition quote : ascii := "034"%char.
Definition backslash : ascii := "092"%char.

Definition hex_digit (n : nat) : ascii :=
  if (n <? 10)%nat then ascii_of_nat (48 + n) else ascii_of_nat (87 + n).

(** The replacement of one character under [ensure_ascii=True]: the short
    escapes, the printable ASCII characters as they are, and a four-digit
    lower-case [\u] escape for everything else. *)
Definition escape_char (c : ascii) : string :=
  let n := nat_of_ascii c in
  if Ascii.eqb c quote then String backslash (String quote EmptyString)
  else if Ascii.eqb c backslash then String backslash (String backslash EmptyString)
  else if (n =? 10)%nat then String backslash "n"
  else if (n =? 13)%nat then String backslash "r"
  else if (n =? 9)%nat then String backslash "t"
  else if (n =? 8)%nat then String backslash "b"
  else if (n =? 12)%nat then String backslash "f"
  else if (32 <=? n)%nat && (n <=? 126)%nat then String c EmptyString
  else String backslash
         ("u00" +:+ String (hex_digit (n / 16)) (String (hex_digit (n mod 16)) EmptyString)).

Fixpoint escape (s : string) : string :=
  match s with
  | EmptyString => EmptyString
  | String c s' => escape_char c +:+ escape s'
  end.

(** [py_encode_basestring_ascii] *)
Definition encode_str (s : string) : string :=
  String quote (escape s +:+ String quote EmptyString).

Fixpoint spaces (n : nat) : string :=
  match n with O => EmptyString | S n' => String " " (spaces n') end.

(** A line break followed by the indentation of [level] (indent=4). *)
Definition newline_indent (level : nat) : string :=
  String "010"%char (spaces (4 * level)).

Fixpoint insert_item (kv : string * string) (l : list (string * string))
  : list (string * string) :=
  match l with
  | [] => [kv]
  | kv' :: l' =>
      if String.leb kv.1 kv'.1 then kv :: l else kv' :: insert_item kv l'
  end.

(** [sorted(items)], by key *)
Fixpoint sort_items (l : list (string * string)) : list (string * string) :=
  match l with
  | [] => []
  | kv :: l' => insert_item kv (sort_items l')
  end.

(** [json.dumps(v, indent=4, sort_keys=True)] with [v] nested [level]
    deep. The members of an object are rendered and then put in key
    order. *)
Fixpoint dump (level : nat) (v : value) : string :=
  match v with
  | Str s => encode_str s
  | Arr [] => "[]"
  | Arr items =>
      "[" +:+ newline_indent (S level)
      +:+ PyStr.join ("," +:+ newline_indent (S level)) (map (dump (S level)) items)
      +:+ newline_indent level +:+ "]"
  | Obj [] => "{}"
  | Obj members =>
      "{" +:+ newline_indent (S level)
      +:+ PyStr.join ("," +:+ newline_indent (S level))
            (map (λ kv, encode_str kv.1 +:+ ": " +:+ kv.2)
               (sort_items (map (λ kv, (kv.1, dump (S level) kv.2)) members)))
      +:+ newline_indent level +:+ "}"
  end.

Definition dumps (v : value) : string := dump 0 v.

(** *** Reading *)

Definition is_ws (c : ascii) : bool :=
  let n := nat_of_ascii c in
  (n =? 32)%nat || (n =? 9)%nat || (n =? 10)%nat || (n =? 13)%nat.

Fixpoint skip_ws (s : string) : string :=
  match s with
  | String c s' => if is_ws c then skip_ws s' else s
  | EmptyString => EmptyString
  end.

Definition hex_val (c : ascii) : option nat :=
  let n := nat_of_ascii c in
  if (48 <=? n)%nat && (n <=? 57)%nat then Some (n - 48)
  else if (97 <=? n)%nat && (n <=? 102)%nat then Some (n - 87)
  else if (65 <=? n)%nat && (n <=? 70)%nat then Some (n - 55)
  else None.

(** The character that a one-letter escape stands for. *)
Definition unescape (e : ascii) : option ascii :=
  if Ascii.eqb e quote then Some quote
  else if Ascii.eqb e backslash then Some backslash
  else if Ascii.eqb e "/"%char then Some "/"%char
  else if Ascii.eqb e "n"%char then Some "010"%char
  else if Ascii.eqb e "r"%char then Some "013"%char
  else if Ascii.eqb e "t"%char then Some "009"%char
  else if Ascii.eqb e "b"%char then Some "008"%char
  else if Ascii.eqb e "f"%char then Some "012"%char
  else None.

(** The body of a string literal, after its opening quote: the decoded
    string and what follows the closing quote. Raw control characters are
    refused, and so is a [\u] escape of a code point above 255, which a
    character of this embedding cannot hold. *)
Fixpoint scan_string (s : string) : option (string * string) :=
  match s with
  | EmptyString => None
  | String c r =>
      if Ascii.eqb c quote then Some (EmptyString, r)
      else if Ascii.eqb c backslash then
        match r with
        | String e r' =>
            match unescape e with
            | Some ch =>
                '(str, rest) ← scan_string r'; Some (String ch str, rest)
            | None =>
                if Ascii.eqb e "u"%char then
                  match r' with
                  | String h1 (String h2 (String h3 (String h4 r''))) =>
                      a ← hex_val h1; b ← hex_val h2;
                      c' ← hex_val h3; d ← hex_val h4;
                      let code := ((a * 16 + b) * 16 + c') * 16 + d in
                      if (code <? 256)%nat then
                        '(str, rest) ← scan_string r'';
                        Some (String (ascii_of_nat code) str, rest)
                      else None
                  | _ => None
                  end
                else None
            end
        | EmptyString => None
        end
      else if (nat_of_ascii c <? 32)%nat then None
      else '(str, rest) ← scan_string r; Some (String c str, rest)
  end.

(** One value, with what follows it. [fuel] bounds the number of values
    and members read. *)
Fixpoint parse_value (fuel : nat) (s : string) : option (value * string) :=
  match fuel with
  | O => None
  | S f =>
      match skip_ws s with
      | String c r =>
          if Ascii.eqb c quote then
            '(str, rest) ← scan_string r; Some (Str str, rest)
          else if Ascii.eqb c "["%char then
            match skip_ws r with
            | String "]"%char rest => Some (Arr [], rest)
            | _ => '(items, rest) ← parse_items f r; Some (Arr items, rest)
            end
          else if Ascii.eqb c "{"%char then
            match skip_ws r with
            | String "}"%char rest => Some (Obj [], rest)
            | _ => '(members, rest) ← parse_members f r; Some (Obj members, rest)
            end
          else None
      | EmptyString => None
      end
  end
with parse_items (fuel : nat) (s : string) : option (list value * string) :=
  match fuel with
  | O => None
  | S f =>
      '(v, r) ← parse_value f s;
      match skip_ws r with
      | String c rest =>
          if Ascii.eqb c ","%char then
            '(items, rest') ← parse_items f rest; Some (v :: items, rest')
          else if Ascii.eqb c "]"%char then Some ([v], rest)
          else None
      | EmptyString => None
      end
  end
with parse_members (fuel : nat) (s : string)
  : option (list (string * value) * string) :=
  match fuel with
  | O => None
  | S f =>
      match skip_ws s with
      | String c r =>
          if Ascii.eqb c quote then
            '(key, r1) ← scan_string r;
            match skip_ws r1 with
            | String ":"%char r2 =>
                '(v, r3) ← parse_value f r2;
                match skip_ws r3 with
                | String c' rest =>
                    if Ascii.eqb c' ","%char then
                      '(members, rest') ← parse_members f rest;
                      Some ((key, v) :: members, rest')
                    else if Ascii.eqb c' "}"%char then Some ([(key, v)], rest)
                    else None
                | EmptyString => None
                end
            | _ => None
            end
          else None
      | EmptyString => None
      end
  end.

(** [json.loads]: one value and nothing but blanks after it. The members
    of an object are kept in the order of the text. *)
Definition loads (s : string) : option value :=
  '(v, rest) ← parse_value (S (String.length s)) s;
  match skip_ws rest with
  | EmptyString => Some v
  | _ => None
  end.

End Json.

(** A Python [dict] with string keys, in insertion order. *)
Fixpoint dict_set {V} (k : string) (v : V) (d : list (string * V))
  : list (string * V) :=
  match d with
  | [] => [(k, v)]
  | (k', v') :: d' =>
      if String.eqb k k' then (k, v) :: d' else (k', v') :: dict_set k v d'
  end.

(** ** The script *)

Section Script.

(** The working directory of the process, as a canonical absolute path;
    [ET.parse] on the text of a file ([None] stands for [ParseError]); and
    the bytes of a deflate archive with the given entries. *)
Variable cwd : list string.
Variable xml_of_string : string → option Element.
Variable zip_bytes : list (string * string) → string.

(** *** Module constants *)

Definition PROJECT_ROOT : Path.t := Path.mk true cwd.
Definition PROJECT_NAME : string := Path.name PROJECT_ROOT.
Definition DLL_SOURCE_FOLDER : Path.t := Path.mk false ["bin"; "Debug"; "net472"].

Record FileSpec := {
  path : Path.t;
  required : bool;
  rename_to : option string
}.

Definition DEFAULT_FILESPEC : list FileSpec := [
  {| path := Path.div_str PROJECT_ROOT "manifest.json"; required := true;
     rename_to := None |};
  {| path := Path.div_str (Path.div_str PROJECT_ROOT "img") "icon.png";
     required := true; rename_to := Some "icon.png" |};
  {| path := Path.div_str PROJECT_ROOT "README.md"; required := true;
     rename_to := None |};
  {| path := Path.div_str PROJECT_ROOT "CHANGELOG.md"; required := false;
     rename_to := None |}
].

(** *** File operations *)

(** A relative path is resolved from the working directory. *)
Definition resolve (f : gmap (list string) node) (p : Path.t) : resolved :=
  FS.resolve_from f (if Path.absolute p then [] else cwd) (Path.parts p).

(** [p.exists()] *)
Definition path_exists (p : Path.t) : M bool :=
  λ w, (Ok match resolve (fs w) p with
           | Found d => FS.present (fs w) d
           | _ => false
           end, w).

(** [p.is_dir()] *)
Definition path_is_dir (p : Path.t) : M bool :=
  λ w, (Ok match resolve (fs w) p with
           | Found d => FS.is_dir (fs w) d
           | _ => false
           end, w).

(** Consumes the next decision of [io_faults]. *)
Definition io_check : M unit :=
  λ w, match io_faults w with
       | [] => (Ok (), w)
       | fault :: rest =>
           let w' := {| fs := fs w; clock := clock w;
                        git_remote := git_remote w; io_faults := rest |} in
           if fault then (Raise OSError, w') else (Ok (), w')
       end.

(** The error of a path that does not resolve. *)
Definition resolve_error (r : resolved) : exn :=
  match r with NotDir => NotADirectoryError | _ => FileNotFoundError end.

(** Creates or truncates the regular file at the location [d]. *)
Definition put_file (d : list string) (data : string) : M unit :=
  λ w, if FS.is_dir (fs w) d then (Raise IsADirectoryError, w)
       else if FS.is_dir (fs w) (removelast d)
       then (Ok (), with_fs (<[d := File data]> (fs w)) w)
       else (Raise FileNotFoundError, w).

(** [os.mkdir(p)] *)
Definition os_mkdir (p : Path.t) : M unit :=
  io_check;;
  ((λ w, match resolve (fs w) p with
       | Found d =>
           if FS.present (fs w) d then (Raise FileExistsError, w)
           else if FS.is_dir (fs w) (removelast d)
           then (Ok (), with_fs (<[d := Dir]> (fs w)) w)
           else (Raise FileNotFoundError, w)
       | r => (Raise (resolve_error r), w)
       end) : M unit).

(** [p.mkdir(parents=..., exist_ok=...)]: a missing parent is created
    first when [parents] is set; any other error is let through unless the
    directory is there and [exist_ok] is set. *)
Fixpoint mkdir (fuel : nat) (parents exist_ok : bool) (p : Path.t) : M unit :=
  try_except (os_mkdir p)
    (λ e,
       match e with
       | FileNotFoundError =>
           if negb parents || bool_decide (Path.parts p = []) then raise e
           else match fuel with
                | S f =>
                    mkdir f true true (Path.parent p);;
                    mkdir f false exist_ok p
                | O => raise e
                end
       | _ =>
           is_dir ← path_is_dir p;
           if negb exist_ok || negb is_dir then raise e else mret ()
       end).

(** [p.mkdir(parents=True)] *)
Definition mkdir_parents (p : Path.t) : M unit :=
  mkdir (S (length (Path.parts p))) true false p.

(** [shutil.rmtree(p)] *)
Definition rmtree (p : Path.t) : M unit :=
  λ w, match resolve (fs w) p with
       | Found d =>
           if FS.is_dir (fs w) d then (Ok (), with_fs (FS.remove_tree d (fs w)) w)
           else if FS.present (fs w) d then (Raise NotADirectoryError, w)
           else (Raise FileNotFoundError, w)
       | r => (Raise (resolve_error r), w)
       end.

(** Reading a whole file. *)
Definition read_file (p : Path.t) : M string :=
  io_check;;
  ((λ w, match resolve (fs w) p with
       | Found d =>
           match fs w !! d with
           | Some (File data) => (Ok data, w)
           | Some Dir => (Raise IsADirectoryError, w)
           | None => (Raise (if FS.is_dir (fs w) d then IsADirectoryError
                             else FileNotFoundError), w)
           end
       | r => (Raise (resolve_error r), w)
       end) : M string).

(** Opening a file with mode ["w"], writing [data] and closing it. *)
Definition write_file (p : Path.t) (data : string) : M unit :=
  io_check;;
  ((λ w, match resolve (fs w) p with
       | Found d => put_file d data w
       | r => (Raise (resolve_error r), w)
       end) : M unit).

(** [shutil.copy(src, dst)]: a destination that is a directory receives
    the file under the base name of [src]; copying a file onto itself is
    an error. *)
Definition shutil_copy (src dst : Path.t) : M unit :=
  io_check;;
  ((λ w, match resolve (fs w) dst with
       | Found d0 =>
           let target :=
             if FS.is_dir (fs w) d0
             then FS.resolve_from (fs w) d0 (Path.parts (Path.of_str (Path.name src)))
             else Found d0 in
           match resolve (fs w) src, target with
           | Found s, Found d =>
               if bool_decide (s = d) then (Raise SameFileError, w)
               else match fs w !! s with
                    | Some (File data) => put_file d data w
                    | Some Dir => (Raise IsADirectoryError, w)
                    | None => (Raise (if FS.is_dir (fs w) s then IsADirectoryError
                                      else FileNotFoundError), w)
                    end
           | Found _, r => (Raise (resolve_error r), w)
           | r, _ => (Raise (resolve_error r), w)
           end
       | r => (Raise (resolve_error r), w)
       end) : M unit).

(** [os.walk(top)], flattened to the regular files below [top] with their
    paths relative to it; a [top] that is no directory yields nothing. *)
Definition walk_files (top : Path.t) : M (list (list string)) :=
  λ w, (Ok match resolve (fs w) top with
           | Found d =>
               if FS.is_dir (fs w) d then FS.files_below (fs w) d else []
           | _ => []
           end, w).

(** *** get_github_url *)

Definition get_github_url : M string :=
  λ w, match git_remote w with
       | Completed returncode stdout stderr =>
           if (returncode =? 0)%Z then
             let result := PyStr.strip stdout in
             if PyStr.startswith "https://github.com/" result then (Ok result, w)
             else if PyStr.startswith "git@github.com:" result
             then (Ok (PyStr.replace "git@github.com:" "https://github.com/" result), w)
             else (Ok EmptyString, w)
           else (Ok EmptyString, w)
       | ToolNotFound => (Ok EmptyString, w)
       end.

(** *** get_description *)

Definition get_description : M string :=
  let readme_path := Path.div_str PROJECT_ROOT "README.md" in
  found ← path_exists readme_path;
  if found : bool then
    text ← read_file readme_path;
    mret (description_of_text text)
  else mret EmptyString.

(** *** CsprojGetter *)

Record CsprojGetter := { csproj_root : option Element }.

(** [ET.parse(path).getroot()] *)
Definition ET_parse (csproj_path : Path.t) : M Element :=
  source ← read_file csproj_path;
  match xml_of_string source with
  | Some root => mret root
  | None => raise ParseError
  end.

(** Both handlers of [load_csproj] log and call [sys.exit(1)]. The method
    returns the root together with the getter, whose cache it may fill. *)
Definition load_csproj (csproj_path : Path.t) (self : CsprojGetter)
  : M (Element * CsprojGetter) :=
  match csproj_root self with
  | Some root => mret (root, self)
  | None =>
      try_except
        (root ← ET_parse csproj_path;
         mret (root, {| csproj_root := Some root |}))
        (λ _, sys_exit 1)
  end.

Definition retreive_csproj_element (xml_path : list ElementPath.step)
    (self : CsprojGetter) : M (string * CsprojGetter) :=
  '(root, self) ← load_csproj
                    (Path.div_str PROJECT_ROOT (PROJECT_NAME +:+ ".csproj")) self;
  match ElementPath.find xml_path root with
  | Some dll_name_element =>
      match text_of dll_name_element with
      | Some (String c t) => mret (String c t, self)
      | _ => sys_exit 1
      end
  | None => sys_exit 1
  end.

Definition get_dll_name (self : CsprojGetter) : M (string * CsprojGetter) :=
  '(name, self) ← retreive_csproj_element xp_AssemblyName self;
  mret (name +:+ ".dll", self).

Definition get_dll_version (self : CsprojGetter) : M (string * CsprojGetter) :=
  retreive_csproj_element xp_Version self.

Definition get_mod_name (self : CsprojGetter) : M (string * CsprojGetter) :=
  retreive_csproj_element xp_Product self.

Definition get_dll_path (self : CsprojGetter) : M (Path.t * CsprojGetter) :=
  '(dll_name, self) ← get_dll_name self;
  mret (Path.div_str (Path.div PROJECT_ROOT DLL_SOURCE_FOLDER) dll_name, self).

(** *** FilePackager *)

Record FilePackager := {
  dll_name : string;
  dll_source_path : Path.t;
  dist_dir : Path.t;
  temp_dir : Path.t;
  zip_file_name : Path.t
}.

Definition now : M datetime := λ w, (Ok (clock w), w).

(** [FilePackager.__init__] *)
Definition FilePackager_init : M FilePackager :=
  let csproj := {| csproj_root := None |} in
  '(dll_name, csproj) ← get_dll_name csproj;
  '(dll_source_path, csproj) ← get_dll_path csproj;
  let dist_dir := Path.div_str PROJECT_ROOT "dist" in
  t ← now;
  let timestamp := strftime_YmdHMS t in
  let temp_dir := Path.div_str dist_dir ("temp_package_" +:+ timestamp) in
  '(mod_name, csproj) ← get_mod_name csproj;
  '(version, csproj) ← get_dll_version csproj;
  mret {| dll_name := dll_name;
          dll_source_path := dll_source_path;
          dist_dir := dist_dir;
          temp_dir := temp_dir;
          zip_file_name :=
            Path.div_str dist_dir (mod_name +:+ "-" +:+ version +:+ ".zip") |}.

Definition prepare_file_spec (self : FilePackager) : M (list FileSpec) :=
  dist_exists ← path_exists (dist_dir self);
  (if dist_exists : bool then mret () else mkdir_parents (dist_dir self));;
  temp_exists ← path_exists (temp_dir self);
  (if temp_exists : bool then rmtree (temp_dir self) else mret ());;
  mkdir_parents (temp_dir self);;
  mret (DEFAULT_FILESPEC ++
        [{| path := dll_source_path self; required := true;
            rename_to := Some (dll_name self) |}]).

(** [file_spec.rename_to or source_file_path.name] *)
Definition destination_name (file_spec : FileSpec) (source_file_path : Path.t)
  : string :=
  match rename_to file_spec with
  | Some (String c s) => String c s
  | _ => Path.name source_file_path
  end.

(** The [for] loop of [copy_files]. *)
Fixpoint copy_loop (self : FilePackager) (file_specs : list FileSpec) : M unit :=
  match file_specs with
  | [] => mret ()
  | file_spec :: rest =>
      let source_file_path := Path.div PROJECT_ROOT (path file_spec) in
      found ← path_exists source_file_path;
      if found : bool then
        shutil_copy source_file_path
          (Path.div_str (temp_dir self) (destination_name file_spec source_file_path));;
        copy_loop self rest
      else if required file_spec then
        rmtree (temp_dir self);;
        sys_exit 1
      else copy_loop self rest
  end.

Definition copy_files (self : FilePackager) (file_specs : list FileSpec) : M unit :=
  try_except (copy_loop self file_specs)
    (λ _, rmtree (temp_dir self);; sys_exit 1).

(** [zipfile.ZipFile(p, "w", ZIP_DEFLATED)]: the archive is created empty,
    and the location of the open file is kept. *)
Definition zip_open (p : Path.t) : M (list string) :=
  io_check;;
  ((λ w, match resolve (fs w) p with
         | Found z =>
             match put_file z (zip_bytes []) w with
             | (Ok _, w') => (Ok z, w')
             | (Raise e, w') => (Raise e, w')
             | (Exit c, w') => (Exit c, w')
             end
         | r => (Raise (resolve_error r), w)
         end) : M (list string)).

(** The archive open at [z] receives one more entry. *)
Definition zip_store (z : list string) (entries : list (string * string)) : M unit :=
  λ w, (Ok (), with_fs (<[z := File (zip_bytes entries)]> (fs w)) w).

(** The two nested loops of [zip_files] over the walked files:
    [zf.write(file_path, arcname)] reads the file and appends it under its
    path relative to the staging directory. The result is the list of the
    entries of the archive. *)
Fixpoint zip_write_all (z : list string) (top : Path.t)
    (files : list (list string)) (entries : list (string * string))
  : M (list (string * string)) :=
  match files with
  | [] => mret entries
  | arcname :: rest =>
      let file_path := Path.mk (Path.absolute top) (Path.parts top ++ arcname) in
      data ← read_file file_path;
      let entries' := entries ++ [(PyStr.join "/" arcname, data)] in
      zip_store z entries';;
      zip_write_all z top rest entries'
  end.

(** The [with zipfile.ZipFile(...) as zf] block: the archive is opened,
    every file that the walk finds is written, and the archive is closed.
    The result is the list of its entries. *)
Definition zip_block (self : FilePackager) : M (list (string * string)) :=
  z ← zip_open (zip_file_name self);
  files ← walk_files (temp_dir self);
  entries ← zip_write_all z (temp_dir self) files [];
  io_check;;
  mret entries.

Definition zip_files (self : FilePackager) : M unit :=
  try_finally
    (try_except (zip_block self;; mret ()) (λ _, sys_exit 1))
    (rmtree (temp_dir self)).

Definition process (self : FilePackager) : M unit :=
  file_spec ← prepare_file_spec self;
  copy_files self file_spec;;
  zip_files self.

(** *** build_manifest and main *)

(** The dictionary that [build_manifest] fills. *)
Definition manifest_dict : M (list (string * Json.value)) :=
  let manifest_dict := [] in
  let csproj := {| csproj_root := None |} in
  '(mod_name, csproj) ← get_mod_name csproj;
  let manifest_dict := dict_set "name" (Json.Str mod_name) manifest_dict in
  description ← get_description;
  let manifest_dict := dict_set "description" (Json.Str description) manifest_dict in
  '(version, csproj) ← get_dll_version csproj;
  let manifest_dict := dict_set "version_number" (Json.Str version) manifest_dict in
  url ← get_github_url;
  let manifest_dict := dict_set "website_url" (Json.Str url) manifest_dict in
  mret (dict_set "dependencies"
          (Json.Arr [Json.Str "BepInEx-BepInExPack-5.4.2100"]) manifest_dict).

Definition manifest_path : Path.t := Path.of_str "manifest.json".

Definition build_manifest : M unit :=
  d ← manifest_dict;
  write_file manifest_path (Json.dumps (Json.Obj d)).

Definition main : M unit :=
  build_manifest;;
  packager ← FilePackager_init;
  process packager.

(** * Definitions that follow the specification *)

Definition LF : string := String "010"%char EmptyString.

(** ** DescriptionExtractor *)

Definition is_summary_heading (line : string) : bool :=
  Re.matches summary_header_pattern line.

Definition is_heading (line : string) : bool := PyStr.startswith "#" line.

(** The description as the specification words it: the lines that follow
    the first Summary heading, up to the next heading line, trimmed, the
    empty ones dropped, joined with single spaces. *)
Fixpoint after_summary_heading (lines : list string) : option (list string) :=
  match lines with
  | [] => None
  | line :: rest =>
      if is_summary_heading line then Some rest else after_summary_heading rest
  end.

Fixpoint until_heading (lines : list string) : list string :=
  match lines with
  | [] => []
  | line :: rest => if is_heading line then [] else line :: until_heading rest
  end.

Definition trimmed_nonempty (lines : list string) : list string :=
  List.filter (λ s, negb (String.eqb s "")) (map PyStr.strip lines).

Definition description_by_spec (text : string) : string :=
  match after_summary_heading (PyStr.readlines text) with
  | Some rest => PyStr.join " " (trimmed_nonempty (until_heading rest))
  | None => EmptyString
  end.

(** ** RepositoryUrlResolver *)

Definition https_prefix : string := "https://github.com/".
Definition ssh_prefix : string := "git@github.com:".

(** The URL as the specification words it, for the trimmed output of the
    tool: an HTTPS URL is kept, and an SSH URL has its host prefix
    substituted. *)
Definition github_url_by_spec (result : string) : string :=
  if PyStr.startswith https_prefix result then result
  else if PyStr.startswith ssh_prefix result
  then https_prefix +:+ PyStr.drop (String.length ssh_prefix) result
  else EmptyString.

(** [old] occurs nowhere in [s]. *)
Fixpoint occurs_nowhere (old s : string) : bool :=
  negb (PyStr.startswith old s)
  && match s with
     | EmptyString => true
     | String _ s' => occurs_nowhere old s'
     end.


(** ** ProjectDescriptor *)

(** [PROJECT_ROOT / f"{PROJECT_NAME}.csproj"] *)
Definition csproj_path : Path.t :=
  Path.div_str PROJECT_ROOT (PROJECT_NAME +:+ ".csproj").

(** The text of the element that a path finds, when there is such an
    element and its text is not empty. *)
Definition field (xml_path : list ElementPath.step) (root : Element)
  : option string :=
  match ElementPath.find xml_path root with
  | Some e =>
      match text_of e with
      | Some (String c t) => Some (String c t)
      | _ => None
      end
  | None => None
  end.

(** A lookup of [xml_path] by the getter [self] in the world [w] cannot
    succeed: the project file loads but the field is absent or empty, or
    the project file does not load at all. [w'] is the world in which
    this shows. *)
Definition lookup_fails (xml_path : list ElementPath.step)
    (self : CsprojGetter) (w w' : World) : Prop :=
  (∃ root self', load_csproj csproj_path self w = (Ok (root, self'), w')
                 ∧ field xml_path root = None)
  ∨ (csproj_root self = None ∧ ∃ e, ET_parse csproj_path w = (Raise e, w')).

(** The packager that [FilePackager.__init__] builds from the fields. *)
Definition packager_of (asm prod ver : string) (t : datetime) : FilePackager :=
  {| dll_name := asm +:+ ".dll";
     dll_source_path :=
       Path.div_str (Path.div PROJECT_ROOT DLL_SOURCE_FOLDER) (asm +:+ ".dll");
     dist_dir := Path.div_str PROJECT_ROOT "dist";
     temp_dir := Path.div_str (Path.div_str PROJECT_ROOT "dist")
                   ("temp_package_" +:+ strftime_YmdHMS t);
     zip_file_name := Path.div_str (Path.div_str PROJECT_ROOT "dist")
                        (prod +:+ "-" +:+ ver +:+ ".zip") |}.

(** ** ManifestBuilder *)

Definition separator (level : nat) : string := "," +:+ Json.newline_indent level.

(** The values of the manifest: a string, or a list of strings. *)
Definition flat (v : Json.value) : Prop :=
  match v with
  | Json.Str _ => True
  | Json.Arr items => ∃ ss, items = map Json.Str ss
  | Json.Obj _ => False
  end.

Definition need (v : Json.value) : nat :=
  match v with
  | Json.Str _ => 1
  | Json.Arr items => length items + 2
  | Json.Obj _ => 0
  end.

Definition render (kv : string * string) : string :=
  Json.encode_str kv.1 +:+ ": " +:+ kv.2.

Definition rendered (level : nat) (kv : string * Json.value) : string * string :=
  (kv.1, Json.dump level kv.2).

Definition manifest_of (name description version url : string)
  : list (string * Json.value) :=
  [("name", Json.Str name); ("description", Json.Str description);
   ("version_number", Json.Str version); ("website_url", Json.Str url);
   ("dependencies", Json.Arr [Json.Str "BepInEx-BepInExPack-5.4.2100"])].

Definition manifest_sorted (name description version url : string)
  : list (string * Json.value) :=
  [("dependencies", Json.Arr [Json.Str "BepInEx-BepInExPack-5.4.2100"]);
   ("description", Json.Str description); ("name", Json.Str name);
   ("version_number", Json.Str version); ("website_url", Json.Str url)].


(** ** PackageAssembler *)

(** Two trees with the same directories. *)
Definition same_dirs (f f' : gmap (list string) node) : Prop :=
  ∀ k, FS.is_dir f k = FS.is_dir f' k.

(** The staging directory of [self] is the directory at [T]. *)
Definition staged (self : FilePackager) (T : list string) (w : World) : Prop :=
  T ≠ [] ∧ resolve (fs w) (temp_dir self) = Found T ∧ FS.is_dir (fs w) T = true.

(** The staging directory of [self] does not exist. *)
Definition unstaged (self : FilePackager) (w : World) : Prop :=
  path_exists (temp_dir self) w = (Ok false, w).

(** A computation that neither creates nor removes a directory and never
    leaves through [sys.exit]. *)
Definition calm {A} (m : M A) : Prop :=
  ∀ w o w', m w = (o, w') → same_dirs (fs w) (fs w') ∧ ∀ c, o ≠ Exit c.

(** Every entry of the tree has a valid name and lies in a directory. *)
Definition WF (f : gmap (list string) node) : Prop :=
  ∀ k x, f !! k = Some x →
    ∃ n, last k = Some n ∧ FS.valid_name n = true
         ∧ FS.is_dir f (removelast k) = true.

(** A part of a pure path: a valid name, or [..]. *)
Definition part_ok (c : string) : bool := FS.valid_name c || String.eqb c "..".

Definition path_ok (p : Path.t) : Prop := Forall (λ c, part_ok c = true) (Path.parts p).

(** A computation that leaves the tree as it is. *)
Definition quiet {A} (m : M A) : Prop :=
  ∀ w o w', m w = (o, w') → fs w' = fs w.

(** The three locations that every run uses. *)
Definition dist_at : list string := cwd ++ ["dist"].
Definition staging_name (t : datetime) : string :=
  "temp_package_" +:+ strftime_YmdHMS t.
Definition staging_at (t : datetime) : list string :=
  cwd ++ ["dist"; staging_name t].

(** The entry that [prepare_file_spec] appends for the build artifact. *)
Definition dll_spec (self : FilePackager) : FileSpec :=
  {| path := dll_source_path self; required := true;
     rename_to := Some (dll_name self) |}.

(** The staging directory at [T] is an empty directory of the tree. *)
Definition fresh_staging (T : list string) (f : gmap (list string) node) : Prop :=
  f !! T = Some Dir ∧ ∀ k, T `prefix_of` k → k ≠ T → f !! k = None.

(** Below the staging directory at [T] there are regular files only, and
    they lie directly in it. *)
Definition flat_below (T : list string) (f : gmap (list string) node) : Prop :=
  ∀ k x, T `prefix_of` k → k ≠ T → f !! k = Some x →
    ∃ n data, k = T ++ [n] ∧ x = File data.

(** What holds of the tree while the staging directory is filled. *)
Definition staging_inv (T : list string) (f : gmap (list string) node) : Prop :=
  WF f ∧ FS.is_dir f cwd = true ∧ f !! T = Some Dir ∧ flat_below T f.

(** One file to stage: where its source lies, whether it is required, and
    the name it gets in the staging directory. *)
Record plan := { src_at : list string; must : bool; dest : string }.

(** The plans of the five entries of the file list, for an assembly name
    that is a plain file name. *)
Definition plans (asm : string) : list plan := [
  {| src_at := cwd ++ ["manifest.json"]; must := true; dest := "manifest.json" |};
  {| src_at := cwd ++ ["img"; "icon.png"]; must := true; dest := "icon.png" |};
  {| src_at := cwd ++ ["README.md"]; must := true; dest := "README.md" |};
  {| src_at := cwd ++ ["CHANGELOG.md"]; must := false; dest := "CHANGELOG.md" |};
  {| src_at := cwd ++ ["bin"; "Debug"; "net472"; asm +:+ ".dll"]; must := true;
     dest := asm +:+ ".dll" |}
].

(** A file spec follows a plan. *)
Definition spec_plan (spec : FileSpec) (p : plan) : Prop :=
  path spec = Path.mk true (src_at p)
  ∧ required spec = must p
  ∧ destination_name spec (Path.mk true (src_at p)) = dest p
  ∧ FS.valid_name (dest p) = true
  ∧ (∃ rel, src_at p = cwd ++ rel ∧ rel ≠ []
            ∧ Forall (λ c, FS.valid_name c = true) rel)
  ∧ ¬ dist_at `prefix_of` src_at p.

(** The files of the staging directory as a map from names to contents,
    and the effect of staging one plan on it. *)
Definition holds (T : list string) (f : gmap (list string) node)
    (S : gmap string string) : Prop :=
  ∀ n, f !! (T ++ [n]) = File <$> (S !! n).

Definition stage (f : gmap (list string) node) (S : gmap string string)
    (p : plan) : gmap string string :=
  match f !! src_at p with
  | Some (File data) => <[dest p := data]> S
  | _ => S
  end.

(** The archive entry that a plan contributes: its source under the name
    of the plan when the source is there, and nothing otherwise. *)
Definition source_entry (f : gmap (list string) node) (p : plan)
  : list (string * string) :=
  match f !! src_at p with
  | Some (File data) => [(dest p, data)]
  | _ => []
  end.

Definition expected_entries (f : gmap (list string) node) (ps : list plan)
  : list (string * string) :=
  flat_map (source_entry f) ps.

(** Every required source is a regular file, and an optional source is a
    regular file or absent. *)
Definition sources_ready (f : gmap (list string) node) (ps : list plan) : Prop :=
  Forall (λ p, (∃ data, f !! src_at p = Some (File data))
               ∨ (must p = false ∧ f !! src_at p = None)) ps.

Fixpoint last_char (s : string) : option ascii :=
  match s with
  | EmptyString => None
  | String c EmptyString => Some c
  | String _ s' => last_char s'
  end.

(** The name of the archive and where it lies. *)
Definition zip_name (prod ver : string) : string := prod +:+ "-" +:+ ver +:+ ".zip".
Definition zip_at (prod ver : string) : list string := dist_at ++ [zip_name prod ver].

(** The names that the specification lists for the archive. *)
Definition expected_names (f : gmap (list string) node) (asm : string)
  : list string :=
  ["manifest.json"; "icon.png"; "README.md"]
  ++ (if FS.present f (cwd ++ ["CHANGELOG.md"]) then ["CHANGELOG.md"] else [])
  ++ [asm +:+ ".dll"].

(** ** Further notions *)

(** The heading line that ends a section, if there is one. *)
Definition closing_heading (section : list string) : option string :=
  List.find is_heading section.

(** Where README.md and the project file lie. *)
Definition readme_at : list string := cwd ++ ["README.md"].
Definition manifest_at : list string := cwd ++ ["manifest.json"].
Definition csproj_at : list string := cwd ++ [PROJECT_NAME +:+ ".csproj"].

(** The assembly name, the product and the version that the project file
    of a tree declares. *)
Definition project_fields (f : gmap (list string) node)
  : option (string * string * string) :=
  match f !! csproj_at with
  | Some (File source) =>
      match xml_of_string source with
      | Some root =>
          match field xp_AssemblyName root, field xp_Product root,
                field xp_Version root with
          | Some asm, Some prod, Some ver => Some (asm, prod, ver)
          | _, _, _ => None
          end
      | None => None
      end
  | _ => None
  end.

(** The description that the README of a tree gives. *)
Definition readme_description (f : gmap (list string) node) : string :=
  match f !! readme_at with
  | Some (File text) => description_of_text text
  | _ => EmptyString
  end.

(** The text of the manifest for a product, a version and a URL. *)
Definition manifest_text (f : gmap (list string) node) (prod ver url : string)
  : string :=
  Json.dumps (Json.Obj (manifest_of prod (readme_description f) ver url)).
(** * Properties *)

(** ** DescriptionExtractor *)

Lemma summary_loop_cons line rest inside acc :
  summary_loop (line :: rest) inside acc =
  if is_summary_heading line then summary_loop rest true acc
  else if is_heading line && inside then acc
  else if inside then
    match PyStr.strip line with
    | EmptyString => summary_loop rest inside acc
    | _ => summary_loop rest inside (acc ++ [PyStr.strip line])
    end
  else summary_loop rest inside acc.
Proof. reflexivity. Qed.

Lemma after_summary_heading_cons line rest :
  after_summary_heading (line :: rest) =
  if is_summary_heading line then Some rest else after_summary_heading rest.
Proof. reflexivity. Qed.

Lemma until_heading_cons line rest :
  until_heading (line :: rest) =
  if is_heading line then [] else line :: until_heading rest.
Proof. reflexivity. Qed.

Lemma summary_loop_outside lines :
  after_summary_heading lines = None → summary_loop lines false [] = [].
Proof.
  induction lines as [|line rest IH]; [done|].
  rewrite summary_loop_cons, after_summary_heading_cons.
  destruct (is_summary_heading line); [done|].
  rewrite andb_false_r. exact IH.
Qed.

Lemma summary_loop_enter lines rest :
  after_summary_heading lines = Some rest →
  summary_loop lines false [] = summary_loop rest true [].
Proof.
  induction lines as [|line lines IH]; [done|].
  rewrite summary_loop_cons, after_summary_heading_cons.
  destruct (is_summary_heading line).
  - by intros [= ->].
  - rewrite andb_false_r. exact IH.
Qed.

(** Inside the section, and as long as no further Summary heading shows
    up, the loop collects what the specification describes. *)
Lemma summary_loop_inside rest acc :
  forallb (λ l, negb (is_summary_heading l)) rest = true →
  summary_loop rest true acc = acc ++ trimmed_nonempty (until_heading rest).
Proof.
  revert acc. induction rest as [|line rest IH]; intros acc Hno.
  - simpl. by rewrite app_nil_r.
  - rewrite summary_loop_cons, until_heading_cons.
    cbn [forallb] in Hno. apply andb_true_iff in Hno as [Hl Hno].
    apply negb_true_iff in Hl. rewrite Hl, andb_true_r.
    destruct (is_heading line).
    + unfold trimmed_nonempty. simpl. by rewrite app_nil_r.
    + unfold trimmed_nonempty. cbn [map List.filter].
      destruct (PyStr.strip line) eqn:Hs.
      * cbn [String.eqb negb]. by apply IH.
      * cbn [String.eqb negb]. rewrite IH by assumption.
        unfold trimmed_nonempty. by rewrite <- app_assoc.
Qed.

(** With a single Summary heading the code and the specification agree. *)
Lemma description_single_heading text rest :
  after_summary_heading (PyStr.readlines text) = Some rest →
  forallb (λ l, negb (is_summary_heading l)) rest = true →
  description_of_text text = description_by_spec text.
Proof.
  intros Hfirst Hrest. unfold description_of_text, description_by_spec.
  rewrite Hfirst. cbv zeta. rewrite (summary_loop_enter _ _ Hfirst).
  rewrite summary_loop_inside by assumption. rewrite app_nil_l.
  by destruct (trimmed_nonempty (until_heading rest)).
Qed.

(** Without a Summary heading the description is empty. *)
Lemma description_no_heading text :
  after_summary_heading (PyStr.readlines text) = None →
  description_of_text text = EmptyString.
Proof.
  intros H. unfold description_of_text. by rewrite summary_loop_outside.
Qed.

(** ** RepositoryUrlResolver *)

Lemma replace_from_nowhere old new s :
  old ≠ EmptyString → occurs_nowhere old s = true →
  PyStr.replace_from old new 0 s = s.
Proof.
  intros Hold. induction s as [|c s IH]; [done|].
  cbn [occurs_nowhere]. intros [Hhere Hrest]%andb_true_iff.
  apply negb_true_iff in Hhere. cbn [PyStr.replace_from].
  rewrite Hhere. f_equal. by apply IH.
Qed.

Lemma replace_from_skip old new k s :
  PyStr.replace_from old new k s =
  PyStr.replace_from old new 0 (PyStr.drop k s).
Proof.
  revert s. induction k as [|k IH]; intros s; [by destruct s|].
  destruct s as [|c s]; [done|]. cbn [PyStr.replace_from PyStr.drop]. apply IH.
Qed.

(** The tool never ends the process, and the answer leaves the world as
    it was. *)
Lemma get_github_url_returns w : ∃ url, get_github_url w = (Ok url, w).
Proof.
  unfold get_github_url. destruct (git_remote w) as [|rc out err]; [by eexists|].
  destruct (rc =? 0)%Z; [|by eexists].
  destruct (PyStr.startswith _ _); [by eexists|].
  destruct (PyStr.startswith _ _); by eexists.
Qed.

Lemma get_github_url_https w out err :
  git_remote w = Completed 0 out err →
  PyStr.startswith https_prefix (PyStr.strip out) = true →
  get_github_url w = (Ok (PyStr.strip out), w).
Proof.
  intros Hrun Hp. unfold get_github_url. rewrite Hrun. cbn [Z.eqb].
  unfold https_prefix in Hp. by rewrite Hp.
Qed.

(** An SSH URL that names the host once is rewritten as specified. *)
Lemma get_github_url_ssh_once w out err :
  git_remote w = Completed 0 out err →
  PyStr.startswith ssh_prefix (PyStr.strip out) = true →
  occurs_nowhere ssh_prefix (PyStr.drop (String.length ssh_prefix) (PyStr.strip out)) = true →
  get_github_url w = (Ok (github_url_by_spec (PyStr.strip out)), w).
Proof.
  intros Hrun Hp Hno. unfold get_github_url, github_url_by_spec. rewrite Hrun.
  cbn [Z.eqb]. unfold https_prefix, ssh_prefix in *.
  destruct (PyStr.startswith "https://github.com/" (PyStr.strip out)) eqn:Hh; [done|].
  rewrite Hp. do 2 f_equal. unfold PyStr.replace.
  destruct (PyStr.strip out) as [|c s] eqn:Hs; [done|].
  cbn [PyStr.replace_from]. rewrite Hp. f_equal.
  rewrite replace_from_skip. apply replace_from_nowhere; [done|].
  exact Hno.
Qed.

Lemma get_github_url_other w out err :
  git_remote w = Completed 0 out err →
  PyStr.startswith https_prefix (PyStr.strip out) = false →
  PyStr.startswith ssh_prefix (PyStr.strip out) = false →
  get_github_url w = (Ok EmptyString, w).
Proof.
  intros Hrun Hh Hs. unfold get_github_url. rewrite Hrun. cbn [Z.eqb].
  unfold https_prefix, ssh_prefix in *. by rewrite Hh, Hs.
Qed.

Lemma get_github_url_failed w rc out err :
  git_remote w = Completed rc out err → rc ≠ 0%Z →
  get_github_url w = (Ok EmptyString, w).
Proof.
  intros Hrun Hrc. unfold get_github_url. rewrite Hrun.
  by destruct (Z.eqb_spec rc 0).
Qed.

Lemma get_github_url_no_tool w :
  git_remote w = ToolNotFound → get_github_url w = (Ok EmptyString, w).
Proof. intros Hrun. unfold get_github_url. by rewrite Hrun. Qed.


(** ** The monad *)

Lemma bind_ok {A B} (m : M A) (k : A → M B) w a w1 :
  m w = (Ok a, w1) → (m ≫= k) w = k a w1.
Proof. intros H. unfold mbind, M_bind. by rewrite H. Qed.

Lemma bind_raise {A B} (m : M A) (k : A → M B) w e w1 :
  m w = (Raise e, w1) → (m ≫= k) w = (Raise e, w1).
Proof. intros H. unfold mbind, M_bind. by rewrite H. Qed.

Lemma bind_exit {A B} (m : M A) (k : A → M B) w c w1 :
  m w = (Exit c, w1) → (m ≫= k) w = (Exit c, w1).
Proof. intros H. unfold mbind, M_bind. by rewrite H. Qed.

Lemma bind_inv_ok {A B} (m : M A) (k : A → M B) w b w2 :
  (m ≫= k) w = (Ok b, w2) →
  ∃ a w1, m w = (Ok a, w1) ∧ k a w1 = (Ok b, w2).
Proof.
  unfold mbind, M_bind. destruct (m w) as [[a|e|c] w1]; [eauto|done..].
Qed.

(** ** ProjectDescriptor *)

Lemma load_csproj_cached p root w :
  load_csproj p {| csproj_root := Some root |} w
  = (Ok (root, {| csproj_root := Some root |}), w).
Proof. reflexivity. Qed.

Lemma load_csproj_parsed p w root w1 :
  ET_parse p w = (Ok root, w1) →
  load_csproj p {| csproj_root := None |} w
  = (Ok (root, {| csproj_root := Some root |}), w1).
Proof.
  intros H. unfold load_csproj. cbn [csproj_root]. unfold try_except.
  by rewrite (bind_ok _ _ _ _ _ H).
Qed.

Lemma load_csproj_unparsed p self w e w1 :
  csproj_root self = None → ET_parse p w = (Raise e, w1) →
  load_csproj p self w = (Exit 1, w1).
Proof.
  intros Hc H. unfold load_csproj. rewrite Hc. unfold try_except.
  by rewrite (bind_raise _ _ _ _ _ H).
Qed.

(** A malformed project file makes [ET.parse] raise. *)
Lemma ET_parse_malformed p w source w1 :
  read_file p w = (Ok source, w1) → xml_of_string source = None →
  ET_parse p w = (Raise ParseError, w1).
Proof.
  intros Hr Hx. unfold ET_parse. rewrite (bind_ok _ _ _ _ _ Hr). by rewrite Hx.
Qed.

(** What a lookup does once the project file is loaded. *)
Lemma retreive_csproj_element_loaded xml_path self w root self' w' :
  load_csproj csproj_path self w = (Ok (root, self'), w') →
  retreive_csproj_element xml_path self w =
  match field xml_path root with
  | Some t => (Ok (t, self'), w')
  | None => (Exit 1, w')
  end.
Proof.
  intros H. unfold retreive_csproj_element. fold csproj_path.
  rewrite (bind_ok _ _ _ _ _ H). unfold field.
  destruct (ElementPath.find xml_path root) as [e|]; [|done].
  by destruct (text_of e) as [[|c t]|].
Qed.

Lemma retreive_csproj_element_fails xml_path self w w' :
  lookup_fails xml_path self w w' →
  retreive_csproj_element xml_path self w = (Exit 1, w').
Proof.
  intros [(root & self' & Hload & Hf)|(Hc & e & Hp)].
  - rewrite (retreive_csproj_element_loaded _ _ _ _ _ _ Hload). by rewrite Hf.
  - unfold retreive_csproj_element. fold csproj_path.
    by rewrite (bind_exit _ _ _ _ _ (load_csproj_unparsed _ _ _ _ _ Hc Hp)).
Qed.

(** C6. When the project file loads and the assembly name is present and
    not empty, [get_dll_name] returns that name followed by [.dll], which
    is not the empty string. *)
Theorem C6_get_dll_name self w root self' w' e name :
  load_csproj csproj_path self w = (Ok (root, self'), w') →
  ElementPath.find xp_AssemblyName root = Some e →
  text_of e = Some name →
  name ≠ EmptyString →
  get_dll_name self w = (Ok (name +:+ ".dll", self'), w')
  ∧ name +:+ ".dll" ≠ EmptyString.
Proof.
  intros Hload Hfind Htext Hne. split; [|by destruct name].
  unfold get_dll_name.
  rewrite (bind_ok _ _ _ (name, self') w'); [done|].
  rewrite (retreive_csproj_element_loaded _ _ _ _ _ _ Hload).
  unfold field. rewrite Hfind, Htext. by destruct name.
Qed.

(** C7. A lookup of a required field that is absent or has empty text,
    and a lookup on a project file that does not load, leave through
    [sys.exit(1)]: no value is returned and nothing is raised. *)
Theorem C7_missing_field_is_fatal xml_path self w w' :
  lookup_fails xml_path self w w' →
  (xml_path = xp_AssemblyName → get_dll_name self w = (Exit 1, w'))
  ∧ (xml_path = xp_Version → get_dll_version self w = (Exit 1, w'))
  ∧ (xml_path = xp_Product → get_mod_name self w = (Exit 1, w')).
Proof.
  intros H%retreive_csproj_element_fails. repeat split; intros ->.
  - unfold get_dll_name. by rewrite (bind_exit _ _ _ _ _ H).
  - exact H.
  - exact H.
Qed.

Lemma retreive_csproj_element_fresh xml_path w root w1 t :
  ET_parse csproj_path w = (Ok root, w1) →
  field xml_path root = Some t →
  retreive_csproj_element xml_path {| csproj_root := None |} w
  = (Ok (t, {| csproj_root := Some root |}), w1).
Proof.
  intros Hp Hf.
  rewrite (retreive_csproj_element_loaded _ _ _ _ _ _ (load_csproj_parsed _ _ _ _ Hp)).
  by rewrite Hf.
Qed.

Lemma retreive_csproj_element_cached xml_path w root t :
  field xml_path root = Some t →
  retreive_csproj_element xml_path {| csproj_root := Some root |} w
  = (Ok (t, {| csproj_root := Some root |}), w).
Proof.
  intros Hf.
  rewrite (retreive_csproj_element_loaded _ _ _ _ _ _ (load_csproj_cached _ _ _)).
  by rewrite Hf.
Qed.

Lemma FilePackager_init_fields w root w1 asm prod ver :
  ET_parse csproj_path w = (Ok root, w1) →
  field xp_AssemblyName root = Some asm →
  field xp_Product root = Some prod →
  field xp_Version root = Some ver →
  FilePackager_init w = (Ok (packager_of asm prod ver (clock w1)), w1).
Proof.
  intros Hp Ha Hpr Hv. unfold FilePackager_init, get_dll_path, get_dll_name.
  unfold get_mod_name, get_dll_version.
  rewrite (bind_ok _ _ w (asm +:+ ".dll", {| csproj_root := Some root |}) w1).
  2:{ by rewrite (bind_ok _ _ _ _ _ (retreive_csproj_element_fresh _ _ _ _ _ Hp Ha)). }
  cbv beta iota.
  rewrite (bind_ok _ _ w1
             (Path.div_str (Path.div PROJECT_ROOT DLL_SOURCE_FOLDER) (asm +:+ ".dll"),
              {| csproj_root := Some root |}) w1).
  2:{ rewrite (bind_ok _ _ w1 (asm +:+ ".dll", {| csproj_root := Some root |}) w1); [done|].
      by rewrite (bind_ok _ _ _ _ _ (retreive_csproj_element_cached _ w1 _ _ Ha)). }
  cbv beta iota.
  rewrite (bind_ok now _ w1 (clock w1) w1) by done.
  rewrite (bind_ok _ _ _ _ _ (retreive_csproj_element_cached _ w1 _ _ Hpr)).
  cbv beta iota.
  rewrite (bind_ok _ _ _ _ _ (retreive_csproj_element_cached _ w1 _ _ Hv)).
  reflexivity.
Qed.

Lemma manifest_dict_fields w root w1 prod ver desc w2 :
  ET_parse csproj_path w = (Ok root, w1) →
  field xp_Product root = Some prod →
  field xp_Version root = Some ver →
  get_description w1 = (Ok desc, w2) →
  ∃ url, get_github_url w2 = (Ok url, w2)
    ∧ manifest_dict w =
      (Ok [("name", Json.Str prod); ("description", Json.Str desc);
           ("version_number", Json.Str ver); ("website_url", Json.Str url);
           ("dependencies", Json.Arr [Json.Str "BepInEx-BepInExPack-5.4.2100"])],
       w2).
Proof.
  intros Hp Hpr Hv Hd. destruct (get_github_url_returns w2) as [url Hu].
  exists url. split; [done|]. unfold manifest_dict, get_mod_name, get_dll_version.
  rewrite (bind_ok _ _ _ _ _ (retreive_csproj_element_fresh _ _ _ _ _ Hp Hpr)).
  cbv beta iota. rewrite (bind_ok _ _ _ _ _ Hd).
  rewrite (bind_ok _ _ _ _ _ (retreive_csproj_element_cached _ w2 _ _ Hv)).
  cbv beta iota. rewrite (bind_ok _ _ _ _ _ Hu). reflexivity.
Qed.

(** C10. The text of a field goes through untouched: the lookup returns it
    as it stands in the element, the DLL name is that text followed by
    [.dll], the manifest holds the product name and the version as read,
    and the archive is named by the string [{product}-{version}.zip] built
    from them, blanks included. *)
Theorem C10_fields_verbatim w root w1 asm prod ver :
  ET_parse csproj_path w = (Ok root, w1) →
  field xp_AssemblyName root = Some asm →
  field xp_Product root = Some prod →
  field xp_Version root = Some ver →
  let fresh := {| csproj_root := None |} in
  let loaded := {| csproj_root := Some root |} in
  retreive_csproj_element xp_AssemblyName fresh w = (Ok (asm, loaded), w1)
  ∧ get_dll_name fresh w = (Ok (asm +:+ ".dll", loaded), w1)
  ∧ get_mod_name fresh w = (Ok (prod, loaded), w1)
  ∧ get_dll_version fresh w = (Ok (ver, loaded), w1)
  ∧ (∃ packager, FilePackager_init w = (Ok packager, w1)
       ∧ dll_name packager = asm +:+ ".dll"
       ∧ zip_file_name packager
         = Path.div_str (dist_dir packager) (prod +:+ "-" +:+ ver +:+ ".zip"))
  ∧ (∀ desc w2, get_description w1 = (Ok desc, w2) →
       ∃ d, manifest_dict w = (Ok d, w2)
         ∧ d !! 0%nat = Some ("name", Json.Str prod)
         ∧ d !! 2%nat = Some ("version_number", Json.Str ver)).
Proof.
  intros Hp Ha Hpr Hv fresh loaded. repeat split.
  - by apply retreive_csproj_element_fresh.
  - unfold get_dll_name.
    by rewrite (bind_ok _ _ _ _ _ (retreive_csproj_element_fresh _ _ _ _ _ Hp Ha)).
  - by apply retreive_csproj_element_fresh.
  - by apply retreive_csproj_element_fresh.
  - eexists. split; [by apply (FilePackager_init_fields _ _ _ _ _ _ Hp Ha Hpr Hv)|done].
  - intros desc w2 Hd.
    destruct (manifest_dict_fields _ _ _ _ _ _ _ Hp Hpr Hv Hd) as (url & _ & ->).
    by eexists.
Qed.

(** ** ManifestBuilder *)

Lemma append_assoc (a b c : string) : (a +:+ b) +:+ c = a +:+ (b +:+ c).
Proof.
  induction a as [|x a IH]; [done|].
  change (String x ((a +:+ b) +:+ c) = String x (a +:+ (b +:+ c))).
  by rewrite IH.
Qed.

(** Reading back one escaped character. *)
Lemma scan_string_escape_char c r :
  Json.scan_string (Json.escape_char c +:+ r) =
  '(str, rest) ← Json.scan_string r; Some (String c str, rest).
Proof.
  destruct c as [[] [] [] [] [] [] [] []]; reflexivity.
Qed.

Lemma scan_string_escape s rest :
  Json.scan_string (Json.escape s +:+ String Json.quote rest) = Some (s, rest).
Proof.
  induction s as [|c s IH]; [done|].
  change (Json.escape (String c s)) with (Json.escape_char c +:+ Json.escape s).
  rewrite append_assoc, scan_string_escape_char, IH. done.
Qed.

Lemma scan_string_encoded s rest :
  Json.scan_string ((Json.escape s +:+ String Json.quote EmptyString) +:+ rest)
  = Some (s, rest).
Proof. rewrite append_assoc. apply scan_string_escape. Qed.

Lemma append_cons c (s t : string) : String c s +:+ t = String c (s +:+ t).
Proof. reflexivity. Qed.

Lemma skip_ws_spaces n r : Json.skip_ws (Json.spaces n +:+ r) = Json.skip_ws r.
Proof. induction n as [|n IH]; [done|]. exact IH. Qed.

Lemma skip_ws_newline_indent l r :
  Json.skip_ws (Json.newline_indent l +:+ r) = Json.skip_ws r.
Proof. apply (skip_ws_spaces (4 * l)). Qed.

Lemma parse_value_unfold f s :
  Json.parse_value (S f) s =
  match Json.skip_ws s with
  | String c r =>
      if Ascii.eqb c Json.quote then
        '(str, rest) ← Json.scan_string r; Some (Json.Str str, rest)
      else if Ascii.eqb c "["%char then
        match Json.skip_ws r with
        | String "]"%char rest => Some (Json.Arr [], rest)
        | _ => '(items, rest) ← Json.parse_items f r; Some (Json.Arr items, rest)
        end
      else if Ascii.eqb c "{"%char then
        match Json.skip_ws r with
        | String "}"%char rest => Some (Json.Obj [], rest)
        | _ => '(members, rest) ← Json.parse_members f r; Some (Json.Obj members, rest)
        end
      else None
  | EmptyString => None
  end.
Proof. reflexivity. Qed.

Lemma parse_value_skip f s s' :
  Json.skip_ws s = Json.skip_ws s' → Json.parse_value f s = Json.parse_value f s'.
Proof. intros H. destruct f; [done|]. by rewrite !parse_value_unfold, H. Qed.

Lemma parse_value_string f s r :
  Json.parse_value (S f) (Json.encode_str s +:+ r) = Some (Json.Str s, r).
Proof.
  rewrite parse_value_unfold. unfold Json.encode_str. rewrite append_cons.
  change (Json.skip_ws (String Json.quote ?x)) with (String Json.quote x).
  cbv beta iota. change (Ascii.eqb Json.quote Json.quote) with true. cbv iota.
  by rewrite scan_string_encoded.
Qed.

Lemma append_nil_r (s : string) : s +:+ "" = s.
Proof.
  induction s as [|c s IH]; [done|].
  change (String c (s +:+ "") = String c s). by rewrite IH.
Qed.

Lemma length_append (a b : string) :
  String.length (a +:+ b) = String.length a + String.length b.
Proof.
  induction a as [|c a IH]; [done|].
  change (S (String.length (a +:+ b)) = S (String.length a + String.length b)).
  by rewrite IH.
Qed.

Lemma parse_items_unfold f s :
  Json.parse_items (S f) s =
  '(v, r) ← Json.parse_value f s;
  match Json.skip_ws r with
  | String c rest =>
      if Ascii.eqb c ","%char then
        '(items, rest') ← Json.parse_items f rest; Some (v :: items, rest')
      else if Ascii.eqb c "]"%char then Some ([v], rest)
      else None
  | EmptyString => None
  end.
Proof. reflexivity. Qed.

Lemma parse_members_unfold f s :
  Json.parse_members (S f) s =
  match Json.skip_ws s with
  | String c r =>
      if Ascii.eqb c Json.quote then
        '(key, r1) ← Json.scan_string r;
        match Json.skip_ws r1 with
        | String ":"%char r2 =>
            '(v, r3) ← Json.parse_value f r2;
            match Json.skip_ws r3 with
            | String c' rest =>
                if Ascii.eqb c' ","%char then
                  '(members, rest') ← Json.parse_members f rest;
                  Some ((key, v) :: members, rest')
                else if Ascii.eqb c' "}"%char then Some ([(key, v)], rest)
                else None
            | EmptyString => None
            end
        | _ => None
        end
      else None
  | EmptyString => None
  end.
Proof. reflexivity. Qed.

Lemma join_cons2 sep x y l :
  PyStr.join sep (x :: y :: l) = x +:+ sep +:+ PyStr.join sep (y :: l).
Proof. reflexivity. Qed.

(** The items of an array of strings, as [dump] lays them out. *)
Lemma parse_items_strings (ss : list string) : ∀ (s : string) l l' f r,
  (length ss + 2 ≤ f)%nat →
  Json.parse_items f
    (Json.newline_indent l
     +:+ PyStr.join (separator l) (map Json.encode_str (s :: ss))
     +:+ Json.newline_indent l' +:+ "]" +:+ r)
  = Some (map Json.Str (s :: ss), r).
Proof.
  induction ss as [|s2 ss IH]; intros s l l' f r Hf.
  - destruct f as [|[|f]]; [simpl in Hf; lia..|].
    rewrite parse_items_unfold.
    rewrite (parse_value_skip _ _ _ (skip_ws_newline_indent l _)).
    cbn [map PyStr.join]. rewrite parse_value_string. cbn [mbind option_bind].
    rewrite skip_ws_newline_indent. reflexivity.
  - destruct f as [|f]; [simpl in Hf; lia|].
    rewrite parse_items_unfold.
    rewrite (parse_value_skip _ _ _ (skip_ws_newline_indent l _)).
    cbn [map]. rewrite join_cons2, !append_assoc.
    destruct f as [|f]; [simpl in Hf; lia|].
    rewrite parse_value_string. cbn [mbind option_bind].
    unfold separator at 1. rewrite append_assoc.
    change ("," +:+ ?x) with (String ","%char x).
    change (Json.skip_ws (String ","%char ?x)) with (String ","%char x).
    cbv beta iota. change (Ascii.eqb ","%char ","%char) with true. cbv iota.
    change (Json.encode_str s2 :: map Json.encode_str ss)
      with (map Json.encode_str (s2 :: ss)).
    rewrite (IH s2 l l' (S f) r) by (simpl in Hf |- *; lia).
    reflexivity.
Qed.

Lemma join_encoded_head sep (s : string) (ss : list string) x :
  ∃ y, PyStr.join sep (map Json.encode_str (s :: ss)) +:+ x = String Json.quote y.
Proof.
  destruct ss as [|s2 ss].
  - by eexists.
  - cbn [map]. rewrite join_cons2, append_assoc. by eexists.
Qed.

Lemma map_dump_strings level (ss : list string) :
  map (Json.dump level) (map Json.Str ss) = map Json.encode_str ss.
Proof. induction ss as [|s ss IH]; [done|]. cbn [map]. by rewrite IH. Qed.

(** An array of strings, as [dump] lays it out. *)
Lemma parse_value_strings (ss : list string) level f r :
  (length ss + 2 ≤ f)%nat →
  Json.parse_value f (Json.dump level (Json.Arr (map Json.Str ss)) +:+ r)
  = Some (Json.Arr (map Json.Str ss), r).
Proof.
  intros Hf. destruct f as [|f]; [lia|]. destruct ss as [|s ss].
  - reflexivity.
  - change (Json.dump level (Json.Arr (map Json.Str (s :: ss))))
      with ("[" +:+ Json.newline_indent (S level)
            +:+ PyStr.join (separator (S level))
                  (map (Json.dump (S level)) (map Json.Str (s :: ss)))
            +:+ Json.newline_indent level +:+ "]").
    rewrite map_dump_strings, !append_assoc.
    change ("[" +:+ ?x) with (String "["%char x).
    rewrite parse_value_unfold.
    change (Json.skip_ws (String "["%char ?x)) with (String "["%char x).
    cbv beta iota. change (Ascii.eqb "["%char Json.quote) with false.
    change (Ascii.eqb "["%char "["%char) with true. cbv iota.
    rewrite skip_ws_newline_indent.
    rewrite parse_items_strings by (simpl in Hf; lia).
    destruct (join_encoded_head (separator (S level)) s ss
                (Json.newline_indent level +:+ "]" +:+ r)) as [y ->].
    reflexivity.
Qed.

Lemma parse_value_flat v level f r :
  flat v → (need v ≤ f)%nat →
  Json.parse_value f (String " "%char (Json.dump level v +:+ r)) = Some (v, r).
Proof.
  intros Hv Hf.
  rewrite (parse_value_skip _ _ (Json.dump level v +:+ r)) by reflexivity.
  destruct v as [s|items|ms]; [| |done].
  - destruct f; [simpl in Hf; lia|]. apply parse_value_string.
  - destruct Hv as [ss ->]. apply parse_value_strings.
    simpl in Hf. by rewrite length_map in Hf.
Qed.

(** The members of an object with flat values, as [dump] lays them out. *)
Lemma parse_members_flat (ms : list (string * Json.value)) :
  ∀ (kv : string * Json.value) level f r,
  Forall (λ m, flat m.2 ∧ (need m.2 + length (kv :: ms) ≤ f)%nat) (kv :: ms) →
  Json.parse_members f
    (Json.newline_indent (S level)
     +:+ PyStr.join (separator (S level))
           (map render (map (rendered (S level)) (kv :: ms)))
     +:+ Json.newline_indent level +:+ "}" +:+ r)
  = Some (kv :: ms, r).
Proof.
  induction ms as [|kv2 ms IH]; intros [k v] level f r Hall.
  - apply Forall_cons in Hall as [[Hv Hf] _]. cbn [fst snd length] in *.
    destruct f as [|f]; [lia|].
    rewrite parse_members_unfold, skip_ws_newline_indent.
    cbn [map PyStr.join]. unfold render, rendered. cbn [fst snd].
    unfold Json.encode_str at 1. rewrite !append_assoc.
    change (String Json.quote ?a +:+ ?b) with (String Json.quote (a +:+ b)).
    change (Json.skip_ws (String Json.quote ?x)) with (String Json.quote x).
    cbv beta iota. change (Ascii.eqb Json.quote Json.quote) with true. cbv iota.
    rewrite scan_string_encoded. cbn [mbind option_bind].
    change (": " +:+ ?x) with (String ":"%char (String " "%char x)).
    change (Json.skip_ws (String ":"%char ?x)) with (String ":"%char x).
    cbv beta iota.
    rewrite parse_value_flat by (done || lia). cbn [mbind option_bind].
    rewrite skip_ws_newline_indent. reflexivity.
  - apply Forall_cons in Hall as [[Hv Hf] Hall]. cbn [fst snd] in *.
    destruct f as [|f]; [simpl in Hf; lia|].
    rewrite parse_members_unfold, skip_ws_newline_indent.
    cbn [map]. rewrite join_cons2.
    unfold render at 1.
    change ((rendered (S level) (k, v)).1) with k.
    change ((rendered (S level) (k, v)).2) with (Json.dump (S level) v).
    unfold Json.encode_str at 1. rewrite !append_assoc.
    change (String Json.quote ?a +:+ ?b) with (String Json.quote (a +:+ b)).
    change (Json.skip_ws (String Json.quote ?x)) with (String Json.quote x).
    cbv beta iota. change (Ascii.eqb Json.quote Json.quote) with true. cbv iota.
    rewrite scan_string_encoded. cbn [mbind option_bind].
    change (": " +:+ ?x) with (String ":"%char (String " "%char x)).
    change (Json.skip_ws (String ":"%char ?x)) with (String ":"%char x).
    cbv beta iota.
    rewrite parse_value_flat by (done || (simpl in Hf; lia)).
    cbn [mbind option_bind].
    unfold separator at 1. rewrite append_assoc.
    change ("," +:+ ?x) with (String ","%char x).
    change (Json.skip_ws (String ","%char ?x)) with (String ","%char x).
    cbv beta iota. change (Ascii.eqb ","%char ","%char) with true. cbv iota.
    change (map render (map (rendered (S level)) ms))
      with (map render (map (rendered (S level)) ms)).
    rewrite <- (map_cons render), <- (map_cons (rendered (S level))).
    rewrite (IH kv2 level f r).
    + reflexivity.
    + eapply Forall_impl; [exact Hall|]. intros m [? ?]. split; [done|].
      simpl in *. lia.
Qed.

Lemma join_render_head sep (kv : string * string) kvs x :
  ∃ y, PyStr.join sep (map render (kv :: kvs)) +:+ x = String Json.quote y.
Proof.
  destruct kvs as [|kv2 kvs].
  - cbn [map PyStr.join]. unfold render, Json.encode_str.
    rewrite append_assoc. by eexists.
  - cbn [map]. rewrite join_cons2. unfold render at 1, Json.encode_str at 1.
    rewrite !append_assoc. by eexists.
Qed.

Lemma dumps_manifest a b c u :
  Json.dumps (Json.Obj (manifest_of a b c u)) =
  String "{"%char
    (Json.newline_indent 1
     +:+ PyStr.join (separator 1)
           (map render (map (rendered 1) (manifest_sorted a b c u)))
     +:+ Json.newline_indent 0 +:+ "}" +:+ "").
Proof. reflexivity. Qed.

Lemma loads_manifest a b c u :
  Json.loads (Json.dumps (Json.Obj (manifest_of a b c u)))
  = Some (Json.Obj (manifest_sorted a b c u)).
Proof.
  unfold Json.loads. rewrite dumps_manifest.
  set (body := PyStr.join (separator 1)
                 (map render (map (rendered 1) (manifest_sorted a b c u)))
               +:+ Json.newline_indent 0 +:+ "}" +:+ "").
  destruct (join_render_head (separator 1)
              (rendered 1 ("dependencies",
                 Json.Arr [Json.Str "BepInEx-BepInExPack-5.4.2100"]))
              (map (rendered 1)
                 [("description", Json.Str b); ("name", Json.Str a);
                  ("version_number", Json.Str c); ("website_url", Json.Str u)])
              (Json.newline_indent 0 +:+ "}" +:+ "")) as [y Hy].
  change (body = String Json.quote y) in Hy.
  assert (Hlen : (8 ≤ String.length (Json.newline_indent 1 +:+ body))%nat).
  { destruct (join_render_head (separator 1)
              (rendered 1 ("dependencies",
                 Json.Arr [Json.Str "BepInEx-BepInExPack-5.4.2100"]))
              (map (rendered 1)
                 [("description", Json.Str b); ("name", Json.Str a);
                  ("version_number", Json.Str c); ("website_url", Json.Str u)])
              "") as [y' Hy'].
    rewrite append_nil_r in Hy'. subst body.
    rewrite !length_append.
    change (map render (map (rendered 1) (manifest_sorted a b c u)))
      with (map render
              (rendered 1 ("dependencies",
                 Json.Arr [Json.Str "BepInEx-BepInExPack-5.4.2100"])
               :: map (rendered 1)
                 [("description", Json.Str b); ("name", Json.Str a);
                  ("version_number", Json.Str c); ("website_url", Json.Str u)])).
    rewrite Hy'. simpl. lia. }
  rewrite parse_value_unfold.
  change (Json.skip_ws (String "{"%char ?x)) with (String "{"%char x).
  cbv beta iota. change (Ascii.eqb "{"%char Json.quote) with false.
  change (Ascii.eqb "{"%char "["%char) with false.
  change (Ascii.eqb "{"%char "{"%char) with true. cbv iota.
  rewrite skip_ws_newline_indent.
  assert (Hm : Json.parse_members
                 (String.length (String "{"%char (Json.newline_indent 1 +:+ body)))
                 (Json.newline_indent 1 +:+ body)
               = Some (manifest_sorted a b c u, "")).
  { apply parse_members_flat.
    change (String.length (String "{"%char (Json.newline_indent 1 +:+ body)))
      with (S (String.length (Json.newline_indent 1 +:+ body))).
    revert Hlen. generalize (String.length (Json.newline_indent 1 +:+ body)).
    intros n Hlen. unfold manifest_sorted.
    constructor.
    { split; [by exists ["BepInEx-BepInExPack-5.4.2100"]|simpl; lia]. }
    repeat (constructor; [split; [exact I|simpl; lia]|]).
    constructor. }
  rewrite Hm, Hy. reflexivity.
Qed.

(** Whatever the inputs, the dictionary has the five keys of the manifest
    in this order. *)
Lemma manifest_dict_shape w d w1 :
  manifest_dict w = (Ok d, w1) →
  ∃ name description version url, d = manifest_of name description version url.
Proof.
  unfold manifest_dict. intros H.
  apply bind_inv_ok in H as ([name g1] & wa & _ & H).
  apply bind_inv_ok in H as (description & wb & _ & H).
  apply bind_inv_ok in H as ([version g2] & wc & _ & H).
  apply bind_inv_ok in H as (url & wd & _ & H).
  injection H as <- _. by exists name, description, version, url.
Qed.

Lemma manifest_path_parts : manifest_path = Path.mk false ["manifest.json"].
Proof. reflexivity. Qed.

Lemma io_check_fs w u w1 : io_check w = (Ok u, w1) → fs w1 = fs w.
Proof.
  unfold io_check. destruct (io_faults w) as [|[] rest]; by intros [= <- <-].
Qed.

(** A file written under a plain name lands in the working directory. *)
Lemma write_file_cwd name data w w1 :
  String.eqb name ".." = false →
  write_file (Path.mk false [name]) data w = (Ok (), w1) →
  fs w1 !! (cwd ++ [name]) = Some (File data).
Proof.
  intros Hname H. unfold write_file in H.
  apply bind_inv_ok in H as (u & w0 & Hio & H).
  apply io_check_fs in Hio. unfold resolve in H. cbn [Path.absolute Path.parts] in H.
  cbn [FS.resolve_from] in H. rewrite Hname in H.
  destruct (FS.is_dir (fs w0) cwd).
  - unfold put_file in H.
    destruct (FS.is_dir (fs w0) (cwd ++ [name])); [done|].
    destruct (FS.is_dir (fs w0) (removelast (cwd ++ [name]))); [|done].
    injection H as <-. cbn [fs with_fs]. apply lookup_insert_eq.
  - by destruct (FS.present (fs w0) cwd).
Qed.

Lemma manifest_sorted_keys a b c u :
  StronglySorted (λ x y, String.ltb x y = true)
    (map fst (manifest_sorted a b c u)).
Proof. repeat (constructor; [|by repeat constructor]). constructor. Qed.

Lemma manifest_sorted_perm a b c u :
  manifest_sorted a b c u ≡ₚ manifest_of a b c u.
Proof.
  unfold manifest_sorted, manifest_of.
  etrans; [apply (Permutation_middle [_; _; _; _] [])|].
  apply perm_swap.
Qed.

(** C5. When [build_manifest] completes, manifest.json in the working
    directory holds the dump of the dictionary that was built; that text
    parses as a JSON object, the keys of the object come in ascending
    order, and its members are those of the dictionary: name, description,
    version_number, website_url and the dependencies list. *)
Theorem C5_manifest_roundtrip w w' :
  build_manifest w = (Ok (), w') →
  ∃ d w1 text members,
    manifest_dict w = (Ok d, w1)
    ∧ fs w' !! (cwd ++ ["manifest.json"]) = Some (File text)
    ∧ text = Json.dumps (Json.Obj d)
    ∧ Json.loads text = Some (Json.Obj members)
    ∧ StronglySorted (λ x y, String.ltb x y = true) (map fst members)
    ∧ members ≡ₚ d.
Proof.
  unfold build_manifest. intros H.
  apply bind_inv_ok in H as (d & w1 & Hd & Hw).
  destruct (manifest_dict_shape _ _ _ Hd) as (a & b & c & u & ->).
  exists (manifest_of a b c u), w1, (Json.dumps (Json.Obj (manifest_of a b c u))),
    (manifest_sorted a b c u).
  split; [done|]. split.
  { rewrite manifest_path_parts in Hw. by apply (write_file_cwd _ _ w1). }
  split; [done|]. split; [apply loads_manifest|].
  split; [apply manifest_sorted_keys|apply manifest_sorted_perm].
Qed.

(** ** The file system *)

Lemma is_dir_insert_file f d data k :
  FS.is_dir f d = false →
  FS.is_dir (<[d := File data]> f) k = FS.is_dir f k.
Proof.
  intros Hd. destruct k as [|n k]; [done|]. unfold FS.is_dir in *.
  destruct (decide (d = n :: k)) as [->|Hne].
  - rewrite lookup_insert_eq. by destruct (f !! (n :: k)) as [[]|].
  - by rewrite lookup_insert_ne.
Qed.

Lemma is_dir_insert_dir f d k :
  FS.is_dir f k = true → FS.is_dir (<[d := Dir]> f) k = true.
Proof.
  destruct k as [|n k]; [done|]. unfold FS.is_dir.
  destruct (decide (d = n :: k)) as [->|Hne].
  - by rewrite lookup_insert_eq.
  - by rewrite lookup_insert_ne.
Qed.

Lemma lookup_remove_tree d f k :
  FS.remove_tree d f !! k = if decide (d `prefix_of` k) then None else f !! k.
Proof.
  unfold FS.remove_tree. destruct (decide (d `prefix_of` k)) as [Hp|Hp].
  - apply map_lookup_filter_None. right. intros x _. simpl. tauto.
  - destruct (f !! k) as [x|] eqn:Hk.
    + apply map_lookup_filter_Some. done.
    + apply map_lookup_filter_None. by left.
Qed.

Lemma is_dir_remove_tree d f k :
  FS.is_dir (FS.remove_tree d f) k = true → FS.is_dir f k = true.
Proof.
  destruct k as [|n k]; [done|]. unfold FS.is_dir.
  rewrite lookup_remove_tree. by case_decide.
Qed.

(** Resolution only looks at which locations are directories. *)
Lemma resolve_from_mono f f' comps : ∀ stk d,
  (∀ k, FS.is_dir f k = true → FS.is_dir f' k = true) →
  FS.resolve_from f stk comps = Found d →
  FS.resolve_from f' stk comps = Found d.
Proof.
  induction comps as [|c comps IH]; intros stk d Hsub; [done|].
  cbn [FS.resolve_from]. destruct (FS.is_dir f stk) eqn:Hs.
  - rewrite (Hsub _ Hs). destruct (String.eqb c ".."); by apply IH.
  - by destruct (FS.present f stk).
Qed.

Lemma resolve_mono f f' p d :
  (∀ k, FS.is_dir f k = true → FS.is_dir f' k = true) →
  resolve f p = Found d → resolve f' p = Found d.
Proof. apply resolve_from_mono. Qed.

Lemma same_dirs_refl f : same_dirs f f.
Proof. done. Qed.

Lemma same_dirs_trans f1 f2 f3 :
  same_dirs f1 f2 → same_dirs f2 f3 → same_dirs f1 f3.
Proof. intros H1 H2 k. by rewrite H1. Qed.

Lemma staged_same_dirs self T w w' :
  same_dirs (fs w) (fs w') → staged self T w → staged self T w'.
Proof.
  intros Hs (Hne & Hr & Hd). repeat split; [done| |by rewrite <- Hs].
  eapply resolve_mono; [|exact Hr]. intros k. by rewrite Hs.
Qed.

(** Removing the staging directory leaves nothing at its path. *)
Lemma rmtree_staged self T w :
  staged self T w →
  ∃ w', rmtree (temp_dir self) w = (Ok (), w') ∧ unstaged self w'.
Proof.
  intros (Hne & Hr & Hd). eexists. split.
  { unfold rmtree. by rewrite Hr, Hd. }
  unfold unstaged, path_exists. cbn [fs with_fs]. do 2 f_equal.
  destruct (resolve (FS.remove_tree T (fs w)) (temp_dir self)) as [d| |] eqn:Hr';
    [|done..].
  assert (d = T) as ->.
  { eapply resolve_mono in Hr'; [|apply is_dir_remove_tree]. congruence. }
  destruct T as [|n T]; [done|]. unfold FS.present.
  rewrite lookup_remove_tree. by rewrite decide_True.
Qed.

Lemma calm_ret {A} (a : A) : calm (mret a).
Proof. intros w o w' [= <- <-]. done. Qed.

Lemma calm_raise {A} e : calm (raise e : M A).
Proof. intros w o w' [= <- <-]. done. Qed.

Lemma calm_bind {A B} (m : M A) (k : A → M B) :
  calm m → (∀ a, calm (k a)) → calm (m ≫= k).
Proof.
  intros Hm Hk w o w'. unfold mbind, M_bind.
  destruct (m w) as [[a|e|c] w1] eqn:Hmw; destruct (Hm _ _ _ Hmw) as [Hs Hx].
  - intros Hka. destruct (Hk a _ _ _ Hka) as [Hs' Hx'].
    split; [by eapply same_dirs_trans|done].
  - by intros [= <- <-].
  - by destruct (Hx c).
Qed.

Lemma calm_io_check : calm io_check.
Proof.
  intros w o w'. unfold io_check.
  destruct (io_faults w) as [|[] rest]; by intros [= <- <-].
Qed.

Lemma calm_path_exists p : calm (path_exists p).
Proof. by intros w o w' [= <- <-]. Qed.

Lemma calm_put_file d data : calm (put_file d data).
Proof.
  intros w o w'. unfold put_file.
  destruct (FS.is_dir (fs w) d) eqn:Hd; [by intros [= <- <-]|].
  destruct (FS.is_dir (fs w) (removelast d)); intros [= <- <-]; [|done].
  split; [|done]. intros k. cbn [fs with_fs]. by rewrite is_dir_insert_file.
Qed.

Lemma calm_read_file p : calm (read_file p).
Proof.
  apply calm_bind; [apply calm_io_check|]. intros _ w o w'.
  destruct (resolve (fs w) p) as [d| |]; [|by intros [= <- <-]..].
  destruct (fs w !! d) as [[]|]; by intros [= <- <-].
Qed.

Lemma calm_write_file p data : calm (write_file p data).
Proof.
  apply calm_bind; [apply calm_io_check|]. intros _ w o w'.
  destruct (resolve (fs w) p) as [d| |]; [apply calm_put_file|by intros [= <- <-]..].
Qed.

Lemma calm_shutil_copy src dst : calm (shutil_copy src dst).
Proof.
  apply calm_bind; [apply calm_io_check|]. intros _ w o w'.
  destruct (resolve (fs w) dst) as [d0| |]; [|by intros [= <- <-]..].
  destruct (resolve (fs w) src) as [s| |];
    destruct (if FS.is_dir (fs w) d0 then _ else _) as [d| |];
    try by intros [= <- <-].
  cbv zeta beta iota.
  case_bool_decide; [by intros [= <- <-]|].
  destruct (fs w !! s) as [[]|]; [apply calm_put_file|by intros [= <- <-]..].
Qed.

Lemma calm_walk_files top : calm (walk_files top).
Proof. by intros w o w' [= <- <-]. Qed.

(** An archive that opens is a regular file at the location returned. *)
Lemma zip_open_outcome p w o w' :
  zip_open p w = (o, w') →
  same_dirs (fs w) (fs w')
  ∧ match o with
    | Ok z => FS.is_dir (fs w') z = false
    | Raise _ => True
    | Exit _ => False
    end.
Proof.
  unfold zip_open, mbind, M_bind.
  destruct (io_check w) as [[u|e|c] w0] eqn:Hio;
    destruct (calm_io_check _ _ _ Hio) as [Hs Hx]; [|by intros [= <- <-]|by destruct (Hx c)].
  destruct (resolve (fs w0) p) as [z| |]; [|by intros [= <- <-]..].
  destruct (put_file z (zip_bytes []) w0) as [[u'|e|c] w1] eqn:Hput;
    destruct (calm_put_file _ _ _ _ _ Hput) as [Hs' Hx'];
    intros [= <- <-]; (split; [by eapply same_dirs_trans|]); try done.
  - unfold put_file in Hput. destruct (FS.is_dir (fs w0) z) eqn:Hz; [done|].
    by rewrite <- Hs'.
  - by destruct (Hx' c).
Qed.

Lemma calm_zip_write_all z top files : ∀ entries w o w',
  FS.is_dir (fs w) z = false →
  zip_write_all z top files entries w = (o, w') →
  same_dirs (fs w) (fs w') ∧ ∀ c, o ≠ Exit c.
Proof.
  induction files as [|arcname files IH]; intros entries w o w' Hz.
  { by intros [= <- <-]. }
  cbn [zip_write_all]. unfold mbind at 1, M_bind at 1.
  destruct (read_file _ w) as [[data|e|c] w0] eqn:Hr;
    destruct (calm_read_file _ _ _ _ Hr) as [Hs Hx];
    [|by intros [= <- <-]|by destruct (Hx c)].
  unfold mbind at 1, M_bind at 1. unfold zip_store at 1.
  intros H. apply IH in H.
  - destruct H as [Hs' Hx']. split; [|done].
    intros k. rewrite Hs, <- Hs'. cbn [fs with_fs].
    rewrite is_dir_insert_file; [done|]. by rewrite <- Hs.
  - cbn [fs with_fs]. rewrite is_dir_insert_file; by rewrite <- Hs.
Qed.

(** ** PackageAssembler: preparing the staging directory *)

Lemma os_mkdir_ok p w w' :
  os_mkdir p w = (Ok (), w') →
  ∃ d, d ≠ [] ∧ resolve (fs w) p = Found d ∧ FS.present (fs w) d = false
       ∧ FS.is_dir (fs w) (removelast d) = true
       ∧ fs w' = <[d := Dir]> (fs w).
Proof.
  unfold os_mkdir. intros H. apply bind_inv_ok in H as (u & w0 & Hio & H).
  apply io_check_fs in Hio. rewrite Hio in H.
  destruct (resolve (fs w) p) as [d| |]; [|done..].
  destruct (FS.present (fs w) d) eqn:Hp; [done|].
  destruct (FS.is_dir (fs w) (removelast d)) eqn:Hd; [|done].
  injection H as <-. exists d. repeat split; [|done..].
  intros ->. done.
Qed.

(** A directory that was made is there. *)
Lemma os_mkdir_made p w w' :
  os_mkdir p w = (Ok (), w') →
  ∃ d, d ≠ [] ∧ resolve (fs w') p = Found d ∧ FS.is_dir (fs w') d = true.
Proof.
  intros (d & Hne & Hr & _ & _ & Hfs)%os_mkdir_ok. exists d.
  rewrite Hfs. repeat split; [done| |].
  - eapply resolve_mono; [|exact Hr]. intros k. apply is_dir_insert_dir.
  - destruct d; [done|]. unfold FS.is_dir. by rewrite lookup_insert_eq.
Qed.

Lemma mkdir_made fuel : ∀ parents p w w',
  mkdir fuel parents false p w = (Ok (), w') →
  ∃ d, d ≠ [] ∧ resolve (fs w') p = Found d ∧ FS.is_dir (fs w') d = true.
Proof.
  induction fuel as [|fuel IH]; intros parents p w w'.
  - cbn [mkdir]. unfold try_except.
    destruct (os_mkdir p w) as [[[]|e|c] w0] eqn:Hm; [|..|done].
    + intros [= <-]. by apply (os_mkdir_made _ w).
    + destruct e; try (unfold mbind, M_bind, path_is_dir; cbn; done).
      by destruct (negb parents || bool_decide (Path.parts p = [])).
  - cbn [mkdir]. unfold try_except.
    destruct (os_mkdir p w) as [[[]|e|c] w0] eqn:Hm; [|..|done].
    + intros [= <-]. by apply (os_mkdir_made _ w).
    + destruct e; try (unfold mbind, M_bind, path_is_dir; cbn; done).
      destruct (negb parents || bool_decide (Path.parts p = [])); [done|].
      intros H. apply bind_inv_ok in H as (u & w1 & _ & H). by apply IH in H.
Qed.

Lemma prepare_file_spec_staged self w specs w1 :
  prepare_file_spec self w = (Ok specs, w1) → ∃ T, staged self T w1.
Proof.
  unfold prepare_file_spec. intros H.
  apply bind_inv_ok in H as (b1 & wa & _ & H).
  apply bind_inv_ok in H as (u1 & wb & _ & H).
  apply bind_inv_ok in H as (b2 & wc & _ & H).
  apply bind_inv_ok in H as (u2 & wd & _ & H).
  apply bind_inv_ok in H as ([] & we & Hmk & H).
  injection H as _ <-. apply mkdir_made in Hmk as (T & ? & ? & ?).
  by exists T.
Qed.

(** ** PackageAssembler: copying and archiving *)

Lemma copy_loop_outcome self T specs : ∀ w o w',
  staged self T w →
  copy_loop self specs w = (o, w') →
  (o = Exit 1 ∧ unstaged self w') ∨ ((∀ c, o ≠ Exit c) ∧ staged self T w').
Proof.
  induction specs as [|file_spec specs IH]; intros w o w' Hst.
  { intros [= <- <-]. by right. }
  cbn [copy_loop]. unfold mbind at 1, M_bind at 1. cbn [path_exists].
  destruct (match resolve (fs w) _ with Found d => _ | _ => false end).
  - unfold mbind at 1, M_bind at 1.
    destruct (shutil_copy _ _ w) as [[u|e|c] w0] eqn:Hc;
      destruct (calm_shutil_copy _ _ _ _ _ Hc) as [Hs Hx].
    + apply IH. by eapply staged_same_dirs.
    + intros [= <- <-]. right. split; [done|]. by eapply staged_same_dirs.
    + by destruct (Hx c).
  - destruct (required file_spec).
    + destruct (rmtree_staged _ _ _ Hst) as (w0 & Hrm & Hun).
      rewrite (bind_ok _ _ _ _ _ Hrm). intros [= <- <-]. by left.
    + by apply IH.
Qed.

Lemma copy_files_outcome self T specs w o w' :
  staged self T w →
  copy_files self specs w = (o, w') →
  (o = Exit 1 ∧ unstaged self w') ∨ (o = Ok () ∧ staged self T w').
Proof.
  intros Hst. unfold copy_files, try_except.
  destruct (copy_loop self specs w) as [[[]|e|c] w0] eqn:Hl;
    destruct (copy_loop_outcome _ _ _ _ _ _ Hst Hl) as [[Ho Hun]|[Hx Hst']];
    try done.
  - intros [= <- <-]. by right.
  - destruct (rmtree_staged _ _ _ Hst') as (w1 & Hrm & Hun).
    rewrite (bind_ok _ _ _ _ _ Hrm). intros [= <- <-]. by left.
  - intros [= <- <-]. by left.
  - by destruct (Hx c).
Qed.

Lemma calm_zip_block self : calm (zip_block self).
Proof.
  intros w o w'. unfold zip_block. unfold mbind at 1, M_bind at 1.
  destruct (zip_open _ w) as [[z|e|c] w0] eqn:Hz;
    destruct (zip_open_outcome _ _ _ _ Hz) as [Hs Ho]; [|by intros [= <- <-]|done].
  unfold mbind at 1, M_bind at 1. cbn [walk_files].
  unfold mbind at 1, M_bind at 1.
  destruct (zip_write_all _ _ _ _ w0) as [[es|e|c] w1] eqn:Hw;
    destruct (calm_zip_write_all _ _ _ _ _ _ _ Ho Hw) as [Hs' Hx].
  - unfold mbind, M_bind.
    destruct (io_check w1) as [[u|e|c] w2] eqn:Hio;
      destruct (calm_io_check _ _ _ Hio) as [Hs'' Hx'];
      [| |by destruct (Hx' c)];
      intros [= <- <-]; (split; [|done]);
      (eapply same_dirs_trans; [exact Hs|]); by eapply same_dirs_trans.
  - intros [= <- <-]. split; [by eapply same_dirs_trans|done].
  - by destruct (Hx c).
Qed.

Lemma zip_files_outcome self T w o w' :
  staged self T w →
  zip_files self w = (o, w') →
  (o = Ok () ∨ o = Exit 1) ∧ unstaged self w'.
Proof.
  intros Hst. unfold zip_files, try_finally, try_except, mbind, M_bind.
  destruct (zip_block self w) as [[es|e|c] w0] eqn:Hb;
    destruct (calm_zip_block _ _ _ _ Hb) as [Hs Hx]; [| |by destruct (Hx c)].
  - cbn [mret M_ret].
    destruct (rmtree_staged _ _ _ (staged_same_dirs _ _ _ _ Hs Hst))
      as (w1 & -> & Hun).
    intros [= <- <-]. split; [by left|done].
  - cbn [sys_exit].
    destruct (rmtree_staged _ _ _ (staged_same_dirs _ _ _ _ Hs Hst))
      as (w1 & -> & Hun).
    intros [= <- <-]. split; [by right|done].
Qed.

(** C2. Once [prepare_file_spec] has made the staging directory, however
    the copying and the archiving end (with success, on a missing
    required file, on an error while copying or while the archive is
    written) the staging directory is gone when [process] is over, and an
    unsuccessful end is [sys.exit(1)]. *)
Theorem C2_staging_directory_removed self w specs w1 o w2 :
  prepare_file_spec self w = (Ok specs, w1) →
  process self w = (o, w2) →
  unstaged self w2 ∧ (o = Ok () ∨ o = Exit 1) ∧ (o ≠ Ok () → exit_status o ≠ 0%Z).
Proof.
  intros Hprep. unfold process. rewrite (bind_ok _ _ _ _ _ Hprep).
  destruct (prepare_file_spec_staged _ _ _ _ Hprep) as [T Hst].
  unfold mbind, M_bind.
  destruct (copy_files self specs w1) as [o1 w1'] eqn:Hc.
  destruct (copy_files_outcome _ _ _ _ _ _ Hst Hc) as [[-> Hun]|[-> Hst']].
  - intros [= <- <-]. split; [done|]. split; [by right|done].
  - intros Hz. destruct (zip_files_outcome _ _ _ _ _ Hst' Hz) as [[-> | ->] Hun];
      (split; [done|]); (split; [auto|done]).
Qed.

(** ** Paths and names *)

Lemma wf_WF f : FS.wf f = true → WF f.
Proof.
  unfold FS.wf. rewrite forallb_forall. intros H k x Hk.
  specialize (H (k, x)). cbn in H. unfold FS.wf_entry in H.
  assert (Hin : In (k, x) (map_to_list f)).
  { apply list_elem_of_In, elem_of_map_to_list, Hk. }
  specialize (H Hin). destruct (last k) as [n|]; [|done].
  apply andb_true_iff in H as [? ?]. by exists n.
Qed.

Lemma no_sep_app a b :
  Path.no_sep (a +:+ b) = Path.no_sep a && Path.no_sep b.
Proof.
  induction a as [|c a IH]; [done|].
  change (Path.no_sep (String c (a +:+ b))
          = Path.no_sep (String c a) && Path.no_sep b).
  cbn [Path.no_sep]. by rewrite IH, andb_assoc.
Qed.

Lemma split_slash_no_sep s : ∀ cur,
  Path.no_sep cur = true →
  Forall (λ x, Path.no_sep x = true) (Path.split_slash cur s).
Proof.
  induction s as [|c s IH]; intros cur Hcur; cbn [Path.split_slash].
  - by constructor.
  - destruct (Ascii.eqb c "/") eqn:Hc.
    + constructor; [done|]. by apply IH.
    + apply IH. rewrite no_sep_app, Hcur. cbn. by rewrite Hc.
Qed.

(** A string without a separator is a single piece. *)
Lemma split_slash_plain s : ∀ cur,
  Path.no_sep s = true → Path.split_slash cur s = [cur +:+ s].
Proof.
  induction s as [|c s IH]; intros cur Hs; cbn [Path.split_slash].
  - by rewrite append_nil_r.
  - cbn [Path.no_sep] in Hs. apply andb_true_iff in Hs as [Hc Hs].
    apply negb_true_iff in Hc. rewrite Hc, IH by done.
    by rewrite append_assoc.
Qed.

Lemma of_str_ok s : path_ok (Path.of_str s).
Proof.
  unfold path_ok, Path.of_str. cbn [Path.parts].
  apply Forall_forall. intros x [Hk Hx]%list_elem_of_filter.
  pose proof (split_slash_no_sep s "" eq_refl) as Hall.
  rewrite Forall_forall in Hall. specialize (Hall x Hx).
  unfold part_ok, FS.valid_name. unfold Path.kept in Hk.
  apply Is_true_true, andb_true_iff in Hk as [-> ->]. rewrite Hall.
  cbn. by destruct (String.eqb x "..").
Qed.

Lemma of_str_plain s :
  FS.valid_name s = true → Path.of_str s = Path.mk false [s].
Proof.
  unfold FS.valid_name. intros H.
  apply andb_true_iff in H as [H Hsep]. apply andb_true_iff in H as [H _].
  apply andb_true_iff in H as [He Hd].
  unfold Path.of_str. rewrite split_slash_plain by done.
  change ("" +:+ s) with s. f_equal.
  - destruct s as [|c s]; [done|]. cbn [Path.no_sep] in Hsep.
    apply andb_true_iff in Hsep as [Hc _]. apply negb_true_iff in Hc.
    change (PyStr.startswith "/" (String c s))
      with (if Ascii.eqb "/"%char c then true else false).
    by rewrite Ascii.eqb_sym, Hc.
  - cbn. rewrite decide_True; [done|]. unfold Path.kept.
    by rewrite He, Hd.
Qed.

Lemma div_ok p q : path_ok p → path_ok q → path_ok (Path.div p q).
Proof.
  unfold path_ok, Path.div. intros Hp Hq.
  destruct (Path.absolute q); [done|]. cbn. by apply Forall_app.
Qed.

Lemma div_str_ok p s : path_ok p → path_ok (Path.div_str p s).
Proof. intros Hp. apply div_ok; [done|apply of_str_ok]. Qed.

Lemma removelast_snoc {A} (l : list A) x : removelast (l ++ [x]) = l.
Proof. by rewrite removelast_app, app_nil_r. Qed.

Lemma Forall_removelast {A} (P : A → Prop) (l : list A) :
  Forall P l → Forall P (removelast l).
Proof.
  induction l as [|x l IH] using rev_ind; [done|].
  rewrite removelast_snoc. by intros [? _]%Forall_app.
Qed.

(** Resolution leads to a location whose names are all valid. *)
Lemma resolve_from_valid f comps : ∀ stk d,
  Forall (λ c, FS.valid_name c = true) stk →
  Forall (λ c, part_ok c = true) comps →
  FS.resolve_from f stk comps = Found d →
  Forall (λ c, FS.valid_name c = true) d.
Proof.
  induction comps as [|c comps IH]; intros stk d Hstk Hcomps.
  { by intros [= <-]. }
  apply Forall_cons in Hcomps as [Hc Hcomps]. cbn [FS.resolve_from].
  destruct (FS.is_dir f stk); [|by destruct (FS.present f stk)].
  destruct (String.eqb c "..") eqn:Hup.
  - apply IH; [by apply Forall_removelast|done].
  - apply IH; [|done]. apply Forall_app. split; [done|].
    constructor; [|done]. unfold part_ok in Hc. by rewrite Hup, orb_false_r in Hc.
Qed.

(** Without [..] the location is the path itself. *)
Lemma resolve_from_plain f comps : ∀ stk d,
  Forall (λ c, FS.valid_name c = true) comps →
  FS.resolve_from f stk comps = Found d → d = stk ++ comps.
Proof.
  induction comps as [|c comps IH]; intros stk d Hcomps.
  { intros [= <-]. by rewrite app_nil_r. }
  apply Forall_cons in Hcomps as [Hc Hcomps]. cbn [FS.resolve_from].
  destruct (FS.is_dir f stk); [|by destruct (FS.present f stk)].
  assert (String.eqb c ".." = false) as ->.
  { unfold FS.valid_name in Hc. destruct (String.eqb c ".."); [|done].
    by rewrite andb_false_r in Hc. }
  intros H%IH; [|done]. by rewrite <- app_assoc in H.
Qed.

(** ** Well-formed trees *)

Lemma last_snoc_valid (d : list string) :
  d ≠ [] → Forall (λ c, FS.valid_name c = true) d →
  ∃ n, last d = Some n ∧ FS.valid_name n = true.
Proof.
  destruct d as [|x d] using rev_ind; [done|]. intros _ [_ Hx]%Forall_app.
  apply Forall_cons in Hx as [Hx _]. exists x. by rewrite last_snoc.
Qed.

Lemma WF_insert_dir f d :
  WF f → FS.is_dir f (removelast d) = true →
  (∃ n, last d = Some n ∧ FS.valid_name n = true) →
  WF (<[d := Dir]> f).
Proof.
  intros Hwf Hp Hn k x. destruct (decide (d = k)) as [->|Hne].
  - intros _. destruct Hn as (n & ? & ?). exists n.
    repeat split; [done..|]. by apply is_dir_insert_dir.
  - rewrite lookup_insert_ne by done. intros (n & ? & ? & ?)%Hwf.
    exists n. repeat split; [done..|]. by apply is_dir_insert_dir.
Qed.

Lemma WF_insert_file f d data :
  WF f → FS.is_dir f d = false → FS.is_dir f (removelast d) = true →
  (∃ n, last d = Some n ∧ FS.valid_name n = true) →
  WF (<[d := File data]> f).
Proof.
  intros Hwf Hd Hp Hn k x. destruct (decide (d = k)) as [->|Hne].
  - intros _. destruct Hn as (n & ? & ?). exists n.
    repeat split; [done..|]. by rewrite is_dir_insert_file.
  - rewrite lookup_insert_ne by done. intros (n & ? & ? & ?)%Hwf.
    exists n. repeat split; [done..|]. by rewrite is_dir_insert_file.
Qed.

Lemma prefix_of_removelast (d k : list string) :
  d `prefix_of` removelast k → d `prefix_of` k.
Proof.
  destruct k as [|x k] using rev_ind; [done|]. rewrite removelast_snoc.
  intros H. by apply prefix_app_r.
Qed.

Lemma WF_remove_tree f d : WF f → WF (FS.remove_tree d f).
Proof.
  intros Hwf k x. rewrite lookup_remove_tree. case_decide as Hp; [done|].
  intros (n & ? & ? & Hdir)%Hwf. exists n. repeat split; [done..|].
  destruct (removelast k) as [|y p] eqn:Hk; [done|]. unfold FS.is_dir in *.
  rewrite lookup_remove_tree. rewrite decide_False; [done|].
  intros Hpre. apply Hp, prefix_of_removelast. by rewrite Hk.
Qed.

(** In a well-formed tree the ancestors of a directory are directories,
    and its names are valid. *)
Lemma WF_is_dir_prefix f (k : list string) : ∀ p,
  WF f → FS.is_dir f k = true → p `prefix_of` k → FS.is_dir f p = true.
Proof.
  induction k as [|n k IH] using rev_ind; intros p Hwf Hk Hp.
  { by apply prefix_nil_inv in Hp as ->. }
  destruct (decide (p = k ++ [n])) as [->|Hne]; [done|].
  apply IH; [done| |].
  - assert (Hlk : ∃ x, f !! (k ++ [n]) = Some x).
    { unfold FS.is_dir in Hk. destruct (k ++ [n]) eqn:E; [by destruct k|].
      destruct (f !! (s :: l)); [by eexists|done]. }
    destruct Hlk as [x (m & _ & _ & Hd)%Hwf]. by rewrite removelast_snoc in Hd.
  - destruct Hp as [rest Hrest].
    destruct rest as [|y rest] using rev_ind.
    + rewrite app_nil_r in Hrest. congruence.
    + rewrite app_assoc in Hrest. apply app_inj_tail in Hrest as [-> _].
      by apply prefix_app_r.
Qed.

Lemma WF_is_dir_valid f (k : list string) :
  WF f → FS.is_dir f k = true → Forall (λ c, FS.valid_name c = true) k.
Proof.
  induction k as [|n k IH] using rev_ind; intros Hwf Hk; [done|].
  assert (Hlk : ∃ x, f !! (k ++ [n]) = Some x).
  { unfold FS.is_dir in Hk. destruct (k ++ [n]) eqn:E; [by destruct k|].
    destruct (f !! (s :: l)); [by eexists|done]. }
  destruct Hlk as [x (m & Hl & Hv & Hd)%Hwf].
  rewrite last_snoc in Hl. injection Hl as <-. rewrite removelast_snoc in Hd.
  apply Forall_app. split; [by apply IH|]. by constructor.
Qed.

(** What lies in a well-formed tree lies below directories only. *)
Lemma WF_ancestors f k x p :
  WF f → f !! k = Some x → p `prefix_of` k → p ≠ k → FS.is_dir f p = true.
Proof.
  intros Hwf Hk Hp Hne. destruct (Hwf _ _ Hk) as (n & Hl & _ & Hd).
  eapply WF_is_dir_prefix; [done..|].
  destruct k as [|m k] using rev_ind; [done|]. rewrite removelast_snoc.
  destruct Hp as [rest Hrest]. destruct rest as [|y rest] using rev_ind.
  - rewrite app_nil_r in Hrest. congruence.
  - rewrite app_assoc in Hrest. apply app_inj_tail in Hrest as [-> _].
    by apply prefix_app_r.
Qed.

(** Along directories a path without [..] resolves to itself. *)
Lemma resolve_from_dirs f comps : ∀ stk,
  Forall (λ c, FS.valid_name c = true) comps →
  (∀ p, stk `prefix_of` p → p `prefix_of` stk ++ comps → p ≠ stk ++ comps →
        FS.is_dir f p = true) →
  FS.resolve_from f stk comps = Found (stk ++ comps).
Proof.
  induction comps as [|c comps IH]; intros stk Hv Hd.
  { by rewrite app_nil_r. }
  apply Forall_cons in Hv as [Hc Hv]. cbn [FS.resolve_from].
  rewrite Hd; [|done|by apply prefix_app_r|].
  2:{ intros E. apply (f_equal length) in E. rewrite length_app in E.
      simpl in E. lia. }
  assert (String.eqb c ".." = false) as ->.
  { unfold FS.valid_name in Hc. destruct (String.eqb c ".."); [|done].
    by rewrite andb_false_r in Hc. }
  rewrite (cons_middle c stk comps), app_assoc. apply IH; [done|].
  intros p Hp1 Hp2 Hne. apply Hd; [|by rewrite (cons_middle c), app_assoc..].
  etrans; [|exact Hp1]. by apply prefix_app_r.
Qed.

Lemma resolve_from_app f a : ∀ stk b,
  FS.resolve_from f stk (a ++ b) =
  match FS.resolve_from f stk a with
  | Found d => FS.resolve_from f d b
  | r => r
  end.
Proof.
  induction a as [|c a IH]; intros stk b; [done|].
  cbn [app FS.resolve_from]. destruct (FS.is_dir f stk).
  - destruct (String.eqb c ".."); apply IH.
  - by destruct (FS.present f stk).
Qed.

(** An absolute path through the working directory is resolved from
    there. *)
Lemma resolve_cwd f rel :
  WF f → FS.is_dir f cwd = true →
  resolve f (Path.mk true (cwd ++ rel)) = FS.resolve_from f cwd rel.
Proof.
  intros Hwf Hcwd. unfold resolve. cbn [Path.absolute Path.parts].
  rewrite resolve_from_app.
  rewrite (resolve_from_dirs f cwd []); [done|by eapply WF_is_dir_valid|].
  intros p _ Hp _. by eapply WF_is_dir_prefix.
Qed.

(** ** Reading the project file leaves the tree alone *)

Lemma quiet_ret {A} (a : A) : quiet (mret a).
Proof. by intros w o w' [= <- <-]. Qed.

Lemma quiet_bind {A B} (m : M A) (k : A → M B) :
  quiet m → (∀ a, quiet (k a)) → quiet (m ≫= k).
Proof.
  intros Hm Hk w o w'. unfold mbind, M_bind.
  destruct (m w) as [[a|e|c] w1] eqn:Hmw; pose proof (Hm _ _ _ Hmw) as E.
  - intros Hka. rewrite (Hk a _ _ _ Hka). done.
  - by intros [= <- <-].
  - by intros [= <- <-].
Qed.

Lemma quiet_try_except {A} (m : M A) h :
  quiet m → (∀ e, quiet (h e)) → quiet (try_except m h).
Proof.
  intros Hm Hh w o w'. unfold try_except.
  destruct (m w) as [[a|e|c] w1] eqn:Hmw; pose proof (Hm _ _ _ Hmw) as E.
  - by intros [= <- <-].
  - intros Hhe. by rewrite (Hh e _ _ _ Hhe).
  - by intros [= <- <-].
Qed.

Lemma quiet_io_check : quiet io_check.
Proof.
  intros w o w'. unfold io_check.
  destruct (io_faults w) as [|[] rest]; by intros [= <- <-].
Qed.

Lemma quiet_read_file p : quiet (read_file p).
Proof.
  apply quiet_bind; [apply quiet_io_check|]. intros _ w o w'.
  destruct (resolve (fs w) p) as [d| |]; [|by intros [= <- <-]..].
  destruct (fs w !! d) as [[]|]; by intros [= <- <-].
Qed.

Lemma quiet_ET_parse p : quiet (ET_parse p).
Proof.
  apply quiet_bind; [apply quiet_read_file|]. intros source.
  destruct (xml_of_string source); by intros w o w' [= <- <-].
Qed.

Lemma quiet_load_csproj p self : quiet (load_csproj p self).
Proof.
  unfold load_csproj. destruct (csproj_root self); [apply quiet_ret|].
  apply quiet_try_except.
  - apply quiet_bind; [apply quiet_ET_parse|]. intros a. apply quiet_ret.
  - by intros e w o w' [= <- <-].
Qed.

Lemma quiet_retreive xml_path self : quiet (retreive_csproj_element xml_path self).
Proof.
  apply quiet_bind; [apply quiet_load_csproj|]. intros [root g].
  destruct (ElementPath.find xml_path root) as [e|]; [|by intros w o w' [= <- <-]].
  destruct (text_of e) as [[|c t]|]; by intros w o w' [= <- <-].
Qed.

Lemma load_csproj_ok p self w root self' w' :
  load_csproj p self w = (Ok (root, self'), w') →
  self' = {| csproj_root := Some root |}.
Proof.
  unfold load_csproj. destruct self as [[r|]]; cbn [csproj_root].
  - by intros [= <- <- <-].
  - unfold try_except, mbind, M_bind.
    destruct (ET_parse p w) as [[r|e|c] w1]; [|done..].
    by intros [= <- <- <-].
Qed.

(** A lookup that returns has found a non-empty text, and the getter it
    returns has the root cached. *)
Lemma retreive_csproj_element_ok xml_path self w t self' w' :
  retreive_csproj_element xml_path self w = (Ok (t, self'), w') →
  ∃ root, self' = {| csproj_root := Some root |}
          ∧ field xml_path root = Some t ∧ fs w' = fs w.
Proof.
  intros H. pose proof (quiet_retreive _ _ _ _ _ H) as Hfs.
  unfold retreive_csproj_element in H.
  apply bind_inv_ok in H as ([root g] & w1 & Hload & H).
  apply load_csproj_ok in Hload as ->. exists root. unfold field.
  destruct (ElementPath.find xml_path root) as [e|]; [|done].
  destruct (text_of e) as [[|c s]|]; [done| |done].
  by injection H as <- <- <-.
Qed.

Lemma retreive_csproj_element_again xml_path root w t self' w' :
  retreive_csproj_element xml_path {| csproj_root := Some root |} w
  = (Ok (t, self'), w') →
  field xml_path root = Some t ∧ self' = {| csproj_root := Some root |} ∧ w' = w.
Proof.
  rewrite (retreive_csproj_element_loaded _ _ _ _ _ _ (load_csproj_cached _ _ _)).
  destruct (field xml_path root); [|done]. by intros [= <- <- <-].
Qed.

(** The packager is determined by the three fields and the clock. *)
Lemma FilePackager_init_inv w self w1 :
  FilePackager_init w = (Ok self, w1) →
  ∃ asm prod ver, self = packager_of asm prod ver (clock w1) ∧ fs w1 = fs w.
Proof.
  unfold FilePackager_init. intros H.
  apply bind_inv_ok in H as ([dn g1] & wa & Hdn & H).
  unfold get_dll_name in Hdn.
  apply bind_inv_ok in Hdn as ([asm g] & wa' & Hasm & [= <- <- <-]).
  apply retreive_csproj_element_ok in Hasm as (root & -> & Hfa & Hfs).
  apply bind_inv_ok in H as ([dp g2] & wb & Hdp & H).
  unfold get_dll_path, get_dll_name in Hdp.
  apply bind_inv_ok in Hdp as ([dn' g'] & wb' & Hdn' & [= <- <- <-]).
  apply bind_inv_ok in Hdn' as ([asm' g''] & wb'' & Hasm' & [= <- <- <-]).
  apply retreive_csproj_element_again in Hasm' as (Hfa' & -> & ->).
  assert (asm' = asm) as -> by congruence.
  apply bind_inv_ok in H as (t & wc & [= <- <-] & H).
  apply bind_inv_ok in H as ([prod g3] & wd & Hprod & H).
  apply retreive_csproj_element_again in Hprod as (Hfp & -> & ->).
  apply bind_inv_ok in H as ([ver g4] & we & Hver & H).
  apply retreive_csproj_element_again in Hver as (Hfv & -> & ->).
  injection H as <- <-. by exists asm, prod, ver.
Qed.

(** ** The names of the staging directory *)

Lemma digit_no_sep n : Ascii.eqb (digit n) "/"%char = false.
Proof.
  unfold digit. pose proof (Nat.mod_upper_bound n 10 ltac:(lia)) as Hlt.
  destruct (n mod 10) as [|[|[|[|[|[|[|[|[|[|m]]]]]]]]]]; try reflexivity. lia.
Qed.

Lemma pad2_no_sep n s : Path.no_sep (pad2 n +:+ s) = Path.no_sep s.
Proof.
  change (pad2 n +:+ s) with (String (digit (n / 10)) (String (digit n) s)).
  cbn [Path.no_sep]. by rewrite !digit_no_sep.
Qed.

Lemma staging_name_valid t : FS.valid_name (staging_name t) = true.
Proof.
  unfold FS.valid_name, staging_name.
  change (Path.no_sep ("temp_package_" +:+ strftime_YmdHMS t))
    with (Path.no_sep (strftime_YmdHMS t)).
  unfold strftime_YmdHMS, pad4.
  change (String ?a (String ?b (pad2 ?n)) +:+ ?s)
    with (String a (String b (pad2 n +:+ s))).
  cbn [Path.no_sep]. rewrite !digit_no_sep, !pad2_no_sep.
  rewrite <- (append_nil_r (pad2 (second t))), pad2_no_sep. reflexivity.
Qed.

Lemma staging_path t :
  Path.div_str (Path.div_str PROJECT_ROOT "dist") (staging_name t)
  = Path.mk true (staging_at t).
Proof.
  unfold staging_at, Path.div_str.
  rewrite (of_str_plain (staging_name t)) by apply staging_name_valid.
  unfold Path.div, PROJECT_ROOT. cbn. by rewrite <- app_assoc.
Qed.

Lemma temp_dir_parts asm prod ver t :
  temp_dir (packager_of asm prod ver t) = Path.mk true (staging_at t).
Proof. apply staging_path. Qed.

Lemma dist_dir_parts asm prod ver t :
  dist_dir (packager_of asm prod ver t) = Path.mk true dist_at.
Proof. reflexivity. Qed.

(** ** What [prepare_file_spec] leaves behind *)

Lemma valid_name_not_up n : FS.valid_name n = true → String.eqb n ".." = false.
Proof.
  unfold FS.valid_name. destruct (String.eqb n ".."); [|done].
  by rewrite andb_false_r.
Qed.

Lemma resolve_dist f :
  WF f → FS.is_dir f cwd = true → resolve f (Path.mk true dist_at) = Found dist_at.
Proof.
  intros Hwf Hcwd. unfold dist_at. rewrite resolve_cwd by done.
  cbn [FS.resolve_from]. by rewrite Hcwd.
Qed.

Lemma resolve_staging f t :
  WF f → FS.is_dir f cwd = true →
  resolve f (Path.mk true (staging_at t)) =
  if FS.is_dir f dist_at then Found (staging_at t)
  else if FS.present f dist_at then NotDir else NoEnt.
Proof.
  intros Hwf Hcwd. unfold staging_at. rewrite resolve_cwd by done.
  cbn [FS.resolve_from]. rewrite Hcwd. cbn [String.eqb Ascii.eqb].
  change (cwd ++ ["dist"]) with dist_at.
  rewrite (valid_name_not_up _ (staging_name_valid t)).
  unfold dist_at. by rewrite <- app_assoc.
Qed.

Lemma os_mkdir_outcome p w o w' :
  os_mkdir p w = (o, w') →
  match o with
  | Ok _ => True
  | Raise e =>
      fs w' = fs w
      ∧ match resolve (fs w) p with
        | Found d => e = OSError ∨ (e = FileExistsError ∧ FS.present (fs w) d = true)
                     ∨ (e = FileNotFoundError ∧ FS.is_dir (fs w) (removelast d) = false)
        | NotDir => e = OSError ∨ e = NotADirectoryError
        | NoEnt => e = OSError ∨ e = FileNotFoundError
        end
  | Exit _ => False
  end.
Proof.
  unfold os_mkdir, mbind, M_bind.
  destruct (io_check w) as [[u|e|c] w0] eqn:Hio.
  - apply quiet_io_check in Hio as Hfs. rewrite Hfs.
    destruct (resolve (fs w) p) as [d| |].
    + destruct (FS.present (fs w) d) eqn:Hp; [intros [= <- <-]; auto|].
      destruct (FS.is_dir (fs w) (removelast d)) eqn:Hd; intros [= <- <-]; auto.
    + intros [= <- <-]. auto.
    + intros [= <- <-]. auto.
  - intros [= <- <-]. apply quiet_io_check in Hio as Hfs. split; [done|].
    unfold io_check in Hio.
    destruct (io_faults w) as [|[] rest]; [done| |done].
    injection Hio as <- _. destruct (resolve (fs w) p); auto.
  - unfold io_check in Hio. by destruct (io_faults w) as [|[] rest].
Qed.

(** With [exist_ok] off, a directory that is made comes from [os.mkdir]
    itself or from the retry after the parents were made. *)
Lemma mkdir_direct fuel parents p w w' d :
  resolve (fs w) p = Found d →
  FS.is_dir (fs w) (removelast d) = true →
  mkdir fuel parents false p w = (Ok (), w') →
  FS.present (fs w) d = false ∧ fs w' = <[d := Dir]> (fs w).
Proof.
  intros Hr Hd H.
  assert (Hm : os_mkdir p w = (Ok (), w')).
  { destruct fuel; cbn [mkdir] in H; unfold try_except in H;
      destruct (os_mkdir p w) as [[[]|e|c] w0] eqn:Hm; try done;
      apply os_mkdir_outcome in Hm as [_ Hm]; rewrite Hr in Hm;
      destruct Hm as [->|[[-> _]|[_ ?]]]; try congruence;
      unfold mbind, M_bind, path_is_dir in H; cbn in H; done. }
  apply os_mkdir_ok in Hm as (d' & _ & Hr' & Hp & _ & Hfs).
  assert (d' = d) as -> by congruence. done.
Qed.

Lemma mkdir_not_dir fuel parents p w w' :
  resolve (fs w) p = NotDir → mkdir fuel parents false p w ≠ (Ok (), w').
Proof.
  intros Hr H.
  destruct fuel; cbn [mkdir] in H; unfold try_except in H;
    destruct (os_mkdir p w) as [[[]|e|c] w0] eqn:Hm; try done;
    try (apply os_mkdir_ok in Hm as (d' & _ & Hr' & _); congruence);
    apply os_mkdir_outcome in Hm as [_ Hm]; rewrite Hr in Hm;
    destruct Hm as [->| ->];
    unfold mbind, M_bind, path_is_dir in H; cbn in H; done.
Qed.

Lemma is_dir_lookup f (k : list string) :
  k ≠ [] → FS.is_dir f k = true ↔ f !! k = Some Dir.
Proof.
  intros Hk. destruct k; [done|]. unfold FS.is_dir.
  destruct (f !! (s :: k)) as [[]|]; split; congruence.
Qed.

Lemma dist_at_nonempty : dist_at ≠ [].
Proof. unfold dist_at. by destruct cwd. Qed.

Lemma staging_at_nonempty t : staging_at t ≠ [].
Proof. unfold staging_at. by destruct cwd. Qed.

Lemma removelast_staging_at t : removelast (staging_at t) = dist_at.
Proof.
  unfold staging_at, dist_at.
  change (cwd ++ ["dist"; staging_name t]) with (cwd ++ ["dist"] ++ [staging_name t]).
  by rewrite app_assoc, removelast_snoc.
Qed.

Lemma dist_prefix_staging t : dist_at `prefix_of` staging_at t.
Proof.
  exists [staging_name t]. unfold staging_at, dist_at. by rewrite <- app_assoc.
Qed.

Lemma cwd_not_below_dist : ¬ dist_at `prefix_of` cwd.
Proof.
  intros [rest H]. apply (f_equal length) in H. unfold dist_at in H.
  rewrite !length_app in H. simpl in H. lia.
Qed.

Lemma prepare_file_spec_post asm prod ver t w specs w2 :
  let self := packager_of asm prod ver t in
  WF (fs w) → FS.is_dir (fs w) cwd = true →
  prepare_file_spec self w = (Ok specs, w2) →
  specs = DEFAULT_FILESPEC ++ [dll_spec self]
  ∧ WF (fs w2) ∧ FS.is_dir (fs w2) cwd = true
  ∧ fs w2 !! dist_at = Some Dir
  ∧ fresh_staging (staging_at t) (fs w2)
  ∧ (∀ k, ¬ dist_at `prefix_of` k → fs w2 !! k = fs w !! k).
Proof.
  intros self Hwf Hcwd H. unfold prepare_file_spec in H.
  subst self. rewrite temp_dir_parts, dist_dir_parts in H.
  apply bind_inv_ok in H as (b1 & wa & [= <- <-] & H).
  rewrite resolve_dist in H by done.
  (* the dist directory *)
  apply bind_inv_ok in H as ([] & wb & Hdist & H).
  assert (Hb : WF (fs wb) ∧ FS.is_dir (fs wb) cwd = true
               ∧ FS.present (fs wb) dist_at = true
               ∧ ∀ k, ¬ dist_at `prefix_of` k → fs wb !! k = fs w !! k).
  { destruct (FS.present (fs w) dist_at) eqn:Hp.
    - by injection Hdist as <-.
    - apply mkdir_direct with (d := dist_at) in Hdist as [_ Hfs];
        [|by apply resolve_dist|by unfold dist_at; rewrite removelast_snoc].
      rewrite Hfs. repeat split.
      + apply WF_insert_dir; [done|by unfold dist_at; rewrite removelast_snoc|].
        exists "dist". unfold dist_at. by rewrite last_snoc.
      + by apply is_dir_insert_dir.
      + pose proof dist_at_nonempty. unfold FS.present.
        destruct dist_at; [done|]. by rewrite lookup_insert_eq.
      + intros k Hk. rewrite lookup_insert_ne; [done|]. by intros <-. }
  clear Hdist. destruct Hb as (Hwfb & Hcwdb & Hpb & Hframeb).
  (* a stale staging directory *)
  apply bind_inv_ok in H as (b2 & wb' & [= <- <-] & H).
  rewrite resolve_staging in H by done.
  apply bind_inv_ok in H as ([] & wc & Hrm & H).
  apply bind_inv_ok in H as ([] & wd & Hmk & [= <- <-]).
  destruct (FS.is_dir (fs wb) dist_at) eqn:Hdd.
  2:{ rewrite Hpb in Hrm. injection Hrm as <-.
      exfalso. eapply mkdir_not_dir; [|exact Hmk].
      rewrite resolve_staging by done. by rewrite Hdd, Hpb. }
  assert (Hc : WF (fs wc) ∧ FS.is_dir (fs wc) cwd = true
               ∧ FS.is_dir (fs wc) dist_at = true
               ∧ (∀ k, staging_at t `prefix_of` k → k ≠ staging_at t → fs wc !! k = None)
               ∧ ∀ k, ¬ dist_at `prefix_of` k → fs wc !! k = fs w !! k).
  { destruct (FS.present (fs wb) (staging_at t)) eqn:Hpt.
    - unfold rmtree in Hrm. rewrite resolve_staging, Hdd in Hrm by done.
      destruct (FS.is_dir (fs wb) (staging_at t)) eqn:Hdt; [|by rewrite Hpt in Hrm].
      injection Hrm as <-. cbn [fs with_fs]. repeat split.
      + by apply WF_remove_tree.
      + destruct cwd as [|c0 cw] eqn:Ec; [done|]. rewrite <- Ec in *.
        unfold FS.is_dir. rewrite Ec, <- Ec, lookup_remove_tree.
        rewrite decide_False.
        * unfold FS.is_dir in Hcwdb. by rewrite Ec, <- Ec in Hcwdb.
        * intros Hpre. apply cwd_not_below_dist.
          etrans; [apply dist_prefix_staging|exact Hpre].
      + pose proof dist_at_nonempty.
        apply is_dir_lookup; [done|]. rewrite lookup_remove_tree.
        rewrite decide_False; [by apply is_dir_lookup|].
        intros [rest Hrest]. apply (f_equal length) in Hrest.
        unfold staging_at, dist_at in Hrest. rewrite !length_app in Hrest.
        simpl in Hrest. lia.
      + intros k Hk _. rewrite lookup_remove_tree. by rewrite decide_True.
      + intros k Hk. rewrite lookup_remove_tree, decide_False; [by apply Hframeb|].
        intros Hpre. apply Hk. etrans; [apply dist_prefix_staging|exact Hpre].
    - injection Hrm as <-. repeat split; [done..| |done].
      intros k Hk Hne. destruct (fs wb !! k) as [x|] eqn:Hx; [|done].
      pose proof (WF_ancestors _ _ _ _ Hwfb Hx Hk (not_eq_sym Hne)) as Hd.
      pose proof (staging_at_nonempty t).
      unfold FS.present in Hpt. unfold FS.is_dir in Hd.
      destruct (staging_at t); [done|]. by destruct (fs wb !! (s :: l)). }
  clear Hrm. destruct Hc as (Hwfc & Hcwdc & Hddc & Hbelow & Hframec).
  (* the new staging directory *)
  apply mkdir_direct with (d := staging_at t) in Hmk as [Hpt Hfs];
    [|by rewrite resolve_staging, Hddc|by rewrite removelast_staging_at].
  rewrite Hfs. split; [done|]. repeat split.
  - apply WF_insert_dir; [done|by rewrite removelast_staging_at|].
    exists (staging_name t). split; [|apply staging_name_valid].
    unfold staging_at.
    change (cwd ++ ["dist"; staging_name t])
      with (cwd ++ ["dist"] ++ [staging_name t]).
    by rewrite app_assoc, last_snoc.
  - by apply is_dir_insert_dir.
  - apply is_dir_lookup; [apply dist_at_nonempty|]. by apply is_dir_insert_dir.
  - apply lookup_insert_eq.
  - intros k Hk Hne. rewrite lookup_insert_ne by done. by apply Hbelow.
  - intros k Hk. rewrite lookup_insert_ne; [by apply Hframec|].
    intros <-. apply Hk, dist_prefix_staging.
Qed.

(** ** Filling the staging directory *)

Lemma fresh_staging_flat T f : fresh_staging T f → flat_below T f.
Proof. intros [_ H] k x Hk Hne Hx. rewrite (H k Hk Hne) in Hx. done. Qed.

Lemma prefix_of_strict_removelast (T d : list string) :
  T `prefix_of` d → d ≠ T → T `prefix_of` removelast d.
Proof.
  intros [rest ->] Hne. destruct rest as [|y rest] using rev_ind.
  - by rewrite app_nil_r in Hne.
  - rewrite app_assoc, removelast_snoc. by apply prefix_app_r.
Qed.

Lemma snoc_removelast_last (d : list string) n :
  last d = Some n → d = removelast d ++ [n].
Proof.
  destruct d as [|x d] using rev_ind; [done|].
  rewrite last_snoc, removelast_snoc. by intros [= ->].
Qed.

(** A regular file put at a valid location keeps the invariant. *)
Lemma staging_inv_insert T f d data :
  staging_inv T f →
  FS.is_dir f d = false → FS.is_dir f (removelast d) = true →
  Forall (λ c, FS.valid_name c = true) d →
  staging_inv T (<[d := File data]> f).
Proof.
  intros (Hwf & Hcwd & HT & Hflat) Hd Hp Hv.
  assert (Hne : d ≠ []) by (by intros ->).
  destruct (last_snoc_valid d Hne Hv) as (n & Hl & Hn).
  repeat split.
  - apply WF_insert_file; eauto.
  - by rewrite is_dir_insert_file.
  - rewrite lookup_insert_ne; [done|]. intros ->.
    assert (T ≠ []) by (by intros ->).
    apply is_dir_lookup in HT; [|done]. congruence.
  - intros k x Hk HkT. destruct (decide (d = k)) as [<-|Hdk].
    + rewrite lookup_insert_eq. intros [= <-]. exists n, data. split; [|done].
      destruct (decide (removelast d = T)) as [E|E].
      * rewrite <- E. by apply snoc_removelast_last.
      * exfalso.
        assert (Hrl : removelast d ≠ []).
        { intros E'. rewrite E' in *. apply prefix_of_strict_removelast in Hk; [|done].
          rewrite E' in Hk. apply prefix_nil_inv in Hk. by subst T. }
        apply is_dir_lookup in Hp; [|done].
        destruct (Hflat _ _ (prefix_of_strict_removelast _ _ Hk HkT) E Hp)
          as (? & ? & _ & ?). done.
    + rewrite lookup_insert_ne by done. by apply Hflat.
Qed.

Lemma resolve_valid f p d :
  WF f → FS.is_dir f cwd = true → path_ok p →
  resolve f p = Found d → Forall (λ c, FS.valid_name c = true) d.
Proof.
  intros Hwf Hcwd Hp. unfold resolve. apply resolve_from_valid; [|done].
  destruct (Path.absolute p); [done|]. by eapply WF_is_dir_valid.
Qed.

Lemma put_file_ok d data w w' :
  put_file d data w = (Ok (), w') →
  FS.is_dir (fs w) d = false ∧ FS.is_dir (fs w) (removelast d) = true
  ∧ fs w' = <[d := File data]> (fs w).
Proof.
  unfold put_file. destruct (FS.is_dir (fs w) d); [done|].
  destruct (FS.is_dir (fs w) (removelast d)); [|done]. by intros [= <-].
Qed.

(** What a copy that succeeds has done. *)
Lemma shutil_copy_ok src dst w w' :
  WF (fs w) → FS.is_dir (fs w) cwd = true → path_ok src → path_ok dst →
  shutil_copy src dst w = (Ok (), w') →
  ∃ s d0 d data,
    resolve (fs w) src = Found s ∧ fs w !! s = Some (File data)
    ∧ resolve (fs w) dst = Found d0
    ∧ (FS.is_dir (fs w) d0 = false → d = d0)
    ∧ FS.is_dir (fs w) d = false ∧ FS.is_dir (fs w) (removelast d) = true
    ∧ Forall (λ c, FS.valid_name c = true) d
    ∧ fs w' = <[d := File data]> (fs w).
Proof.
  intros Hwf Hcwd Hsrc Hdst H. unfold shutil_copy in H.
  apply bind_inv_ok in H as (u & w0 & Hio & H).
  apply quiet_io_check in Hio as Hfs. rewrite Hfs in H.
  destruct (resolve (fs w) dst) as [d0| |] eqn:Hd0; [|done..].
  destruct (resolve (fs w) src) as [s| |] eqn:Hs.
  2,3: done.
  destruct (if FS.is_dir (fs w) d0 then _ else _) as [d| |] eqn:Ht; [|done..].
  cbv zeta beta iota in H. case_bool_decide; [done|].
  destruct (fs w !! s) as [[data|]|] eqn:Hdata; [|done..].
  assert (Hput : put_file d data w0 = (Ok (), w')) by exact H.
  apply put_file_ok in Hput as (Hd & Hp & Hfs'). rewrite Hfs in *.
  exists s, d0, d, data. repeat split; try done.
  - intros Hnd. rewrite Hnd in Ht. congruence.
  - destruct (FS.is_dir (fs w) d0).
    + eapply resolve_from_valid; [| |exact Ht].
      * by eapply resolve_valid.
      * apply of_str_ok.
    + injection Ht as <-. by eapply resolve_valid.
Qed.

Lemma PROJECT_ROOT_ok f : WF f → FS.is_dir f cwd = true → path_ok PROJECT_ROOT.
Proof.
  intros Hwf Hcwd. unfold path_ok, PROJECT_ROOT. cbn.
  eapply Forall_impl; [by eapply WF_is_dir_valid|].
  intros c Hc. unfold part_ok. by rewrite Hc.
Qed.

(** Copying keeps the invariant, whatever the sources and names are. *)
Lemma copy_loop_inv self T specs : ∀ w w',
  path_ok (temp_dir self) →
  Forall (λ spec, path_ok (path spec)) specs →
  staging_inv T (fs w) →
  copy_loop self specs w = (Ok (), w') →
  staging_inv T (fs w').
Proof.
  induction specs as [|spec specs IH]; intros w w' Htemp Hspecs Hinv.
  { by intros [= <-]. }
  apply Forall_cons in Hspecs as [Hspec Hspecs].
  cbn [copy_loop]. intros H. apply bind_inv_ok in H as (b & w0 & [= <- <-] & H).
  destruct Hinv as (Hwf & Hcwd & HT & Hflat).
  destruct (match resolve (fs w) _ with Found d => _ | _ => false end).
  - apply bind_inv_ok in H as ([] & w1 & Hcopy & H).
    apply shutil_copy_ok in Hcopy
      as (s & d0 & d & data & _ & _ & _ & _ & Hd & Hp & Hv & Hfs); try done.
    + eapply IH; [done..| |exact H]. rewrite Hfs.
      by apply staging_inv_insert.
    + apply div_ok; [by eapply PROJECT_ROOT_ok|done].
    + by apply div_str_ok.
  - destruct (required spec).
    + apply bind_inv_ok in H as (u & w1 & _ & H). done.
    + by eapply IH.
Qed.

Lemma copy_files_ok self specs w w' :
  copy_files self specs w = (Ok (), w') → copy_loop self specs w = (Ok (), w').
Proof.
  unfold copy_files, try_except.
  destruct (copy_loop self specs w) as [[[]|e|c] w0]; [done| |done].
  unfold mbind, M_bind. by destruct (rmtree _ w0) as [[?|?|?] ?].
Qed.

Lemma packager_paths_ok f asm prod ver t :
  WF f → FS.is_dir f cwd = true →
  let self := packager_of asm prod ver t in
  path_ok (temp_dir self) ∧ path_ok (zip_file_name self)
  ∧ Forall (λ spec, path_ok (path spec)) (DEFAULT_FILESPEC ++ [dll_spec self]).
Proof.
  intros Hwf Hcwd self. pose proof (PROJECT_ROOT_ok f Hwf Hcwd) as Hroot.
  repeat split.
  - by repeat apply div_str_ok.
  - by repeat apply div_str_ok.
  - repeat (constructor; [by repeat apply div_str_ok|]).
    constructor; [|done]. cbn [path dll_spec self dll_source_path packager_of].
    apply div_str_ok, div_ok; [done|]. by repeat constructor.
Qed.

(** ** Archiving *)

Lemma zip_open_ok p w z w' :
  WF (fs w) → FS.is_dir (fs w) cwd = true → path_ok p →
  zip_open p w = (Ok z, w') →
  resolve (fs w) p = Found z
  ∧ FS.is_dir (fs w) z = false ∧ FS.is_dir (fs w) (removelast z) = true
  ∧ Forall (λ c, FS.valid_name c = true) z
  ∧ fs w' = <[z := File (zip_bytes [])]> (fs w).
Proof.
  intros Hwf Hcwd Hp H. unfold zip_open in H.
  apply bind_inv_ok in H as (u & w0 & Hio & H).
  apply quiet_io_check in Hio as Hfs. rewrite Hfs in H.
  destruct (resolve (fs w) p) as [z'| |] eqn:Hr; [|done..].
  destruct (put_file z' (zip_bytes []) w0) as [[[]|e|c] w1] eqn:Hput; [|done..].
  injection H as <- <-. apply put_file_ok in Hput as (Hd & Hpar & Hfs').
  rewrite Hfs in *. repeat split; try done. by eapply resolve_valid.
Qed.

Lemma elem_of_files_below f T rel :
  rel ∈ FS.files_below f T →
  ∃ k data, f !! k = Some (File data) ∧ T `prefix_of` k ∧ k ≠ T
            ∧ rel = drop (length T) k.
Proof.
  unfold FS.files_below. intros ([k x] & Hin & Hg)%list_elem_of_omap.
  apply elem_of_map_to_list in Hin. cbn [fst snd] in Hg.
  destruct x as [data|]; [|done].
  destruct (bool_decide (T `prefix_of` k)) eqn:Hp; [|done].
  destruct (length T <? length k)%nat eqn:Hl; [|done].
  destruct (forallb (FS.is_dir f) (FS.between T k)); [|done].
  injection Hg as <-. apply bool_decide_eq_true in Hp.
  apply Nat.ltb_lt in Hl. exists k, data.
  split; [done|]. split; [done|]. split; [|done]. intros ->. lia.
Qed.

(** The walk over a staging directory that satisfies the invariant finds
    single valid names. *)
Lemma files_below_flat f T rel :
  staging_inv T f → rel ∈ FS.files_below f T →
  ∃ n, rel = [n] ∧ FS.valid_name n = true.
Proof.
  intros (Hwf & _ & _ & Hflat) (k & data & Hk & Hp & Hne & ->)%elem_of_files_below.
  destruct (Hflat _ _ Hp Hne Hk) as (n & ? & -> & _). exists n.
  rewrite drop_app_length. split; [done|].
  destruct (Hwf _ _ Hk) as (m & Hl & Hv & _). rewrite last_snoc in Hl.
  by injection Hl as ->.
Qed.

Lemma zip_write_all_names z top files : ∀ acc w es w',
  zip_write_all z top files acc w = (Ok es, w') →
  map fst es = map fst acc ++ map (PyStr.join "/") files.
Proof.
  induction files as [|rel files IH]; intros acc w es w'.
  { intros [= <- <-]. by rewrite app_nil_r. }
  cbn [zip_write_all]. intros H.
  apply bind_inv_ok in H as (data & w0 & _ & H0). cbv zeta in H0.
  apply bind_inv_ok in H0 as (u & w1 & _ & H1).
  apply IH in H1 as ->. rewrite map_app. cbn [map fst]. by rewrite <- app_assoc.

Qed.

(** The archive on disk follows the entries written so far. *)
Lemma zip_write_all_stored z top files : ∀ acc w es w',
  fs w !! z = Some (File (zip_bytes acc)) →
  zip_write_all z top files acc w = (Ok es, w') →
  fs w' !! z = Some (File (zip_bytes es)).
Proof.
  induction files as [|rel files IH]; intros acc w es w' Hz.
  { by intros [= <- <-]. }
  cbn [zip_write_all]. intros H.
  apply bind_inv_ok in H as (data & w0 & _ & H0). cbv zeta in H0.
  apply bind_inv_ok in H0 as (u & w1 & Hst & H1).
  unfold zip_store in Hst. injection Hst as Hw1. subst w1.
  eapply IH; [|exact H1]. cbn [fs with_fs]. apply lookup_insert_eq.
Qed.

Lemma valid_name_no_sep n : FS.valid_name n = true → Path.no_sep n = true.
Proof. unfold FS.valid_name. by intros [_ ?]%andb_true_iff. Qed.

(** C9. The entries of the archive that a packager writes are flat: every
    one is named by a single file name without a path separator, whatever
    the names in the project file are. [es] is the list of the entries of
    the archive when it is closed, and the archive file holds them. *)
Theorem C9_archive_entries_flat w self w1 specs w2 w3 es w4 :
  FS.wf (fs w) = true →
  FS.is_dir (fs w) cwd = true →
  FilePackager_init w = (Ok self, w1) →
  prepare_file_spec self w1 = (Ok specs, w2) →
  copy_files self specs w2 = (Ok (), w3) →
  zip_block self w3 = (Ok es, w4) →
  Forall (λ e, Path.no_sep e.1 = true) es
  ∧ ∃ z, resolve (fs w3) (zip_file_name self) = Found z
         ∧ fs w4 !! z = Some (File (zip_bytes es)).
Proof.
  intros Hwf%wf_WF Hcwd Hinit Hprep Hcopy Hzip.
  apply FilePackager_init_inv in Hinit as (asm & prod & ver & -> & Hfs1).
  rewrite <- Hfs1 in Hwf, Hcwd. set (t := clock w1) in *.
  destruct (packager_paths_ok _ asm prod ver t Hwf Hcwd) as (Htemp & Hzipp & Hspecs).
  destruct (prepare_file_spec_post _ _ _ _ _ _ _ Hwf Hcwd Hprep)
    as (-> & Hwf2 & Hcwd2 & _ & Hfresh & _).
  assert (Hinv2 : staging_inv (staging_at t) (fs w2)).
  { repeat split; [done..|apply Hfresh|by apply fresh_staging_flat]. }
  apply copy_files_ok in Hcopy.
  pose proof (copy_loop_inv _ _ _ _ _ Htemp Hspecs Hinv2 Hcopy) as Hinv3.
  unfold zip_block in Hzip.
  apply bind_inv_ok in Hzip as (z & wa & Hopen & Hzip).
  destruct Hinv3 as (Hwf3 & Hcwd3 & HT3 & Hflat3).
  apply zip_open_ok in Hopen as (Hrz & Hdz & Hpz & Hvz & Hfsa); [|done..].
  assert (Hinva : staging_inv (staging_at t) (fs wa)).
  { rewrite Hfsa. by apply staging_inv_insert. }
  apply bind_inv_ok in Hzip as (files & wb & [= <- <-] & Hzip).
  apply bind_inv_ok in Hzip as (es' & wc & Hwrite & Hzip).
  apply bind_inv_ok in Hzip as (u & wd & Hio & [= <- <-]).
  apply quiet_io_check in Hio as Hfsd. split.
  - apply zip_write_all_names in Hwrite as Hnames. cbn [map app] in Hnames.
    apply Forall_forall. intros e He.
    assert (Hin : e.1 ∈ map fst es') by (by apply list_elem_of_fmap_2).
    rewrite Hnames in Hin. apply list_elem_of_fmap in Hin as (rel & -> & Hrel).
    fold (staging_name t) in Hrel. rewrite staging_path in Hrel.
    assert (Hres : resolve (fs wa) (Path.mk true (staging_at t))
                   = Found (staging_at t)).
    { rewrite resolve_staging by apply Hinva.
      destruct Hinva as (Hwfa & _ & HTa & _).
      pose proof (staging_at_nonempty t).
      apply is_dir_lookup in HTa; [|done].
      pose proof (WF_is_dir_prefix _ _ _ Hwfa HTa (dist_prefix_staging t)) as ->.
      done. }
    rewrite Hres in Hrel.
    destruct Hinva as (Hwfa & Hcwda & HTa & Hflata).
    assert (HdT : FS.is_dir (fs wa) (staging_at t) = true).
    { apply is_dir_lookup; [apply staging_at_nonempty|done]. }
    rewrite HdT in Hrel.
    destruct (files_below_flat _ _ _ (conj Hwfa (conj Hcwda (conj HTa Hflata))) Hrel)
      as (n & -> & Hn).
    by apply valid_name_no_sep.
  - exists z. split; [done|]. rewrite Hfsd.
    eapply zip_write_all_stored; [|exact Hwrite].
    rewrite Hfsa. apply lookup_insert_eq.
Qed.

(** ** Staging the planned files *)

Lemma present_lookup f (k : list string) :
  k ≠ [] → FS.present f k = true ↔ is_Some (f !! k).
Proof.
  intros Hk. destruct k; [done|]. unfold FS.present.
  destruct (f !! (s :: k)); split; (done || by intros [? ?] || eauto).
Qed.

(** In a well-formed tree a path through the working directory exists
    exactly when its location is in the tree. *)
Lemma resolve_present f rel :
  WF f → FS.is_dir f cwd = true → rel ≠ [] →
  Forall (λ c, FS.valid_name c = true) rel →
  is_Some (f !! (cwd ++ rel)) →
  resolve f (Path.mk true (cwd ++ rel)) = Found (cwd ++ rel).
Proof.
  intros Hwf Hcwd Hne Hv [x Hx]. rewrite resolve_cwd by done.
  apply resolve_from_dirs; [done|]. intros p _ Hp Hpne.
  by eapply WF_ancestors.
Qed.

Lemma resolve_found_plain f rel d :
  WF f → FS.is_dir f cwd = true →
  Forall (λ c, FS.valid_name c = true) rel →
  resolve f (Path.mk true (cwd ++ rel)) = Found d → d = cwd ++ rel.
Proof.
  intros Hwf Hcwd Hv. rewrite resolve_cwd by done. by apply resolve_from_plain.
Qed.

Lemma path_exists_cwd f rel :
  WF f → FS.is_dir f cwd = true → rel ≠ [] →
  Forall (λ c, FS.valid_name c = true) rel →
  match resolve f (Path.mk true (cwd ++ rel)) with
  | Found d => FS.present f d
  | _ => false
  end = FS.present f (cwd ++ rel).
Proof.
  intros Hwf Hcwd Hne Hv.
  assert (Hk : cwd ++ rel ≠ []) by (by destruct cwd, rel).
  destruct (FS.present f (cwd ++ rel)) eqn:Hp.
  - apply present_lookup in Hp; [|done].
    rewrite resolve_present by done. by apply present_lookup.
  - destruct (resolve _ _) as [d| |] eqn:Hr; [|done..].
    apply resolve_found_plain in Hr as ->; done.
Qed.

Lemma cwd_app_cons_ne (rel : list string) : cwd ++ rel = [] → rel = [].
Proof. by intros [_ ?]%app_eq_nil. Qed.

Lemma stage_ext f f' S p :
  f' !! src_at p = f !! src_at p → stage f' S p = stage f S p.
Proof. unfold stage. by intros ->. Qed.

Lemma fold_stage_ext f f' ps : ∀ S,
  Forall (λ p, f' !! src_at p = f !! src_at p) ps →
  fold_left (stage f') ps S = fold_left (stage f) ps S.
Proof.
  induction ps as [|p ps IH]; intros S Hall; [done|].
  apply Forall_cons in Hall as [Hp Hall]. cbn [fold_left].
  rewrite (stage_ext _ _ _ _ Hp). by apply IH.
Qed.

Lemma holds_insert T f S n data :
  holds T f S → holds T (<[T ++ [n] := File data]> f) (<[n := data]> S).
Proof.
  intros H m. destruct (decide (n = m)) as [->|Hne].
  - by rewrite !lookup_insert_eq.
  - rewrite !lookup_insert_ne; [apply H|done|]. by intros [= ?]%app_inv_head.
Qed.

Lemma staging_file_not_dir T f n :
  flat_below T f → FS.is_dir f (T ++ [n]) = false.
Proof.
  intros Hflat. destruct (FS.is_dir f (T ++ [n])) eqn:Hd; [|done].
  apply is_dir_lookup in Hd; [|by destruct T].
  destruct (Hflat (T ++ [n]) Dir) as (? & ? & _ & ?); [by apply prefix_app_r| |done..].
  intros E. apply (f_equal length) in E. rewrite length_app in E. simpl in E. lia.
Qed.

Lemma div_str_plain T n :
  FS.valid_name n = true →
  Path.div_str (Path.mk true T) n = Path.mk true (T ++ [n]).
Proof. intros Hn. unfold Path.div_str. by rewrite of_str_plain. Qed.

Lemma not_below_dist_not_below_staging t k :
  ¬ dist_at `prefix_of` k → ¬ staging_at t `prefix_of` k.
Proof. intros Hk Hp. apply Hk. etrans; [apply dist_prefix_staging|done]. Qed.

(** The copy loop on planned files: what ends up in the staging
    directory is what the plans stage, nothing else in the tree changes,
    and the sources were ready. *)
Lemma copy_loop_staged t self specs ps :
  temp_dir self = Path.mk true (staging_at t) →
  Forall2 spec_plan specs ps →
  ∀ w w' S,
  staging_inv (staging_at t) (fs w) →
  holds (staging_at t) (fs w) S →
  copy_loop self specs w = (Ok (), w') →
  staging_inv (staging_at t) (fs w')
  ∧ holds (staging_at t) (fs w') (fold_left (stage (fs w)) ps S)
  ∧ (∀ k, ¬ staging_at t `prefix_of` k → fs w' !! k = fs w !! k)
  ∧ sources_ready (fs w) ps.
Proof.
  intros Htemp Hplans. induction Hplans as [|spec p specs ps Hsp Hplans IH];
    intros w w' S Hinv Hholds H.
  { injection H as <-. split; [done|]. split; [done|]. split; [done|].
    by apply Forall_nil. }
  destruct Hsp
    as (Hpath & Hreq & Hdest & Hvalid & (rel & Hsrc & Hrelne & Hrel) & Hout).
  cbn [copy_loop] in H. rewrite Hpath in H.
  change (Path.div PROJECT_ROOT (Path.mk true (src_at p)))
    with (Path.mk true (src_at p)) in H.
  rewrite Hdest, Htemp, div_str_plain in H by done.
  apply bind_inv_ok in H as (b & w0 & [= <- <-] & H).
  destruct Hinv as (Hwf & Hcwd & HT & Hflat).
  assert (Hsrcne : src_at p ≠ []) by (rewrite Hsrc; by destruct cwd, rel).
  rewrite Hsrc, path_exists_cwd, <- Hsrc in H by done.
  destruct (FS.present (fs w) (src_at p)) eqn:Hp.
  - apply bind_inv_ok in H as ([] & w1 & Hcopy & H).
    apply shutil_copy_ok in Hcopy
      as (s & d0 & d & data & Hs & Hdata & Hd0 & Hdd & _ & _ & _ & Hfs); try done.
    2:{ rewrite Hsrc. unfold path_ok. cbn. apply Forall_app. split.
        - eapply Forall_impl; [by eapply WF_is_dir_valid|].
          intros c Hc. unfold part_ok. by rewrite Hc.
        - eapply Forall_impl; [exact Hrel|].
          intros c Hc. unfold part_ok. by rewrite Hc. }
    2:{ unfold path_ok. cbn. apply Forall_app. split.
        - assert (Hd : FS.is_dir (fs w) (staging_at t) = true).
          { apply is_dir_lookup; [apply staging_at_nonempty|done]. }
          eapply Forall_impl; [by eapply WF_is_dir_valid|].
          intros c Hc. unfold part_ok. by rewrite Hc.
        - constructor; [|done]. unfold part_ok. by rewrite Hvalid. }
    assert (s = src_at p) as ->.
    { rewrite Hsrc in Hs |- *. by eapply resolve_found_plain. }
    assert (d0 = staging_at t ++ [dest p]) as ->.
    { unfold staging_at in Hd0 |- *. rewrite <- app_assoc in Hd0 |- *.
      eapply resolve_found_plain; [done..| |exact Hd0].
      repeat constructor; [apply staging_name_valid|done]. }
    rewrite (Hdd (staging_file_not_dir _ _ _ Hflat)) in Hfs.
    assert (Hframe1 : ∀ k, ¬ staging_at t `prefix_of` k → fs w1 !! k = fs w !! k).
    { intros k Hk. rewrite Hfs, lookup_insert_ne; [done|].
      intros <-. apply Hk. by apply prefix_app_r. }
    assert (Hlater : Forall (λ q, fs w1 !! src_at q = fs w !! src_at q) ps).
    { apply Forall_forall. intros q Hq. apply Hframe1.
      apply not_below_dist_not_below_staging.
      apply (list_elem_of_lookup_1 ps) in Hq as [i Hi].
      destruct (Forall2_lookup_r _ _ _ _ _ Hplans Hi) as (sq & _ & Hsq).
      apply Hsq. }
    destruct (IH w1 w' (<[dest p := data]> S)) as (Hinv' & Hholds' & Hframe' & Hready').
    + rewrite Hfs. apply staging_inv_insert; [done| | |].
      * by apply staging_file_not_dir.
      * rewrite removelast_snoc. apply is_dir_lookup; [apply staging_at_nonempty|done].
      * apply Forall_app. split; [|by repeat constructor].
        eapply WF_is_dir_valid; [done|].
        apply is_dir_lookup; [apply staging_at_nonempty|done].
    + rewrite Hfs. by apply holds_insert.
    + exact H.
    + split; [done|]. split; [|split].
      * cbn [fold_left]. unfold stage at 2. rewrite Hdata.
        by rewrite <- (fold_stage_ext _ _ _ _ Hlater).
      * intros k Hk. rewrite Hframe' by done. by apply Hframe1.
      * constructor; [left; by exists data|].
        eapply Forall_impl; [apply Forall_and; split; [exact Hready'|exact Hlater]|].
        intros q [Hq1 Hq2]. cbn in Hq1, Hq2. by rewrite Hq2 in Hq1.
  - assert (Hnone : fs w !! src_at p = None).
    { destruct (fs w !! src_at p) eqn:E; [|done].
      assert (FS.present (fs w) (src_at p) = true)
        by (apply present_lookup; [done|]; by rewrite E).
      congruence. }
    rewrite Hreq in H. destruct (must p) eqn:Hmust.
    + apply bind_inv_ok in H as (u & w1 & _ & H). done.
    + destruct (IH w w' S) as (Hinv' & Hholds' & Hframe' & Hready'); [done..|].
      split; [done|]. split; [|split; [done|]].
      * cbn [fold_left]. unfold stage at 2. by rewrite Hnone.
      * constructor; [by right|done].
Qed.

(** ** The plans of the packager *)

Lemma last_char_app a c b : last_char (a +:+ String c b) = last_char (String c b).
Proof.
  induction a as [|x a IH]; [done|].
  change (last_char (String x (a +:+ String c b)) = last_char (String c b)).
  destruct a as [|y a]; exact IH.
Qed.

Lemma dll_name_valid asm :
  Path.no_sep asm = true → FS.valid_name (asm +:+ ".dll") = true.
Proof.
  intros Hsep. unfold FS.valid_name. rewrite no_sep_app, Hsep.
  assert (Hl : last_char (asm +:+ ".dll") = Some "l"%char) by apply last_char_app.
  destruct (String.eqb_spec (asm +:+ ".dll") "") as [E|_]; [by rewrite E in Hl|].
  destruct (String.eqb_spec (asm +:+ ".dll") ".") as [E|_]; [by rewrite E in Hl|].
  destruct (String.eqb_spec (asm +:+ ".dll") "..") as [E|_]; [by rewrite E in Hl|].
  done.
Qed.

Lemma dll_name_fresh asm name :
  last_char name ≠ Some "l"%char → asm +:+ ".dll" ≠ name.
Proof. intros Hl E. apply Hl. rewrite <- E. apply last_char_app. Qed.

Lemma not_below_dist n (rest : list string) :
  n ≠ "dist" → ¬ dist_at `prefix_of` cwd ++ n :: rest.
Proof.
  intros Hn [k Hk]. unfold dist_at in Hk. rewrite <- app_assoc in Hk.
  apply app_inv_head in Hk. by injection Hk.
Qed.

Lemma specs_follow_plans asm prod ver t :
  Path.no_sep asm = true →
  Forall2 spec_plan
    (DEFAULT_FILESPEC ++ [dll_spec (packager_of asm prod ver t)]) (plans asm).
Proof.
  intros Hsep. pose proof (dll_name_valid asm Hsep) as Hdll.
  unfold DEFAULT_FILESPEC, plans. cbn [app].
  repeat (apply List.Forall2_cons); [..|apply List.Forall2_nil].
  - repeat split; try done.
    + cbn. unfold Path.name. cbn. by rewrite last_snoc.
    + exists ["manifest.json"]. by repeat constructor.
    + by apply not_below_dist.
  - repeat split; try done.
    + cbn. by rewrite <- app_assoc.
    + exists ["img"; "icon.png"]. by repeat constructor.
    + by apply not_below_dist.
  - repeat split; try done.
    + cbn. unfold Path.name. cbn. by rewrite last_snoc.
    + exists ["README.md"]. by repeat constructor.
    + by apply not_below_dist.
  - repeat split; try done.
    + cbn. unfold Path.name. cbn. by rewrite last_snoc.
    + exists ["CHANGELOG.md"]. by repeat constructor.
    + by apply not_below_dist.
  - repeat split; try done.
    + cbn [path dll_spec dll_source_path packager_of src_at].
      unfold Path.div_str. rewrite of_str_plain by done.
      cbn. by rewrite <- app_assoc.
    + cbn [dll_spec rename_to dll_name packager_of dest destination_name].
      destruct asm; reflexivity.
    + exists ["bin"; "Debug"; "net472"; asm +:+ ".dll"]. by repeat constructor.
    + by apply not_below_dist.
Qed.

Lemma plans_dest_NoDup asm : NoDup (map dest (plans asm)).
Proof.
  cbn [map plans dest].
  assert (Hf : ∀ name, last_char name ≠ Some "l"%char → name ≠ asm +:+ ".dll").
  { intros name Hl E. by apply (dll_name_fresh asm name). }
  repeat (apply NoDup_cons; split;
          [rewrite ?not_elem_of_cons; repeat split;
           try discriminate; try (by apply Hf); try apply not_elem_of_nil|]).
  apply NoDup_nil_2.
Qed.

(** The staged map lists as the entries of the plans. *)
Lemma fold_stage_entries f ps : ∀ S,
  NoDup (map dest ps) →
  Forall (λ p, S !! dest p = None) ps →
  map_to_list (fold_left (stage f) ps S) ≡ₚ expected_entries f ps ++ map_to_list S.
Proof.
  induction ps as [|p ps IH]; intros S Hnd Hfree; [done|].
  apply NoDup_cons in Hnd as [Hp Hnd]. apply Forall_cons in Hfree as [Hfp Hfree].
  cbn [fold_left expected_entries flat_map]. unfold stage at 2, source_entry at 1.
  destruct (f !! src_at p) as [[data|]|]; [|by apply IH..].
  rewrite IH; [|done|].
  - rewrite map_to_list_insert by done. fold (expected_entries f ps).
    cbn [app]. by rewrite Permutation_middle.
  - apply Forall_forall. intros q Hq. rewrite lookup_insert_ne.
    + rewrite Forall_forall in Hfree. by apply Hfree.
    + intros E. apply Hp. rewrite E. by apply list_elem_of_fmap_2.
Qed.

(** ** The archive of the planned files *)

Lemma zip_name_valid prod ver :
  Path.no_sep prod = true → Path.no_sep ver = true →
  FS.valid_name (zip_name prod ver) = true.
Proof.
  intros Hp Hv. unfold FS.valid_name, zip_name.
  rewrite !no_sep_app, Hp, Hv.
  assert (Hl : last_char (prod +:+ "-" +:+ ver +:+ ".zip") = Some "p"%char).
  { rewrite <- !append_assoc. apply last_char_app. }
  destruct (String.eqb_spec (prod +:+ "-" +:+ ver +:+ ".zip") "") as [E|_];
    [by rewrite E in Hl|].
  destruct (String.eqb_spec (prod +:+ "-" +:+ ver +:+ ".zip") ".") as [E|_];
    [by rewrite E in Hl|].
  destruct (String.eqb_spec (prod +:+ "-" +:+ ver +:+ ".zip") "..") as [E|_];
    [by rewrite E in Hl|].
  done.
Qed.

Lemma digit_not_p n : digit n ≠ "p"%char.
Proof.
  unfold digit. pose proof (Nat.mod_upper_bound n 10 ltac:(lia)) as Hlt.
  destruct (n mod 10) as [|[|[|[|[|[|[|[|[|[|m]]]]]]]]]]; try discriminate. lia.
Qed.

Lemma zip_name_not_staging prod ver t : zip_name prod ver ≠ staging_name t.
Proof.
  intros E. apply (f_equal last_char) in E. unfold zip_name, staging_name in E.
  unfold strftime_YmdHMS in E. rewrite <- !append_assoc in E.
  unfold pad2 at 5 in E. rewrite !last_char_app in E. cbn in E.
  injection E as E. by apply (digit_not_p (second t)).
Qed.

Lemma zip_at_not_staged prod ver t n :
  zip_at prod ver ≠ staging_at t ++ [n].
Proof.
  intros E. apply (f_equal length) in E. unfold zip_at, staging_at, dist_at in E.
  rewrite !length_app in E. simpl in E. lia.
Qed.

Lemma zip_at_not_below_staging prod ver t :
  ¬ staging_at t `prefix_of` zip_at prod ver.
Proof.
  intros [k Hk]. unfold zip_at, staging_at, dist_at in Hk.
  rewrite <- !app_assoc in Hk. apply app_inv_head in Hk. cbn in Hk.
  injection Hk as Hn _. by apply (zip_name_not_staging prod ver t).
Qed.

Lemma zip_path prod ver :
  Path.no_sep prod = true → Path.no_sep ver = true →
  Path.div_str (Path.div_str PROJECT_ROOT "dist") (prod +:+ "-" +:+ ver +:+ ".zip")
  = Path.mk true (cwd ++ ["dist"; zip_name prod ver]).
Proof.
  intros Hp Hv. unfold Path.div_str at 1. fold (zip_name prod ver).
  rewrite of_str_plain by by apply zip_name_valid.
  cbn. by rewrite <- app_assoc.
Qed.

(** The walk lists every regular file that lies directly in the
    directory, once. *)
Lemma files_below_child f T n data :
  f !! (T ++ [n]) = Some (File data) → [n] ∈ FS.files_below f T.
Proof.
  intros Hn. unfold FS.files_below. apply list_elem_of_omap.
  exists (T ++ [n], File data). split; [by apply elem_of_map_to_list|].
  cbn [fst snd]. rewrite bool_decide_eq_true_2 by by apply prefix_app_r.
  assert ((length T <? length (T ++ [n]))%nat = true) as ->.
  { apply Nat.ltb_lt. rewrite length_app. simpl. lia. }
  unfold FS.between. rewrite length_app.
  replace (length T + length [n] - S (length T)) with 0 by (simpl; lia).
  cbn. by rewrite drop_app_length.
Qed.

Lemma NoDup_omap_keys {A B} (g : list string * A → option B)
    (l : list (list string * A)) :
  NoDup (l.*1) →
  (∀ x y b, x ∈ l → y ∈ l → g x = Some b → g y = Some b → x.1 = y.1) →
  NoDup (omap g l).
Proof.
  induction l as [|x l IH]; intros Hnd Hinj; [constructor|].
  cbn [fmap list_fmap] in Hnd. apply NoDup_cons in Hnd as [Hx Hnd].
  cbn [omap list_omap]. destruct (g x) as [b|] eqn:Hg.
  - apply NoDup_cons. split.
    + intros (y & Hy & Hgy)%list_elem_of_omap. apply Hx.
      rewrite (Hinj x y b); [by apply list_elem_of_fmap_2|left|by right|done..].
    + apply IH; [done|]. intros y1 y2 b' H1 H2. apply Hinj; by right.
  - apply IH; [done|]. intros y1 y2 b' H1 H2. apply Hinj; by right.
Qed.

Lemma files_below_NoDup f T : NoDup (FS.files_below f T).
Proof.
  unfold FS.files_below. apply NoDup_omap_keys; [apply NoDup_fst_map_to_list|].
  intros [k1 x1] [k2 x2] rel _ _. cbn [fst snd].
  destruct x1; [|done]. destruct x2; [|done].
  destruct (bool_decide (T `prefix_of` k1)) eqn:H1; [|done].
  destruct (bool_decide (T `prefix_of` k2)) eqn:H2; [|done].
  destruct (length T <? length k1)%nat; [|done].
  destruct (length T <? length k2)%nat; [|done].
  destruct (forallb _ _); [|done]. destruct (forallb _ _); [|done].
  cbn. intros [= <-] [= E].
  apply bool_decide_eq_true in H1 as [r1 ->].
  apply bool_decide_eq_true in H2 as [r2 ->].
  rewrite !drop_app_length in E. by rewrite E.
Qed.

Lemma read_file_ok p w data w' :
  read_file p w = (Ok data, w') →
  ∃ d, resolve (fs w) p = Found d ∧ fs w !! d = Some (File data) ∧ fs w' = fs w.
Proof.
  intros H. pose proof (quiet_read_file _ _ _ _ H) as Hfs.
  unfold read_file in H. apply bind_inv_ok in H as (u & w0 & Hio & H).
  apply quiet_io_check in Hio as Hfs0. rewrite Hfs0 in H.
  destruct (resolve (fs w) p) as [d| |]; [|done..]. exists d.
  destruct (fs w !! d) as [[data'|]|]; [|done..]. by injection H as <- _.
Qed.

(** The entries written for the walked files are the files that the
    staging directory holds. *)
Lemma zip_write_all_entries z T S files : ∀ acc w es w',
  Forall (λ c, FS.valid_name c = true) T →
  (∀ n, z ≠ T ++ [n]) →
  Forall (λ rel, ∃ n, rel = [n] ∧ FS.valid_name n = true) files →
  holds T (fs w) S →
  zip_write_all z (Path.mk true T) files acc w = (Ok es, w') →
  ∃ new, es = acc ++ new
    ∧ Forall2 (λ rel e, rel = [e.1] ∧ S !! e.1 = Some e.2) files new.
Proof.
  induction files as [|rel files IH]; intros acc w es w' HT Hz Hfiles Hholds.
  { intros [= <- <-]. exists []. by rewrite app_nil_r. }
  apply Forall_cons in Hfiles as [(n & -> & Hn) Hfiles].
  cbn [zip_write_all]. intros H.
  apply bind_inv_ok in H as (data & w0 & Hread & H0). cbv zeta in H0.
  apply bind_inv_ok in H0 as (u & w1 & Hst & H1).
  unfold zip_store in Hst. injection Hst as Hw1. subst w1.
  apply read_file_ok in Hread as (d & Hr & Hd & Hfs0).
  cbn [Path.absolute Path.parts] in Hr. unfold resolve in Hr.
  cbn [Path.absolute Path.parts] in Hr.
  apply resolve_from_plain in Hr; [|apply Forall_app; split; [done|by constructor]].
  cbn [app] in Hr. subst d. rewrite Hholds in Hd.
  destruct (S !! n) as [data'|] eqn:HS; [|done]. injection Hd as ->.
  apply IH in H1 as (new & -> & Hnew); [|done..|].
  - exists ((n, data) :: new). split; [by rewrite <- app_assoc|].
    constructor; [|done]. cbn. by rewrite HS.
  - intros m. cbn [fs with_fs]. rewrite lookup_insert_ne by apply Hz.
    rewrite Hfs0. apply Hholds.
Qed.

Lemma zip_files_ok self w w' :
  zip_files self w = (Ok (), w') →
  ∃ es wz, zip_block self w = (Ok es, wz)
           ∧ rmtree (temp_dir self) wz = (Ok (), w').
Proof.
  unfold zip_files, try_finally, try_except, mbind, M_bind.
  destruct (zip_block self w) as [[es|e|c] wz] eqn:Hb.
  - cbn [mret M_ret]. destruct (rmtree _ wz) as [[[]|?|?] w0] eqn:Hrm; [|done..].
    intros [= <-]. by exists es, wz.
  - cbn [sys_exit]. by destruct (rmtree _ wz) as [[[]|?|?] ?].
  - by destruct (rmtree _ wz) as [[[]|?|?] ?].
Qed.

Lemma expected_names_entries f asm :
  sources_ready f (plans asm) →
  map fst (expected_entries f (plans asm)) = expected_names f asm.
Proof.
  unfold sources_ready, plans, expected_entries, expected_names.
  intros H. repeat (apply Forall_cons in H as [? H]).
  cbn [flat_map]. unfold source_entry. cbn [src_at must dest] in *.
  repeat match goal with
         | Hx : (∃ data, f !! _ = Some (File data)) ∨ (true = false ∧ _) |- _ =>
             destruct Hx as [[? ->]|[? _]]; [|done]
         end.
  assert (Hne : cwd ++ ["CHANGELOG.md"] ≠ []) by (by destruct cwd).
  match goal with
  | Hx : (∃ data, f !! _ = Some (File data)) ∨ (false = false ∧ _) |- _ =>
      destruct Hx as [[data Hc]|[_ Hc]]
  end.
  - assert (FS.present f (cwd ++ ["CHANGELOG.md"]) = true) as ->.
    { apply present_lookup; [done|]. by rewrite Hc. }
    by rewrite Hc.
  - assert (FS.present f (cwd ++ ["CHANGELOG.md"]) = false) as ->.
    { destruct (FS.present f (cwd ++ ["CHANGELOG.md"])) eqn:E; [|done].
      apply present_lookup in E as [? E]; [|done]. congruence. }
    by rewrite Hc.
Qed.

Lemma expected_entries_ext (f f' : gmap (list string) node) ps :
  Forall (λ p, f' !! src_at p = f !! src_at p) ps →
  expected_entries f' ps = expected_entries f ps.
Proof.
  induction ps as [|p ps IH]; intros Hall; [done|].
  apply Forall_cons in Hall as [Hp Hall]. cbn [expected_entries flat_map].
  unfold source_entry at 1 3. rewrite Hp. f_equal. by apply IH.
Qed.

Lemma sources_ready_ext (f f' : gmap (list string) node) ps :
  Forall (λ p, f' !! src_at p = f !! src_at p) ps →
  sources_ready f' ps → sources_ready f ps.
Proof.
  unfold sources_ready. intros Hall Hr.
  eapply Forall_impl; [apply Forall_and; split; [exact Hr|exact Hall]|].
  intros p [Hp E]. cbn in Hp, E. by rewrite E in Hp.
Qed.

Lemma plans_outside_dist (asm : string) (f f' : gmap (list string) node) :
  Path.no_sep asm = true →
  (∀ k, ¬ dist_at `prefix_of` k → f' !! k = f !! k) →
  Forall (λ p, f' !! src_at p = f !! src_at p) (plans asm).
Proof.
  intros Hsep Hframe. unfold plans.
  repeat (apply Forall_cons; split; [apply Hframe; by apply not_below_dist|]).
  apply Forall_nil_2.
Qed.

Lemma staging_at_valid f t :
  WF f → FS.is_dir f cwd = true →
  Forall (λ c, FS.valid_name c = true) (staging_at t).
Proof.
  intros Hwf Hcwd. unfold staging_at. apply Forall_app. split.
  - by eapply WF_is_dir_valid.
  - repeat constructor. apply staging_name_valid.
Qed.

Lemma snoc_ne {A} (l : list A) x : l ++ [x] ≠ l.
Proof.
  intros E. apply (f_equal length) in E. rewrite length_app in E.
  cbn [length] in E. lia.
Qed.

Lemma Forall2_walked {A} (R : list string → A → Prop) files (es : list A) :
  Forall2 R files es →
  (∀ e, e ∈ es → ∃ rel, rel ∈ files ∧ R rel e)
  ∧ (∀ rel, rel ∈ files → ∃ e, e ∈ es ∧ R rel e).
Proof.
  induction 1 as [|rel e files es HR _ [IH1 IH2]].
  - split; intros ? H; by apply elem_of_nil in H.
  - split.
    + intros e' [->|He]%elem_of_cons.
      * exists rel. split; [left|done].
      * destruct (IH1 _ He) as (r & ? & ?). exists r. split; [by right|done].
    + intros r [->|Hr]%elem_of_cons.
      * exists e. split; [left|done].
      * destruct (IH2 _ Hr) as (e' & ? & ?). exists e'. split; [by right|done].
Qed.

Lemma walked_names (S : gmap string string) files (es : list (string * string)) :
  Forall2 (λ rel e, rel = [e.1] ∧ S !! e.1 = Some e.2) files es →
  files = (λ e, [e.1]) <$> es.
Proof.
  induction 1 as [|rel e files es [-> _] _ IH]; [done|]. cbn. by rewrite IH.
Qed.

(** The staging directory of a packager, once it is made. *)
Lemma staging_inv_staged asm prod ver t w :
  staging_inv (staging_at t) (fs w) →
  staged (packager_of asm prod ver t) (staging_at t) w.
Proof.
  intros (Hwf & Hcwd & HT & _).
  assert (Hd : FS.is_dir (fs w) (staging_at t) = true).
  { apply is_dir_lookup; [apply staging_at_nonempty|done]. }
  split; [apply staging_at_nonempty|]. split; [|done].
  rewrite temp_dir_parts, resolve_staging by done.
  by rewrite (WF_is_dir_prefix _ _ _ Hwf Hd (dist_prefix_staging t)).
Qed.

(** The archive on disk is the archive of the entries written, and
    nothing else in the tree moves. *)
Lemma zip_write_all_fs z top files : ∀ acc w es w',
  fs w !! z = Some (File (zip_bytes acc)) →
  zip_write_all z top files acc w = (Ok es, w') →
  fs w' = <[z := File (zip_bytes es)]> (fs w).
Proof.
  induction files as [|rel files IH]; intros acc w es w' Hz.
  { intros [= <- <-]. by rewrite insert_id. }
  cbn [zip_write_all]. intros H.
  apply bind_inv_ok in H as (data & w0 & Hread & H0). cbv zeta in H0.
  apply bind_inv_ok in H0 as (u & w1 & Hst & H1).
  unfold zip_store in Hst. injection Hst as Hw1. subst w1.
  apply quiet_read_file in Hread.
  apply IH in H1; [|cbn [fs with_fs]; apply lookup_insert_eq].
  cbn [fs with_fs] in H1. by rewrite H1, insert_insert_eq, Hread.
Qed.

(** A run of [process] that completes, for fields that are plain names:
    the archive holds the planned entries, the sources were ready, and
    outside dist the tree is as before. *)
Lemma process_archive w asm prod ver t w2 :
  WF (fs w) → FS.is_dir (fs w) cwd = true →
  Path.no_sep asm = true → Path.no_sep prod = true → Path.no_sep ver = true →
  process (packager_of asm prod ver t) w = (Ok (), w2) →
  ∃ es, fs w2 !! zip_at prod ver = Some (File (zip_bytes es))
        ∧ es ≡ₚ expected_entries (fs w) (plans asm)
        ∧ sources_ready (fs w) (plans asm)
        ∧ (∀ k, ¬ dist_at `prefix_of` k → fs w2 !! k = fs w !! k)
        ∧ WF (fs w2) ∧ FS.is_dir (fs w2) cwd = true
        ∧ fs w2 !! staging_at t = None.
Proof.
  intros Hwf Hcwd Hasm Hprod Hver Hproc.
  set (T := staging_at t).
  unfold process in Hproc.
  apply bind_inv_ok in Hproc as (specs & wp & Hprep & Hproc).
  apply bind_inv_ok in Hproc as ([] & wc & Hcopy & Hzip).
  destruct (prepare_file_spec_post _ _ _ _ _ _ _ Hwf Hcwd Hprep)
    as (-> & Hwfp & Hcwdp & Hdistp & Hfresh & Hframep).
  assert (Hinvp : staging_inv T (fs wp)).
  { repeat split; [done..|apply Hfresh|by apply fresh_staging_flat]. }
  assert (Hholdsp : holds T (fs wp) ∅).
  { intros n. rewrite lookup_empty. cbn. apply Hfresh; [by apply prefix_app_r|].
    apply snoc_ne. }
  apply copy_files_ok in Hcopy.
  destruct (copy_loop_staged t (packager_of asm prod ver t) _ (plans asm) (temp_dir_parts _ _ _ _)
              (specs_follow_plans asm prod ver t Hasm) wp wc ∅ Hinvp Hholdsp Hcopy)
    as (Hinvc & Hholdsc & Hframec & Hready).
  set (S := fold_left (stage (fs wp)) (plans asm) ∅) in *.
  pose proof (plans_outside_dist asm (fs w) (fs wp) Hasm Hframep) as Hsame.
  (* the archive *)
  apply zip_files_ok in Hzip as (es & wz & Hblock & Hrm).
  pose proof (calm_zip_block _ _ _ _ Hblock) as [Hdirs _].
  pose proof (staged_same_dirs _ _ _ _ Hdirs (staging_inv_staged asm prod ver t _ Hinvc))
    as (_ & Hrz & Hdz).
  unfold rmtree in Hrm. rewrite Hrz, Hdz in Hrm. injection Hrm as <-.
  cbn [fs with_fs]. unfold zip_block in Hblock.
  rewrite !temp_dir_parts in Hblock.
  apply bind_inv_ok in Hblock as (z & wa & Hopen & Hblock).
  pose proof Hinvc as (Hwfc & Hcwdc & HTc & Hflatc).
  apply zip_open_ok in Hopen as (Hrzip & Hdzip & Hpzip & Hvzip & Hfsa);
    [|done..|apply (packager_paths_ok _ asm prod ver t Hwfc Hcwdc)].
  assert (z = zip_at prod ver) as ->.
  { cbn [zip_file_name packager_of] in Hrzip.
    rewrite zip_path in Hrzip by done.
    apply resolve_found_plain in Hrzip as ->; [|done..|].
    - unfold zip_at, dist_at. by rewrite <- app_assoc.
    - repeat constructor. by apply zip_name_valid. }
  assert (Hinva : staging_inv T (fs wa)).
  { rewrite Hfsa. by apply staging_inv_insert. }
  assert (Hholdsa : holds T (fs wa) S).
  { intros n. rewrite Hfsa, lookup_insert_ne; [apply Hholdsc|].
    apply zip_at_not_staged. }
  apply bind_inv_ok in Hblock as (files & wb & Hwalk & Hblock).
  unfold walk_files in Hwalk. injection Hwalk as <- <-.
  pose proof (staging_inv_staged asm prod ver t _ Hinva) as (_ & Hra & Hda).
  rewrite temp_dir_parts in Hra. rewrite Hra, Hda in Hblock.
  apply bind_inv_ok in Hblock as (es' & wc' & Hwrite & Hblock).
  apply bind_inv_ok in Hblock as (u & wd & Hio & [= <- <-]).
  apply quiet_io_check in Hio as Hfsd.
  pose proof (zip_write_all_fs _ _ _ _ _ _ _
                ltac:(rewrite Hfsa; apply lookup_insert_eq) Hwrite) as Hfsw.
  rewrite Hfsa, insert_insert_eq in Hfsw.
  apply zip_write_all_entries with (S := S) in Hwrite as (new & Hes & Hnew);
    [|by eapply staging_at_valid|apply zip_at_not_staged| |done].
  2:{ apply Forall_forall. intros rel Hrel. by eapply files_below_flat. }
  cbn [app] in Hes. subst es'.
  assert (Hperm : new ≡ₚ map_to_list S).
  { pose proof (walked_names _ _ _ Hnew) as Hfiles.
    destruct (Forall2_walked _ _ _ Hnew) as [Hin1 Hin2].
    apply NoDup_Permutation.
    - apply (NoDup_fmap_1 (λ e : string * string, [e.1])).
      rewrite <- Hfiles. apply files_below_NoDup.
    - apply NoDup_map_to_list.
    - intros [n data]. rewrite elem_of_map_to_list. split.
      + intros (rel & _ & _ & HS)%Hin1. exact HS.
      + intros HS. pose proof (Hholdsa n) as Hn. rewrite HS in Hn. cbn in Hn.
        apply files_below_child in Hn.
        destruct (Hin2 _ Hn) as ([n' data'] & He & [= <-] & HS').
        change (S !! n = Some data') in HS'. rewrite HS in HS'.
        by injection HS' as <-. }
  assert (Hexp : new ≡ₚ expected_entries (fs w) (plans asm)).
  { rewrite Hperm. unfold S. rewrite fold_stage_entries.
    - rewrite map_to_list_empty, app_nil_r.
      rewrite (expected_entries_ext _ _ _ Hsame). reflexivity.
    - apply plans_dest_NoDup.
    - apply Forall_forall. intros p _. apply lookup_empty. }
  rewrite Hfsd, Hfsw.
  exists new. repeat split.
  - rewrite lookup_remove_tree, decide_False by apply zip_at_not_below_staging.
    apply lookup_insert_eq.
  - done.
  - exact (sources_ready_ext _ _ _ Hsame Hready).
  - intros k Hk. rewrite lookup_remove_tree.
    rewrite decide_False by by apply not_below_dist_not_below_staging.
    rewrite lookup_insert_ne.
    + rewrite Hframec by by apply not_below_dist_not_below_staging.
      by apply Hframep.
    + intros <-. apply Hk. by exists [zip_name prod ver].
  - apply WF_remove_tree. apply WF_insert_file; [done..|].
    exists (zip_name prod ver). split; [apply last_snoc|by apply zip_name_valid].
  - destruct (decide (cwd = [])) as [E|Hne]; [by rewrite E|].
    apply is_dir_lookup in Hcwdc; [|done]. apply is_dir_lookup; [done|].
    rewrite lookup_remove_tree, decide_False.
    + rewrite lookup_insert_ne; [done|]. intros E.
      apply cwd_not_below_dist. rewrite <- E. by exists [zip_name prod ver].
    + intros Hp. apply cwd_not_below_dist. etrans; [apply dist_prefix_staging|done].
  - rewrite lookup_remove_tree. by rewrite decide_True.
Qed.

(** * Further properties of the script *)

(** ** The archive of a run *)

(** X1. The archive of a successful run, for names without a path
    separator: the archive file dist/{product}-{version}.zip holds exactly
    one entry for each planned source that is in the tree, under the
    planned name and with the contents of the source; the names are the
    manifest, icon.png, the readme, the changelog when it is in the tree,
    and the DLL. *)
Theorem archive_has_planned_entries w asm prod ver t w1 w2 :
  FS.wf (fs w) = true → FS.is_dir (fs w) cwd = true →
  Path.no_sep asm = true → Path.no_sep prod = true → Path.no_sep ver = true →
  FilePackager_init w = (Ok (packager_of asm prod ver t), w1) →
  process (packager_of asm prod ver t) w1 = (Ok (), w2) →
  ∃ es, fs w2 !! zip_at prod ver = Some (File (zip_bytes es))
        ∧ es ≡ₚ expected_entries (fs w) (plans asm)
        ∧ map fst es ≡ₚ expected_names (fs w) asm.
Proof.
  intros Hwf%wf_WF Hcwd Hasm Hprod Hver Hinit Hproc.
  apply FilePackager_init_inv in Hinit as (_ & _ & _ & _ & Hfs1).
  rewrite <- Hfs1 in Hwf, Hcwd.
  destruct (process_archive _ _ _ _ _ _ Hwf Hcwd Hasm Hprod Hver Hproc)
    as (es & Hzip & Hes & Hrdy & _).
  rewrite Hfs1 in Hes, Hrdy. exists es. split; [done|]. split; [done|].
  rewrite <- (expected_names_entries _ _ Hrdy). by rewrite Hes.
Qed.

(** ** RepositoryUrlResolver *)

Lemma occurs_nowhere_drop old k : ∀ s,
  occurs_nowhere old s = true → occurs_nowhere old (PyStr.drop k s) = true.
Proof.
  induction k as [|k IH]; intros s; [by destruct s|].
  destruct s as [|c s]; [done|]. cbn [occurs_nowhere PyStr.drop].
  intros [_ H]%andb_true_iff. by apply IH.
Qed.

Lemma drop_drop a b : ∀ s, PyStr.drop a (PyStr.drop b s) = PyStr.drop (b + a) s.
Proof.
  induction b as [|b IH]; intros s; [done|].
  destruct s as [|c s]; [by destruct a|]. cbn [PyStr.drop Nat.add]. apply IH.
Qed.

Lemma startswith_append p x : PyStr.startswith p (p +:+ x) = true.
Proof.
  induction p as [|c p IH]; [done|]. rewrite append_cons.
  cbn [PyStr.startswith]. by rewrite Ascii.eqb_refl.
Qed.

(** X2. When the tool succeeds and its trimmed output does not contain
    the SSH host prefix anywhere after its first character, the URL is
    the one the specification describes: an HTTPS URL as it is, an SSH URL
    with the prefix substituted, and the empty string for anything else. *)
Theorem github_url_follows_spec w out err :
  git_remote w = Completed 0 out err →
  occurs_nowhere ssh_prefix (PyStr.drop 1 (PyStr.strip out)) = true →
  get_github_url w = (Ok (github_url_by_spec (PyStr.strip out)), w).
Proof.
  intros Hrun Hno.
  destruct (PyStr.startswith https_prefix (PyStr.strip out)) eqn:Hh.
  { rewrite (get_github_url_https _ _ _ Hrun Hh).
    unfold github_url_by_spec. by rewrite Hh. }
  destruct (PyStr.startswith ssh_prefix (PyStr.strip out)) eqn:Hs.
  - apply (get_github_url_ssh_once _ _ _ Hrun Hs).
    apply (occurs_nowhere_drop _ 14) in Hno. by rewrite drop_drop in Hno.
  - rewrite (get_github_url_other _ _ _ Hrun Hh Hs).
    unfold github_url_by_spec. by rewrite Hh, Hs.
Qed.

(** X3. Whatever the tool reports, [get_github_url] returns, nothing is
    raised and the process goes on in the same world; the URL is empty or
    starts with the HTTPS prefix of the platform, and it is empty when
    the tool is absent or ends with a status other than zero. *)
Theorem github_url_shape w :
  ∃ url, get_github_url w = (Ok url, w)
    ∧ (url = EmptyString ∨ PyStr.startswith https_prefix url = true)
    ∧ (git_remote w = ToolNotFound → url = EmptyString)
    ∧ (∀ rc out err, git_remote w = Completed rc out err → rc ≠ 0%Z →
         url = EmptyString).
Proof.
  unfold get_github_url.
  destruct (git_remote w) as [|rc out err] eqn:Hrun.
  { exists EmptyString. repeat split; auto. }
  destruct (Z.eqb_spec rc 0) as [->|Hrc].
  2:{ exists EmptyString. repeat split; auto. }
  destruct (PyStr.startswith "https://github.com/" (PyStr.strip out)) eqn:Hh.
  { eexists. split; [done|]. split; [by right|]. split; [done|].
    by intros ? ? ? [= <- _ _]. }
  destruct (PyStr.startswith "git@github.com:" (PyStr.strip out)) eqn:Hs.
  - eexists. split; [done|]. split; [|split; [done|by intros ? ? ? [= <- _ _]]].
    right. unfold PyStr.replace.
    destruct (PyStr.strip out) as [|c s]; [done|].
    cbn [PyStr.replace_from]. rewrite Hs. apply startswith_append.
  - exists EmptyString. repeat split; auto.
Qed.

(** ** File operations and the fault oracle *)

(** The world after one file operation was attempted. *)
Lemma io_check_next w o w0 :
  io_check w = (o, w0) →
  w0 = {| fs := fs w; clock := clock w; git_remote := git_remote w;
          io_faults := tl (io_faults w) |}
  ∧ ∀ c, o ≠ Exit c.
Proof.
  unfold io_check. destruct w as [f t r faults]. cbn.
  destruct faults as [|[] rest]; by intros [= <- <-].
Qed.

Lemma read_file_next p w o w0 :
  read_file p w = (o, w0) →
  w0 = {| fs := fs w; clock := clock w; git_remote := git_remote w;
          io_faults := tl (io_faults w) |}
  ∧ ∀ c, o ≠ Exit c.
Proof.
  unfold read_file, mbind, M_bind.
  destruct (io_check w) as [[u|e|c] w1] eqn:Hio;
    apply io_check_next in Hio as [-> Hx]; [| |by destruct (Hx c)].
  - cbn [fs]. destruct (resolve (fs w) p) as [d| |]; [|by intros [= <- <-]..].
    destruct (fs w !! d) as [[]|]; by intros [= <- <-].
  - by intros [= <- <-].
Qed.

Lemma ET_parse_next p w o w0 :
  ET_parse p w = (o, w0) →
  w0 = {| fs := fs w; clock := clock w; git_remote := git_remote w;
          io_faults := tl (io_faults w) |}
  ∧ ∀ c, o ≠ Exit c.
Proof.
  unfold ET_parse, mbind, M_bind.
  destruct (read_file p w) as [[source|e|c] w1] eqn:Hr;
    apply read_file_next in Hr as [-> Hx]; [| |by destruct (Hx c)].
  - destruct (xml_of_string source); by intros [= <- <-].
  - by intros [= <- <-].
Qed.

(** ** DescriptionExtractor *)

Lemma summary_heading_is_heading line :
  is_summary_heading line = true → is_heading line = true.
Proof.
  unfold is_summary_heading, is_heading, summary_header_pattern.
  destruct line as [|c line]; [done|]. cbn [Re.matches PyStr.startswith].
  unfold Re.lit. by intros [-> _]%andb_true_iff.
Qed.

Lemma summary_loop_section rest : ∀ acc,
  (∀ h, closing_heading rest = Some h → is_summary_heading h = false) →
  summary_loop rest true acc = acc ++ trimmed_nonempty (until_heading rest).
Proof.
  induction rest as [|line rest IH]; intros acc Hclose.
  { simpl. by rewrite app_nil_r. }
  rewrite summary_loop_cons, until_heading_cons.
  unfold closing_heading in Hclose. cbn [List.find] in Hclose.
  destruct (is_heading line) eqn:Hh.
  - rewrite (Hclose line eq_refl). cbn [andb].
    unfold trimmed_nonempty. simpl. by rewrite app_nil_r.
  - destruct (is_summary_heading line) eqn:Hs.
    { apply summary_heading_is_heading in Hs. congruence. }
    cbn [andb]. unfold trimmed_nonempty. cbn [map List.filter].
    destruct (PyStr.strip line) eqn:Hst.
    + cbn [String.eqb negb]. by apply IH.
    + cbn [String.eqb negb]. rewrite IH by assumption.
      unfold trimmed_nonempty. by rewrite <- app_assoc.
Qed.

(** X4. The description follows the specification whenever the heading
    that ends the Summary section is not itself a Summary heading: the
    lines after the first Summary heading up to the next heading,
    trimmed, the blank ones dropped, joined with single spaces; and
    without any Summary heading the description is empty. *)
Theorem description_follows_spec text :
  (∀ rest h, after_summary_heading (PyStr.readlines text) = Some rest →
     closing_heading rest = Some h → is_summary_heading h = false) →
  description_of_text text = description_by_spec text
  ∧ (after_summary_heading (PyStr.readlines text) = None →
     description_of_text text = EmptyString).
Proof.
  intros Hclose. split; [|apply description_no_heading].
  unfold description_of_text, description_by_spec. cbv zeta.
  destruct (after_summary_heading (PyStr.readlines text)) as [rest|] eqn:Hfirst.
  - rewrite (summary_loop_enter _ _ Hfirst).
    rewrite summary_loop_section by eauto. rewrite app_nil_l.
    by destruct (trimmed_nonempty (until_heading rest)).
  - by rewrite summary_loop_outside.
Qed.

Lemma io_check_none w : io_faults w = [] → io_check w = (Ok (), w).
Proof. unfold io_check. by intros ->. Qed.

Lemma readme_path : Path.div_str PROJECT_ROOT "README.md" = Path.mk true readme_at.
Proof. reflexivity. Qed.

Lemma resolve_readme f :
  WF f → FS.is_dir f cwd = true →
  resolve f (Path.mk true readme_at) = Found readme_at.
Proof.
  intros Hwf Hcwd. unfold readme_at. rewrite resolve_cwd by done.
  cbn [FS.resolve_from]. by rewrite Hcwd.
Qed.

Lemma readme_at_nonempty : readme_at ≠ [].
Proof. unfold readme_at. by destruct cwd. Qed.

Lemma quiet_get_description : quiet get_description.
Proof.
  apply quiet_bind; [by intros w o w' [= <- <-]|]. intros [].
  - apply quiet_bind; [apply quiet_read_file|]. intros text. apply quiet_ret.
  - apply quiet_ret.
Qed.

Lemma get_description_no_exit w c w' : get_description w ≠ (Exit c, w').
Proof.
  intros H. unfold get_description in H. cbv zeta in H.
  unfold mbind, M_bind, path_exists in H.
  destruct (match resolve (fs w) _ with Found d => _ | _ => false end); [|done].
  destruct (read_file _ w) as [[text|e|c'] w0] eqn:Hread; [done..|].
  apply read_file_next in Hread as [_ Hx]. by destruct (Hx c').
Qed.

(** X5. What [get_description] does with README.md in the working
    directory: without the file the description is empty and nothing is
    read; a regular file that is read without a fault gives the
    description of its text; a directory of that name is not skipped but
    makes the call raise. In no case does the call end the process or
    change the tree. *)
Theorem get_description_reads_readme w :
  FS.wf (fs w) = true → FS.is_dir (fs w) cwd = true →
  (fs w !! readme_at = None → get_description w = (Ok EmptyString, w))
  ∧ (∀ text, fs w !! readme_at = Some (File text) → io_faults w = [] →
       get_description w = (Ok (description_of_text text), w))
  ∧ (fs w !! readme_at = Some Dir → ∃ e w', get_description w = (Raise e, w'))
  ∧ (∀ o w', get_description w = (o, w') → fs w' = fs w ∧ ∀ c, o ≠ Exit c).
Proof.
  intros Hwf%wf_WF Hcwd.
  assert (Hexists : ∀ x, fs w !! readme_at = x →
            path_exists (Path.div_str PROJECT_ROOT "README.md") w
            = (Ok (bool_decide (is_Some x)), w)).
  { intros x Hx. unfold path_exists. rewrite readme_path. unfold readme_at.
    rewrite path_exists_cwd by (done || by repeat constructor).
    do 2 f_equal. fold readme_at. pose proof readme_at_nonempty as Hne.
    unfold FS.present. destruct readme_at; [done|]. rewrite Hx.
    by destruct x. }
  repeat split.
  - intros Hno. unfold get_description. cbv zeta.
    by rewrite (bind_ok _ _ _ _ _ (Hexists _ Hno)).
  - intros text Hfile Hio. unfold get_description. cbv zeta.
    rewrite (bind_ok _ _ _ _ _ (Hexists _ Hfile)). cbn [bool_decide decide_rel].
    rewrite bool_decide_true by by eexists.
    rewrite (bind_ok _ _ w text w); [done|].
    unfold read_file. rewrite (bind_ok _ _ _ _ _ (io_check_none _ Hio)).
    by rewrite readme_path, resolve_readme, Hfile.
  - intros Hdir. unfold get_description. cbv zeta.
    rewrite (bind_ok _ _ _ _ _ (Hexists _ Hdir)).
    rewrite bool_decide_true by by eexists.
    unfold read_file, mbind, M_bind.
    destruct (io_check w) as [[u|e|c] w0] eqn:Hio.
    + apply quiet_io_check in Hio as Hfs.
      rewrite readme_path, Hfs, resolve_readme, Hdir by done. by eexists _, _.
    + by eexists _, _.
    + unfold io_check in Hio. by destruct (io_faults w) as [|[] ?].
  - by apply quiet_get_description in H.
  - intros c ->. by apply get_description_no_exit in H.
Qed.

(** ** ProjectDescriptor *)

(** The constructor of the packager once the project file is parsed, and
    when it cannot be parsed. *)
Lemma FilePackager_init_loaded w root w1 :
  ET_parse csproj_path w = (Ok root, w1) →
  FilePackager_init w =
  match field xp_AssemblyName root, field xp_Product root, field xp_Version root with
  | Some asm, Some prod, Some ver => (Ok (packager_of asm prod ver (clock w1)), w1)
  | _, _, _ => (Exit 1%Z, w1)
  end.
Proof.
  intros Hp.
  pose proof (retreive_csproj_element_loaded xp_AssemblyName _ _ _ _ _
                (load_csproj_parsed _ _ _ _ Hp)) as Hasm.
  pose proof (λ x, retreive_csproj_element_loaded x _ w1 _ _ _
                (load_csproj_cached csproj_path root w1)) as Hnext.
  destruct (field xp_AssemblyName root) as [asm|] eqn:Ha.
  2:{ unfold FilePackager_init, get_dll_name. cbv zeta.
      rewrite (bind_exit _ _ _ _ _ (bind_exit _ _ _ _ _ Hasm)).
      by destruct (field xp_Product root), (field xp_Version root). }
  destruct (field xp_Product root) as [prod|] eqn:Hpr;
    [destruct (field xp_Version root) as [ver|] eqn:Hv|].
  { by apply (FilePackager_init_fields _ root). }
  all: unfold FilePackager_init, get_dll_path, get_dll_name, get_mod_name,
         get_dll_version; cbv zeta;
       rewrite (bind_ok _ _ w (asm +:+ ".dll", {| csproj_root := Some root |}) w1)
         by (by rewrite (bind_ok _ _ _ _ _ Hasm));
       cbv beta iota;
       rewrite (bind_ok _ _ w1
                  (Path.div_str (Path.div PROJECT_ROOT DLL_SOURCE_FOLDER) (asm +:+ ".dll"),
                   {| csproj_root := Some root |}) w1)
         by (rewrite (bind_ok _ _ w1 (asm +:+ ".dll", {| csproj_root := Some root |}) w1);
             [done|]; pose proof (Hnext xp_AssemblyName) as Hn; rewrite Ha in Hn;
             by rewrite (bind_ok _ _ _ _ _ Hn));
       cbv beta iota;
       rewrite (bind_ok now _ w1 (clock w1) w1) by done.
  - pose proof (Hnext xp_Product) as Hn. rewrite Hpr in Hn.
    rewrite (bind_ok _ _ _ _ _ Hn). cbv beta iota.
    pose proof (Hnext xp_Version) as Hn'. rewrite Hv in Hn'.
    by rewrite (bind_exit _ _ _ _ _ Hn').
  - pose proof (Hnext xp_Product) as Hn. rewrite Hpr in Hn.
    by rewrite (bind_exit _ _ _ _ _ Hn).
Qed.

Lemma FilePackager_init_unloaded w e w1 :
  ET_parse csproj_path w = (Raise e, w1) → FilePackager_init w = (Exit 1%Z, w1).
Proof.
  intros Hp. unfold FilePackager_init, get_dll_name. cbv zeta.
  rewrite (bind_exit _ _ _ 1%Z w1); [done|].
  rewrite (bind_exit _ _ _ 1%Z w1); [done|].
  apply retreive_csproj_element_fails. right. split; [done|]. by exists e.
Qed.


(** ** ManifestBuilder *)

Lemma load_csproj_exit p self w c w' :
  load_csproj p self w = (Exit c, w') → c = 1%Z.
Proof.
  unfold load_csproj. destruct (csproj_root self); [done|].
  unfold try_except, mbind, M_bind.
  destruct (ET_parse p w) as [[root|e|c'] w0] eqn:Hp; [done|by intros [= <- _]|].
  apply ET_parse_next in Hp as [_ Hx]. by destruct (Hx c').
Qed.

Lemma retreive_exit xml_path self w c w' :
  retreive_csproj_element xml_path self w = (Exit c, w') → c = 1%Z.
Proof.
  unfold retreive_csproj_element, mbind, M_bind.
  destruct (load_csproj _ self w) as [[[root g]|e|c'] w0] eqn:Hl.
  - destruct (ElementPath.find xml_path root) as [el|]; [|by intros [= <- _]].
    destruct (text_of el) as [[|a t]|]; by intros [= <- _].
  - done.
  - intros [= <- _]. by apply load_csproj_exit in Hl.
Qed.

Lemma quiet_get_github_url : quiet get_github_url.
Proof.
  intros w o w' H. destruct (get_github_url_returns w) as [url Hu].
  rewrite Hu in H. by injection H as _ <-.
Qed.

Lemma quiet_manifest_dict : quiet manifest_dict.
Proof.
  unfold manifest_dict. cbv zeta.
  apply quiet_bind; [apply quiet_retreive|]. intros [mod_name g].
  apply quiet_bind; [apply quiet_get_description|]. intros description.
  apply quiet_bind; [apply quiet_retreive|]. intros [version g'].
  apply quiet_bind; [apply quiet_get_github_url|]. intros url. apply quiet_ret.
Qed.

Lemma manifest_dict_exit w c w' : manifest_dict w = (Exit c, w') → c = 1%Z.
Proof.
  unfold manifest_dict, get_mod_name, get_dll_version. cbv zeta.
  unfold mbind at 1, M_bind at 1.
  destruct (retreive_csproj_element xp_Product _ w) as [[[name g]|e|c'] w0] eqn:H1;
    [|done|intros [= <- _]; by apply retreive_exit in H1].
  unfold mbind at 1, M_bind at 1.
  destruct (get_description w0) as [[desc|e|c'] w1] eqn:H2;
    [|done|by apply get_description_no_exit in H2].
  unfold mbind at 1, M_bind at 1.
  destruct (retreive_csproj_element xp_Version g w1) as [[[ver g']|e|c'] w2] eqn:H3;
    [|done|intros [= <- _]; by apply retreive_exit in H3].
  unfold mbind at 1, M_bind at 1.
  destruct (get_github_url_returns w2) as [url ->]. done.
Qed.

(** Writing a file under a plain name changes at most that file of the
    working directory. *)
Lemma write_file_outcome name data w o w1 :
  String.eqb name ".." = false →
  write_file (Path.mk false [name]) data w = (o, w1) →
  (∀ c, o ≠ Exit c)
  ∧ (fs w1 = fs w ∨ (o = Ok () ∧ fs w1 = <[cwd ++ [name] := File data]> (fs w))).
Proof.
  intros Hname. unfold write_file, mbind, M_bind.
  destruct (io_check w) as [[u|e|c] w0] eqn:Hio;
    pose proof (io_check_next _ _ _ Hio) as [Hw0 Hx]; [| |by destruct (Hx c)].
  2:{ intros [= <- <-]. split; [done|]. left. by rewrite Hw0. }
  assert (Hfs : fs w0 = fs w) by by rewrite Hw0.
  unfold resolve. cbn [Path.absolute Path.parts FS.resolve_from].
  rewrite Hname, Hfs.
  destruct (FS.is_dir (fs w) cwd).
  - unfold put_file. rewrite Hfs.
    destruct (FS.is_dir (fs w) (cwd ++ [name])); [intros [= <- <-]; auto|].
    destruct (FS.is_dir (fs w) (removelast (cwd ++ [name]))); intros [= <- <-]; auto.
  - destruct (FS.present (fs w) cwd); intros [= <- <-]; auto.
Qed.

(** X7. [build_manifest] writes manifest.json in the working directory and
    touches nothing else, whatever its outcome; when it ends the process,
    the status is 1 and the tree is as before: the fields were missing
    before anything was written. *)
Theorem build_manifest_writes_manifest_only w o w' :
  build_manifest w = (o, w') →
  (∀ k, k ≠ manifest_at → fs w' !! k = fs w !! k)
  ∧ (∀ c, o = Exit c → c = 1%Z ∧ fs w' = fs w).
Proof.
  unfold build_manifest, mbind, M_bind.
  destruct (manifest_dict w) as [[d|e|c] w0] eqn:Hd;
    pose proof (quiet_manifest_dict _ _ _ Hd) as Hfs.
  - rewrite manifest_path_parts. intros Hw.
    apply write_file_outcome in Hw as [Hx [Hsame|[-> Hnew]]]; [| |done].
    + split; [intros k _; by rewrite Hsame, Hfs|]. intros c ->. by destruct (Hx c).
    + split; [|done]. intros k Hk. rewrite Hnew, lookup_insert_ne, Hfs; [done|].
      by intros <-.
  - intros [= <- <-]. split; [intros k _; by rewrite Hfs|done].
  - intros [= <- <-]. split; [intros k _; by rewrite Hfs|].
    intros c' [= <-]. split; [|done]. by apply manifest_dict_exit in Hd.
Qed.

(** ** PackageAssembler: the staging directory *)

(** Preparing changes the tree at dist and at the staging directory only. *)
Lemma prepare_file_spec_frame asm prod ver t w specs w2 :
  WF (fs w) → FS.is_dir (fs w) cwd = true →
  prepare_file_spec (packager_of asm prod ver t) w = (Ok specs, w2) →
  ∀ k, k ≠ dist_at → ¬ staging_at t `prefix_of` k → fs w2 !! k = fs w !! k.
Proof.
  intros Hwf Hcwd H. unfold prepare_file_spec in H.
  rewrite temp_dir_parts, dist_dir_parts in H.
  apply bind_inv_ok in H as (b1 & wa & [= <- <-] & H).
  rewrite resolve_dist in H by done.
  apply bind_inv_ok in H as ([] & wb & Hdist & H).
  assert (Hb : WF (fs wb) ∧ FS.is_dir (fs wb) cwd = true
               ∧ FS.present (fs wb) dist_at = true
               ∧ ∀ k, k ≠ dist_at → fs wb !! k = fs w !! k).
  { destruct (FS.present (fs w) dist_at) eqn:Hp.
    - by injection Hdist as <-.
    - apply mkdir_direct with (d := dist_at) in Hdist as [_ Hfs];
        [|by apply resolve_dist|by unfold dist_at; rewrite removelast_snoc].
      rewrite Hfs. repeat split.
      + apply WF_insert_dir; [done|by unfold dist_at; rewrite removelast_snoc|].
        exists "dist". unfold dist_at. by rewrite last_snoc.
      + by apply is_dir_insert_dir.
      + pose proof dist_at_nonempty. unfold FS.present.
        destruct dist_at; [done|]. by rewrite lookup_insert_eq.
      + intros k Hk. by rewrite lookup_insert_ne. }
  clear Hdist. destruct Hb as (Hwfb & Hcwdb & Hpb & Hframeb).
  apply bind_inv_ok in H as (b2 & wb' & [= <- <-] & H).
  rewrite resolve_staging in H by done.
  apply bind_inv_ok in H as ([] & wc & Hrm & H).
  apply bind_inv_ok in H as ([] & wd & Hmk & [= <- <-]).
  destruct (FS.is_dir (fs wb) dist_at) eqn:Hdd.
  2:{ rewrite Hpb in Hrm. injection Hrm as <-.
      exfalso. eapply mkdir_not_dir; [|exact Hmk].
      rewrite resolve_staging by done. by rewrite Hdd, Hpb. }
  assert (Hc : WF (fs wc) ∧ FS.is_dir (fs wc) cwd = true
               ∧ FS.is_dir (fs wc) dist_at = true
               ∧ ∀ k, ¬ staging_at t `prefix_of` k → fs wc !! k = fs wb !! k).
  { destruct (FS.present (fs wb) (staging_at t)) eqn:Hpt.
    - unfold rmtree in Hrm. rewrite resolve_staging, Hdd in Hrm by done.
      destruct (FS.is_dir (fs wb) (staging_at t)) eqn:Hdt; [|by rewrite Hpt in Hrm].
      injection Hrm as <-. cbn [fs with_fs]. repeat split.
      + by apply WF_remove_tree.
      + destruct (decide (cwd = [])) as [E|Hne]; [by rewrite E|].
        apply is_dir_lookup; [done|]. rewrite lookup_remove_tree, decide_False.
        * by apply is_dir_lookup.
        * intros Hpre. apply cwd_not_below_dist.
          etrans; [apply dist_prefix_staging|exact Hpre].
      + pose proof dist_at_nonempty.
        apply is_dir_lookup; [done|]. rewrite lookup_remove_tree.
        rewrite decide_False; [by apply is_dir_lookup|].
        intros [rest Hrest]. apply (f_equal length) in Hrest.
        unfold staging_at, dist_at in Hrest. rewrite !length_app in Hrest.
        simpl in Hrest. lia.
      + intros k Hk. by rewrite lookup_remove_tree, decide_False.
    - by injection Hrm as <-. }
  clear Hrm. destruct Hc as (Hwfc & Hcwdc & Hddc & Hframec).
  apply mkdir_direct with (d := staging_at t) in Hmk as [Hpt Hfs];
    [|by rewrite resolve_staging, Hddc|by rewrite removelast_staging_at].
  intros k Hk1 Hk2. rewrite Hfs, lookup_insert_ne, Hframec by (done || by intros <-).
  by apply Hframeb.
Qed.

(** X8. What [prepare_file_spec] leaves behind when it returns: the file
    list is the default list followed by the entry of the DLL, dist is a
    directory, the staging directory of this run is a directory with
    nothing in it (a stale one of the same name is gone), and nothing else
    in the tree has changed, inside dist or outside. *)
Theorem prepare_makes_fresh_staging w asm prod ver t specs w2 :
  FS.wf (fs w) = true → FS.is_dir (fs w) cwd = true →
  prepare_file_spec (packager_of asm prod ver t) w = (Ok specs, w2) →
  specs = DEFAULT_FILESPEC ++ [dll_spec (packager_of asm prod ver t)]
  ∧ fs w2 !! dist_at = Some Dir
  ∧ fresh_staging (staging_at t) (fs w2)
  ∧ (∀ k, k ≠ dist_at → ¬ staging_at t `prefix_of` k → fs w2 !! k = fs w !! k).
Proof.
  intros Hwf%wf_WF Hcwd H.
  destruct (prepare_file_spec_post _ _ _ _ _ _ _ Hwf Hcwd H)
    as (Hspecs & _ & _ & Hdist & Hfresh & _).
  repeat split; try done; try apply Hfresh.
  by eapply prepare_file_spec_frame.
Qed.

(** ** The whole run *)

Lemma csproj_name_valid n :
  Path.no_sep n = true → FS.valid_name (n +:+ ".csproj") = true.
Proof.
  intros Hsep. unfold FS.valid_name. rewrite no_sep_app, Hsep.
  assert (Hl : last_char (n +:+ ".csproj") = Some "j"%char) by apply last_char_app.
  destruct (String.eqb_spec (n +:+ ".csproj") "") as [E|_]; [by rewrite E in Hl|].
  destruct (String.eqb_spec (n +:+ ".csproj") ".") as [E|_]; [by rewrite E in Hl|].
  destruct (String.eqb_spec (n +:+ ".csproj") "..") as [E|_]; [by rewrite E in Hl|].
  done.
Qed.

Lemma PROJECT_NAME_no_sep f :
  WF f → FS.is_dir f cwd = true → Path.no_sep PROJECT_NAME = true.
Proof.
  intros Hwf Hcwd. unfold PROJECT_NAME, Path.name, PROJECT_ROOT. cbn [Path.parts].
  pose proof (WF_is_dir_valid _ _ Hwf Hcwd) as Hv.
  destruct (last cwd) as [n|] eqn:Hl; [|done]. cbn.
  apply last_Some in Hl as [l' Hl]. rewrite Hl in Hv.
  apply Forall_app in Hv as [_ Hv]. apply Forall_cons in Hv as [Hn _].
  by apply valid_name_no_sep.
Qed.

Lemma csproj_path_parts f :
  WF f → FS.is_dir f cwd = true → csproj_path = Path.mk true csproj_at.
Proof.
  intros Hwf Hcwd. unfold csproj_path, csproj_at, PROJECT_ROOT at 1.
  apply div_str_plain, csproj_name_valid. by eapply PROJECT_NAME_no_sep.
Qed.

Lemma resolve_csproj f :
  WF f → FS.is_dir f cwd = true → resolve f csproj_path = Found csproj_at.
Proof.
  intros Hwf Hcwd. rewrite (csproj_path_parts f) by done. unfold csproj_at.
  rewrite resolve_cwd by done. cbn [FS.resolve_from]. rewrite Hcwd.
  rewrite valid_name_not_up; [done|].
  apply csproj_name_valid. by eapply PROJECT_NAME_no_sep.
Qed.

(** A project file that parses is a regular file of the tree. *)
Lemma ET_parse_csproj w root w1 :
  WF (fs w) → FS.is_dir (fs w) cwd = true →
  ET_parse csproj_path w = (Ok root, w1) →
  ∃ source, fs w !! csproj_at = Some (File source)
            ∧ xml_of_string source = Some root.
Proof.
  intros Hwf Hcwd H. unfold ET_parse in H.
  apply bind_inv_ok in H as (source & w0 & Hread & H).
  apply read_file_ok in Hread as (d & Hr & Hd & _).
  rewrite resolve_csproj in Hr by done. injection Hr as <-.
  exists source. split; [done|]. by destruct (xml_of_string source); [injection H as -> _|].
Qed.

Lemma retreive_fresh_inv xml_path w t g w1 :
  retreive_csproj_element xml_path {| csproj_root := None |} w = (Ok (t, g), w1) →
  ∃ root, ET_parse csproj_path w = (Ok root, w1) ∧ g = {| csproj_root := Some root |}
          ∧ field xml_path root = Some t.
Proof.
  intros H.
  destruct (ET_parse csproj_path w) as [[root|e|c] w0] eqn:Hp.
  - rewrite (retreive_csproj_element_loaded _ _ _ _ _ _
               (load_csproj_parsed _ _ _ _ Hp)) in H.
    destruct (field xml_path root) as [t'|] eqn:Hf; [|done].
    injection H as <- <- <-. by exists root.
  - rewrite (retreive_csproj_element_fails _ _ _ w0) in H; [done|].
    right. split; [done|]. by exists e.
  - apply ET_parse_next in Hp as [_ Hx]. by destruct (Hx c).
Qed.

(** The description that is returned is the one of the README in the
    tree. *)
Lemma get_description_ok w desc w' :
  WF (fs w) → FS.is_dir (fs w) cwd = true →
  get_description w = (Ok desc, w') →
  desc = readme_description (fs w) ∧ git_remote w' = git_remote w.
Proof.
  intros Hwf Hcwd H. unfold get_description in H. cbv zeta in H.
  rewrite readme_path in H.
  apply bind_inv_ok in H as (b & w0 & [= <- <-] & H).
  unfold readme_at in H at 1. rewrite path_exists_cwd in H
    by (done || by repeat constructor).
  fold readme_at in H. unfold readme_description.
  destruct (FS.present (fs w) readme_at) eqn:Hp.
  - apply bind_inv_ok in H as (text & w1 & Hread & [= <- <-]).
    pose proof (read_file_next _ _ _ _ Hread) as [-> _].
    apply read_file_ok in Hread as (d & Hr & Hd & _).
    rewrite resolve_readme in Hr by done. injection Hr as <-. by rewrite Hd.
  - injection H as <- <-. split; [|done].
    destruct (fs w !! readme_at) eqn:E; [|done].
    assert (FS.present (fs w) readme_at = true).
    { apply present_lookup; [apply readme_at_nonempty|by rewrite E]. }
    congruence.
Qed.

Lemma get_github_url_same_remote w w' :
  git_remote w' = git_remote w → ∀ url,
  get_github_url w' = (Ok url, w') → get_github_url w = (Ok url, w).
Proof.
  intros Hr url. unfold get_github_url. rewrite Hr.
  destruct (git_remote w) as [|rc out err]; [by intros [= <-]|].
  destruct (rc =? 0)%Z; [|by intros [= <-]].
  destruct (PyStr.startswith _ _); [by intros [= <-]|].
  destruct (PyStr.startswith _ _); by intros [= <-].
Qed.

(** The dictionary of the manifest is made of the product and the version
    of the project file, the description of the README and the URL of
    the remote. *)
Lemma manifest_dict_inv w d w1 :
  WF (fs w) → FS.is_dir (fs w) cwd = true →
  manifest_dict w = (Ok d, w1) →
  ∃ source root prod ver url,
    fs w !! csproj_at = Some (File source) ∧ xml_of_string source = Some root
    ∧ field xp_Product root = Some prod ∧ field xp_Version root = Some ver
    ∧ get_github_url w = (Ok url, w)
    ∧ d = manifest_of prod (readme_description (fs w)) ver url
    ∧ fs w1 = fs w.
Proof.
  intros Hwf Hcwd H. pose proof (quiet_manifest_dict _ _ _ H) as Hfs.
  unfold manifest_dict, get_mod_name, get_dll_version in H. cbv zeta in H.
  apply bind_inv_ok in H as ([prod g] & wa & Hprod & H).
  apply retreive_fresh_inv in Hprod as (root & Hparse & -> & Hfp).
  pose proof (ET_parse_next _ _ _ _ Hparse) as [Hwa _].
  destruct (ET_parse_csproj _ _ _ Hwf Hcwd Hparse) as (source & Hsrc & Hxml).
  assert (Hfsa : fs wa = fs w) by by rewrite Hwa.
  apply bind_inv_ok in H as (desc & wb & Hdesc & H).
  apply get_description_ok in Hdesc as [-> Hrb]; [|by rewrite Hfsa..].
  apply bind_inv_ok in H as ([ver g'] & wc & Hver & H).
  apply retreive_csproj_element_again in Hver as (Hfv & -> & ->).
  apply bind_inv_ok in H as (url & wd & Hurl & [= <- <-]).
  pose proof (quiet_get_github_url _ _ _ Hurl) as Hfsd.
  destruct (get_github_url_returns wb) as [url' Hu']. rewrite Hu' in Hurl.
  injection Hurl as -> <-.
  exists source, root, prod, ver, url. repeat split; try done.
  - apply (get_github_url_same_remote w wb); [|done]. rewrite Hrb. by rewrite Hwa.
  - by rewrite Hfsa.
Qed.

Lemma write_file_ok name data w w1 :
  String.eqb name ".." = false →
  write_file (Path.mk false [name]) data w = (Ok (), w1) →
  fs w1 = <[cwd ++ [name] := File data]> (fs w)
  ∧ FS.is_dir (fs w) (cwd ++ [name]) = false ∧ FS.is_dir (fs w) cwd = true
  ∧ git_remote w1 = git_remote w.
Proof.
  intros Hname H. unfold write_file in H.
  apply bind_inv_ok in H as (u & w0 & Hio & H).
  apply io_check_next in Hio as [-> _].
  unfold resolve in H. cbn [Path.absolute Path.parts FS.resolve_from fs] in H.
  rewrite Hname in H.
  destruct (FS.is_dir (fs w) cwd) eqn:Hcwd.
  - unfold put_file in H. cbn [fs] in H.
    destruct (FS.is_dir (fs w) (cwd ++ [name])); [done|].
    destruct (FS.is_dir (fs w) (removelast (cwd ++ [name]))); [|done].
    by injection H as <-.
  - by destruct (FS.present (fs w) cwd).
Qed.

(** The packager that the constructor returns is the one of the fields
    of the project file in the tree. *)
Lemma FilePackager_init_ok w self w1 :
  WF (fs w) → FS.is_dir (fs w) cwd = true →
  FilePackager_init w = (Ok self, w1) →
  ∃ asm prod ver, project_fields (fs w) = Some (asm, prod, ver)
    ∧ self = packager_of asm prod ver (clock w) ∧ fs w1 = fs w.
Proof.
  intros Hwf Hcwd H.
  destruct (ET_parse csproj_path w) as [[root|e|c] w0] eqn:Hp.
  - rewrite (FilePackager_init_loaded _ _ _ Hp) in H.
    pose proof (ET_parse_next _ _ _ _ Hp) as [Hw0 _].
    destruct (ET_parse_csproj _ _ _ Hwf Hcwd Hp) as (source & Hsrc & Hxml).
    unfold project_fields. rewrite Hsrc, Hxml.
    destruct (field xp_AssemblyName root) as [asm|]; [|done].
    destruct (field xp_Product root) as [prod|]; [|done].
    destruct (field xp_Version root) as [ver|]; [|done].
    injection H as <- <-. exists asm, prod, ver. by rewrite Hw0.
  - by rewrite (FilePackager_init_unloaded _ _ _ Hp) in H.
  - apply ET_parse_next in Hp as [_ Hx]. by destruct (Hx c).
Qed.

Lemma manifest_at_nonempty : manifest_at ≠ [].
Proof. unfold manifest_at. by destruct cwd. Qed.

Lemma csproj_not_manifest : csproj_at ≠ manifest_at.
Proof.
  unfold csproj_at, manifest_at. intros [= E]%app_inv_head.
  apply (f_equal last_char) in E. by rewrite last_char_app in E.
Qed.

Lemma csproj_not_below_dist : ¬ dist_at `prefix_of` csproj_at.
Proof.
  apply not_below_dist. intros E. apply (f_equal last_char) in E.
  by rewrite last_char_app in E.
Qed.

Lemma manifest_not_below_dist : ¬ dist_at `prefix_of` manifest_at.
Proof. by apply not_below_dist. Qed.

Lemma project_fields_ext (f f' : gmap (list string) node) :
  f' !! csproj_at = f !! csproj_at → project_fields f' = project_fields f.
Proof. unfold project_fields. by intros ->. Qed.

Lemma readme_description_ext (f f' : gmap (list string) node) :
  f' !! readme_at = f !! readme_at → readme_description f' = readme_description f.
Proof. unfold readme_description. by intros ->. Qed.

(** A run of [main] that completes, for fields that are plain names:
    the manifest is the one of the inputs, the archive holds the planned
    entries of the tree with that manifest, and nothing else changes
    outside dist. *)
Lemma main_run w w' asm prod ver :
  WF (fs w) → FS.is_dir (fs w) cwd = true →
  project_fields (fs w) = Some (asm, prod, ver) →
  Path.no_sep asm = true → Path.no_sep prod = true → Path.no_sep ver = true →
  main w = (Ok (), w') →
  ∃ url es,
    get_github_url w = (Ok url, w)
    ∧ fs w' !! manifest_at = Some (File (manifest_text (fs w) prod ver url))
    ∧ fs w' !! zip_at prod ver = Some (File (zip_bytes es))
    ∧ es ≡ₚ expected_entries
              (<[manifest_at := File (manifest_text (fs w) prod ver url)]> (fs w))
              (plans asm)
    ∧ sources_ready
        (<[manifest_at := File (manifest_text (fs w) prod ver url)]> (fs w))
        (plans asm)
    ∧ (∀ k, k ≠ manifest_at → ¬ dist_at `prefix_of` k → fs w' !! k = fs w !! k)
    ∧ WF (fs w') ∧ FS.is_dir (fs w') cwd = true.
Proof.
  intros Hwf Hcwd Hpf Hasm Hprod Hver H. unfold main in H.
  apply bind_inv_ok in H as ([] & w1 & Hbuild & H).
  apply bind_inv_ok in H as (self & w2 & Hinit & Hproc).
  (* the manifest *)
  unfold build_manifest in Hbuild.
  apply bind_inv_ok in Hbuild as (d & wa & Hd & Hwrite).
  apply manifest_dict_inv in Hd
    as (source & root & prod' & ver' & url & Hsrc & Hxml & Hfp & Hfv & Hurl & -> & Hfsa);
    [|done..].
  assert (prod' = prod ∧ ver' = ver) as [-> ->].
  { unfold project_fields in Hpf. rewrite Hsrc, Hxml, Hfp, Hfv in Hpf.
    destruct (field xp_AssemblyName root); [|done]. by injection Hpf as _ <- <-. }
  rewrite manifest_path_parts in Hwrite.
  apply write_file_ok in Hwrite as (Hfs1 & Hnd & _ & _); [|done].
  rewrite Hfsa in Hfs1, Hnd. fold manifest_at in Hfs1, Hnd.
  fold (manifest_text (fs w) prod ver url) in Hfs1.
  set (text := manifest_text (fs w) prod ver url) in *.
  assert (Hwf1 : WF (fs w1)).
  { rewrite Hfs1. apply WF_insert_file; [done..| |].
    - unfold manifest_at. by rewrite removelast_snoc.
    - exists "manifest.json". unfold manifest_at. by rewrite last_snoc. }
  assert (Hcwd1 : FS.is_dir (fs w1) cwd = true).
  { rewrite Hfs1. by rewrite is_dir_insert_file. }
  (* the packager *)
  apply FilePackager_init_ok in Hinit as (asm' & prod' & ver' & Hpf' & -> & Hfs2);
    [|done..].
  rewrite (project_fields_ext (fs w)) in Hpf'.
  2:{ rewrite Hfs1. apply lookup_insert_ne, not_eq_sym, csproj_not_manifest. }
  rewrite Hpf in Hpf'. injection Hpf' as <- <- <-.
  rewrite <- Hfs2 in Hwf1, Hcwd1.
  destruct (process_archive _ _ _ _ _ _ Hwf1 Hcwd1 Hasm Hprod Hver Hproc)
    as (es & Hzip & Hes & Hrdy & Hframe & Hwf' & Hcwd' & _).
  rewrite Hfs2, Hfs1 in Hes, Hrdy.
  exists url, es. repeat split; try done.
  - rewrite Hframe by apply manifest_not_below_dist.
    rewrite Hfs2, Hfs1. apply lookup_insert_eq.
  - intros k Hk1 Hk2. rewrite Hframe, Hfs2, Hfs1 by done.
    by apply lookup_insert_ne.
Qed.

(** X9. A run of [main] that completes, for fields of the project file
    that are plain names: manifest.json holds the dump of the dictionary
    made of the product, the description of the README, the version and
    the URL of the remote; the archive dist/{product}-{version}.zip
    carries that very text as its manifest.json entry; and outside dist
    nothing but manifest.json has changed. *)
Theorem main_archives_the_manifest_it_wrote w w' asm prod ver :
  FS.wf (fs w) = true → FS.is_dir (fs w) cwd = true →
  project_fields (fs w) = Some (asm, prod, ver) →
  Path.no_sep asm = true → Path.no_sep prod = true → Path.no_sep ver = true →
  main w = (Ok (), w') →
  ∃ url es,
    get_github_url w = (Ok url, w)
    ∧ fs w' !! manifest_at = Some (File (manifest_text (fs w) prod ver url))
    ∧ fs w' !! zip_at prod ver = Some (File (zip_bytes es))
    ∧ ("manifest.json", manifest_text (fs w) prod ver url) ∈ es
    ∧ (∀ k, k ≠ manifest_at → ¬ dist_at `prefix_of` k → fs w' !! k = fs w !! k).
Proof.
  intros Hwf%wf_WF Hcwd Hpf Hasm Hprod Hver H.
  destruct (main_run _ _ _ _ _ Hwf Hcwd Hpf Hasm Hprod Hver H)
    as (url & es & Hurl & Hman & Hzip & Hes & _ & Hframe & _).
  exists url, es. repeat split; try done.
  rewrite Hes. unfold expected_entries, plans. cbn [flat_map].
  unfold source_entry at 1. cbn [src_at dest]. fold manifest_at.
  rewrite lookup_insert_eq. apply elem_of_cons. by left.
Qed.

(** X10. Two runs of [main] in succession, the second at a later time
    and from the tree that the first one left, both completing, for
    fields that are plain names: the manifest file is the same text after
    both, and the two archives have the same entries, names and
    contents. *)
Theorem main_twice_same_outputs w w1 w1' w2 asm prod ver :
  FS.wf (fs w) = true → FS.is_dir (fs w) cwd = true →
  project_fields (fs w) = Some (asm, prod, ver) →
  Path.no_sep asm = true → Path.no_sep prod = true → Path.no_sep ver = true →
  main w = (Ok (), w1) →
  fs w1' = fs w1 → git_remote w1' = git_remote w →
  main w1' = (Ok (), w2) →
  fs w2 !! manifest_at = fs w1 !! manifest_at
  ∧ ∃ es1 es2,
      fs w1 !! zip_at prod ver = Some (File (zip_bytes es1))
      ∧ fs w2 !! zip_at prod ver = Some (File (zip_bytes es2))
      ∧ es1 ≡ₚ es2.
Proof.
  intros Hwf%wf_WF Hcwd Hpf Hasm Hprod Hver H1 Hfs Hremote H2.
  destruct (main_run _ _ _ _ _ Hwf Hcwd Hpf Hasm Hprod Hver H1)
    as (url & es1 & Hurl & Hman1 & Hzip1 & Hes1 & _ & Hframe1 & Hwf1 & Hcwd1).
  rewrite <- Hfs in Hwf1, Hcwd1.
  assert (Hpf' : project_fields (fs w1') = Some (asm, prod, ver)).
  { rewrite <- Hpf. apply project_fields_ext. rewrite Hfs. apply Hframe1.
    - apply csproj_not_manifest.
    - apply csproj_not_below_dist. }
  destruct (main_run _ _ _ _ _ Hwf1 Hcwd1 Hpf' Hasm Hprod Hver H2)
    as (url' & es2 & Hurl' & Hman2 & Hzip2 & Hes2 & _ & _).
  assert (url' = url) as ->.
  { apply (get_github_url_same_remote w w1') in Hurl'; [|done]. congruence. }
  assert (Htext : manifest_text (fs w1') prod ver url = manifest_text (fs w) prod ver url).
  { unfold manifest_text. rewrite (readme_description_ext (fs w) (fs w1')); [done|].
    rewrite Hfs. apply Hframe1.
    - unfold readme_at, manifest_at. by intros [= ?]%app_inv_head.
    - by apply not_below_dist. }
  rewrite Htext in Hman2, Hes2. split; [congruence|].
  exists es1, es2. split; [done|]. split; [done|].
  rewrite Hes1, Hes2. erewrite (expected_entries_ext _ _ (plans asm)); [done|].
  unfold plans. rewrite Hfs.
  repeat (apply Forall_cons; split); try apply Forall_nil_2; cbn [src_at].
  - fold manifest_at. by rewrite !lookup_insert_eq.
  - rewrite !lookup_insert_ne, Hframe1; try done;
      try (by apply not_below_dist);
      unfold manifest_at; by intros [= ?]%app_inv_head.
  - rewrite !lookup_insert_ne, Hframe1; try done;
      try (by apply not_below_dist);
      unfold manifest_at; by intros [= ?]%app_inv_head.
  - rewrite !lookup_insert_ne, Hframe1; try done;
      try (by apply not_below_dist);
      unfold manifest_at; by intros [= ?]%app_inv_head.
  - rewrite !lookup_insert_ne, Hframe1; try done;
      try (by apply not_below_dist);
      unfold manifest_at; by intros [= ?]%app_inv_head.
Qed.

(** ** A missing source *)

(** X11. Once [prepare_file_spec] has returned, a run in which some
    required source is not a regular file of the tree (it is absent, or
    it is a directory), or the optional changelog is a directory, cannot
    complete: [process] leaves through [sys.exit(1)], and the staging
    directory is gone. *)
Theorem missing_source_aborts w asm prod ver t specs w1 o w2 :
  FS.wf (fs w) = true → FS.is_dir (fs w) cwd = true →
  Path.no_sep asm = true →
  ¬ sources_ready (fs w) (plans asm) →
  prepare_file_spec (packager_of asm prod ver t) w = (Ok specs, w1) →
  process (packager_of asm prod ver t) w = (o, w2) →
  o = Exit 1%Z ∧ unstaged (packager_of asm prod ver t) w2.
Proof.
  intros Hwf%wf_WF Hcwd Hasm Hmissing Hprep. unfold process.
  rewrite (bind_ok _ _ _ _ _ Hprep).
  destruct (prepare_file_spec_post _ _ _ _ _ _ _ Hwf Hcwd Hprep)
    as (-> & Hwfp & Hcwdp & Hdistp & Hfresh & Hframep).
  assert (Hinvp : staging_inv (staging_at t) (fs w1)).
  { repeat split; [done..|apply Hfresh|by apply fresh_staging_flat]. }
  unfold mbind, M_bind.
  destruct (copy_files _ _ w1) as [o1 w1'] eqn:Hcopy.
  destruct (copy_files_outcome _ _ _ _ _ _
              (staging_inv_staged asm prod ver t _ Hinvp) Hcopy)
    as [[-> Hun]|[-> _]].
  { by intros [= <- <-]. }
  exfalso. apply Hmissing. apply copy_files_ok in Hcopy.
  assert (Hholds : holds (staging_at t) (fs w1) ∅).
  { intros n. rewrite lookup_empty. cbn. apply Hfresh; [by apply prefix_app_r|].
    apply snoc_ne. }
  destruct (copy_loop_staged t (packager_of asm prod ver t) _ (plans asm)
              (temp_dir_parts _ _ _ _) (specs_follow_plans asm prod ver t Hasm)
              w1 w1' ∅ Hinvp Hholds Hcopy) as (_ & _ & _ & Hready).
  exact (sources_ready_ext _ _ _ (plans_outside_dist asm (fs w) (fs w1) Hasm Hframep)
           Hready).
Qed.
End Script.

(** * Concrete runs *)

(** The example of the specification. *)
Example description_spec_example :
  description_of_text
    ("## Summary" +:+ LF +:+ "Line one." +:+ LF +:+ LF +:+ "Line two." +:+ LF
     +:+ "## Next")
  = "Line one. Line two.".
Proof. reflexivity. Qed.

(** C3. The description is meant to stop at the next heading line after
    the Summary heading. A README whose next heading starts with Summary
    again is read on: the first section gives [first] by the
    specification, while the code also collects the second section. *)
Theorem C3_repeated_summary_heading :
  let readme := "# Summary" +:+ LF +:+ "first" +:+ LF
                +:+ "## Summary of changes" +:+ LF +:+ "second" +:+ LF in
  description_by_spec readme = "first"
  ∧ description_of_text readme = "first second".
Proof. split; reflexivity. Qed.

Definition world_with_remote (stdout : string) : World :=
  {| fs := ∅;
     clock := {| year := 2026; month := 1; day := 1;
                 hour := 0; minute := 0; second := 0 |};
     git_remote := Completed 0 stdout EmptyString;
     io_faults := [] |}.

(** The examples of the specification. *)
Example get_github_url_spec_examples :
  (get_github_url (world_with_remote ("git@github.com:org/repo.git" +:+ LF))).1
    = Ok "https://github.com/org/repo.git"
  ∧ (get_github_url (world_with_remote ("https://gitlab.com/x/y" +:+ LF))).1
    = Ok EmptyString.
Proof. split; reflexivity. Qed.

(** C4. An SSH remote is meant to have its host prefix substituted.
    [str.replace] rewrites every occurrence of the prefix, so a remote
    that repeats it after the first position is rewritten there too. *)
Theorem C4_ssh_prefix_replaced_everywhere :
  let remote := "git@github.com:org/git@github.com:repo.git" in
  github_url_by_spec remote = "https://github.com/org/git@github.com:repo.git"
  ∧ (get_github_url (world_with_remote (remote +:+ LF))).1
    = Ok "https://github.com/org/https://github.com/repo.git".
Proof. split; reflexivity. Qed.

(** ** A project on which the script runs *)

Module Demo.

Definition cwd : list string := ["home"; "Mod"].

Definition project (assembly_name : string) : Element :=
  Elem "Project" None
    [Elem "PropertyGroup" None
       [Elem "AssemblyName" (Some assembly_name) [];
        Elem "Product" (Some "My Mod") [];
        Elem "Version" (Some "1.0.0") []]].

(** A project file without a version. *)
Definition project_no_version : Element :=
  Elem "Project" None
    [Elem "PropertyGroup" None
       [Elem "AssemblyName" (Some "Mod") []; Elem "Product" (Some "My Mod") []]].

Definition csproj_text (assembly_name : string) : string :=
  "<Project><PropertyGroup><AssemblyName>" +:+ assembly_name
  +:+ "</AssemblyName><Product>My Mod</Product><Version>1.0.0</Version>"
  +:+ "</PropertyGroup></Project>".

Definition csproj_text_no_version : string :=
  "<Project><PropertyGroup><AssemblyName>Mod</AssemblyName>"
  +:+ "<Product>My Mod</Product></PropertyGroup></Project>".

(** The parser, on the project files of this module. *)
Definition xml_of_string (source : string) : option Element :=
  if String.eqb source (csproj_text "Mod") then Some (project "Mod")
  else if String.eqb source (csproj_text "../Mod") then Some (project "../Mod")
  else if String.eqb source (csproj_text "../temp_package_20261103000002/Mod")
  then Some (project "../temp_package_20261103000002/Mod")
  else if String.eqb source csproj_text_no_version then Some project_no_version
  else None.

(** An archive format that shows its entries. *)
Definition zip_bytes (entries : list (string * string)) : string :=
  PyStr.join ";" (map (λ e, e.1 +:+ "=" +:+ e.2) entries).

Definition readme : string :=
  "# Mod" +:+ LF +:+ "## Summary" +:+ LF +:+ "A small mod." +:+ LF.

Definition tree (csproj : string) : gmap (list string) node :=
  list_to_map
    [(["home"], Dir); (["home"; "Mod"], Dir);
     (["home"; "Mod"; "Mod.csproj"], File csproj);
     (["home"; "Mod"; "README.md"], File readme);
     (["home"; "Mod"; "img"], Dir);
     (["home"; "Mod"; "img"; "icon.png"], File "PNG");
     (["home"; "Mod"; "bin"], Dir);
     (["home"; "Mod"; "bin"; "Debug"], Dir);
     (["home"; "Mod"; "bin"; "Debug"; "net472"], Dir);
     (["home"; "Mod"; "bin"; "Debug"; "net472"; "Mod.dll"], File "DLL")].

Definition at_time (s : nat) : datetime :=
  {| year := 2026; month := 11; day := 3; hour := 0; minute := 0; second := s |}.

Definition world (f : gmap (list string) node) (s : nat) : World :=
  {| fs := f; clock := at_time s;
     git_remote := Completed 0 ("git@github.com:org/repo.git" +:+ LF) EmptyString;
     io_faults := [] |}.

Definition good : World := world (tree (csproj_text "Mod")) 1.

(** The same project after [build_manifest]. *)
Definition built : World := (build_manifest cwd xml_of_string good).2.

Definition packager : FilePackager := packager_of cwd "Mod" "My Mod" "1.0.0" (at_time 1).

Definition fresh : CsprojGetter := {| csproj_root := None |}.
Definition loaded : CsprojGetter := {| csproj_root := Some (project "Mod") |}.

End Demo.

Lemma C6_get_dll_name_witness :
  get_dll_name Demo.cwd Demo.xml_of_string Demo.fresh Demo.good
  = (Ok ("Mod" +:+ ".dll", Demo.loaded), Demo.good)
  ∧ "Mod" +:+ ".dll" ≠ EmptyString.
Proof.
  apply (C6_get_dll_name Demo.cwd Demo.xml_of_string Demo.fresh Demo.good
           (Demo.project "Mod") Demo.loaded Demo.good
           (Elem "AssemblyName" (Some "Mod") []) "Mod").
  - vm_compute. reflexivity.
  - reflexivity.
  - reflexivity.
  - discriminate.
Defined.

Lemma C7_missing_field_is_fatal_witness :
  let w := Demo.world (Demo.tree Demo.csproj_text_no_version) 1 in
  (xp_Version = xp_AssemblyName →
   get_dll_name Demo.cwd Demo.xml_of_string Demo.fresh w = (Exit 1, w))
  ∧ (xp_Version = xp_Version →
     get_dll_version Demo.cwd Demo.xml_of_string Demo.fresh w = (Exit 1, w))
  ∧ (xp_Version = xp_Product →
     get_mod_name Demo.cwd Demo.xml_of_string Demo.fresh w = (Exit 1, w)).
Proof.
  apply (C7_missing_field_is_fatal Demo.cwd Demo.xml_of_string xp_Version).
  left. exists Demo.project_no_version, {| csproj_root := Some Demo.project_no_version |}.
  split; vm_compute; reflexivity.
Defined.

Lemma C10_fields_verbatim_witness :
  get_dll_name Demo.cwd Demo.xml_of_string Demo.fresh Demo.good
  = (Ok ("Mod" +:+ ".dll", Demo.loaded), Demo.good).
Proof.
  apply (C10_fields_verbatim Demo.cwd Demo.xml_of_string Demo.good
           (Demo.project "Mod") Demo.good "Mod" "My Mod" "1.0.0").
  - vm_compute. reflexivity.
  - reflexivity.
  - reflexivity.
  - reflexivity.
Defined.

Lemma C5_manifest_roundtrip_witness :
  ∃ d w1 text members,
    manifest_dict Demo.cwd Demo.xml_of_string Demo.good = (Ok d, w1)
    ∧ fs Demo.built !! (Demo.cwd ++ ["manifest.json"]) = Some (File text)
    ∧ text = Json.dumps (Json.Obj d)
    ∧ Json.loads text = Some (Json.Obj members)
    ∧ StronglySorted (λ x y, String.ltb x y = true) (map fst members)
    ∧ members ≡ₚ d.
Proof.
  apply (C5_manifest_roundtrip Demo.cwd Demo.xml_of_string Demo.good Demo.built).
  vm_compute. reflexivity.
Defined.

Lemma C2_staging_directory_removed_witness :
  let r := process Demo.cwd Demo.zip_bytes Demo.packager Demo.built in
  unstaged Demo.cwd Demo.packager r.2
  ∧ (r.1 = Ok () ∨ r.1 = Exit 1)
  ∧ (r.1 ≠ Ok () → exit_status r.1 ≠ 0%Z).
Proof.
  apply (C2_staging_directory_removed Demo.cwd Demo.zip_bytes Demo.packager
           Demo.built
           (DEFAULT_FILESPEC Demo.cwd ++ [dll_spec Demo.packager])
           (prepare_file_spec Demo.cwd Demo.packager Demo.built).2).
  - vm_compute. reflexivity.
  - vm_compute. reflexivity.
Defined.

Lemma C9_archive_entries_flat_witness :
  let w2 := (prepare_file_spec Demo.cwd Demo.packager Demo.built).2 in
  let specs := DEFAULT_FILESPEC Demo.cwd ++ [dll_spec Demo.packager] in
  let w3 := (copy_files Demo.cwd Demo.packager specs w2).2 in
  let r := zip_block Demo.cwd Demo.zip_bytes Demo.packager w3 in
  ∃ es, r.1 = Ok es
    ∧ Forall (λ e, Path.no_sep e.1 = true) es
    ∧ ∃ z, resolve Demo.cwd (fs w3) (zip_file_name Demo.packager) = Found z
           ∧ fs r.2 !! z = Some (File (Demo.zip_bytes es)).
Proof.
  intros w2 specs w3 r.
  exists [("manifest.json",
           match fs Demo.built !! (Demo.cwd ++ ["manifest.json"]) with
           | Some (File text) => text
           | _ => EmptyString
           end);
          ("Mod.dll", "DLL"); ("icon.png", "PNG"); ("README.md", Demo.readme)].
  split; [vm_compute; reflexivity|].
  apply (C9_archive_entries_flat Demo.cwd Demo.xml_of_string Demo.zip_bytes
           Demo.built Demo.packager Demo.built specs w2 w3 _ r.2).
  - vm_compute. reflexivity.
  - vm_compute. reflexivity.
  - vm_compute. reflexivity.
  - vm_compute. reflexivity.
  - vm_compute. reflexivity.
  - vm_compute. reflexivity.
Defined.

(** ** The further properties on the project of [Demo] *)

Lemma archive_has_planned_entries_witness :
  ∃ es,
    fs (process Demo.cwd Demo.zip_bytes Demo.packager Demo.built).2
      !! zip_at Demo.cwd "My Mod" "1.0.0" = Some (File (Demo.zip_bytes es))
    ∧ es ≡ₚ expected_entries (fs Demo.built) (plans Demo.cwd "Mod")
    ∧ map fst es ≡ₚ expected_names Demo.cwd (fs Demo.built) "Mod".
Proof.
  apply (archive_has_planned_entries Demo.cwd Demo.xml_of_string Demo.zip_bytes
           Demo.built "Mod" "My Mod" "1.0.0" (Demo.at_time 1) Demo.built).
  all: vm_compute; reflexivity.
Defined.

Lemma github_url_follows_spec_witness :
  let out := "git@github.com:org/repo.git" +:+ LF in
  get_github_url (world_with_remote out)
  = (Ok (github_url_by_spec (PyStr.strip out)), world_with_remote out).
Proof.
  apply (github_url_follows_spec _ _ EmptyString); vm_compute; reflexivity.
Defined.

Lemma description_follows_spec_witness :
  let text := "## Summary" +:+ LF +:+ "Line one." +:+ LF +:+ LF +:+ "Line two."
              +:+ LF +:+ "## Next" in
  description_of_text text = description_by_spec text
  ∧ (after_summary_heading (PyStr.readlines text) = None →
     description_of_text text = EmptyString).
Proof.
  apply description_follows_spec. intros rest h Hrest Hclose.
  vm_compute in Hrest. injection Hrest as <-.
  vm_compute in Hclose. injection Hclose as <-. reflexivity.
Defined.

Lemma get_description_reads_readme_witness :
  (fs Demo.good !! readme_at Demo.cwd = None →
   get_description Demo.cwd Demo.good = (Ok EmptyString, Demo.good))
  ∧ (∀ text, fs Demo.good !! readme_at Demo.cwd = Some (File text) →
       io_faults Demo.good = [] →
       get_description Demo.cwd Demo.good = (Ok (description_of_text text), Demo.good))
  ∧ (fs Demo.good !! readme_at Demo.cwd = Some Dir →
     ∃ e w', get_description Demo.cwd Demo.good = (Raise e, w'))
  ∧ (∀ o w', get_description Demo.cwd Demo.good = (o, w') →
       fs w' = fs Demo.good ∧ ∀ c, o ≠ Exit c).
Proof.
  apply (get_description_reads_readme Demo.cwd Demo.good); vm_compute; reflexivity.
Defined.


Lemma build_manifest_writes_manifest_only_witness :
  let r := build_manifest Demo.cwd Demo.xml_of_string Demo.good in
  (∀ k, k ≠ manifest_at Demo.cwd → fs r.2 !! k = fs Demo.good !! k)
  ∧ (∀ c, r.1 = Exit c → c = 1%Z ∧ fs r.2 = fs Demo.good).
Proof.
  intros r.
  apply (build_manifest_writes_manifest_only Demo.cwd Demo.xml_of_string Demo.good
           r.1 r.2).
  vm_compute. reflexivity.
Defined.

Lemma prepare_makes_fresh_staging_witness :
  let r := prepare_file_spec Demo.cwd Demo.packager Demo.built in
  ∃ specs, r.1 = Ok specs
    ∧ specs = DEFAULT_FILESPEC Demo.cwd ++ [dll_spec Demo.packager]
    ∧ fs r.2 !! dist_at Demo.cwd = Some Dir
    ∧ fresh_staging (staging_at Demo.cwd (Demo.at_time 1)) (fs r.2)
    ∧ (∀ k, k ≠ dist_at Demo.cwd →
         ¬ staging_at Demo.cwd (Demo.at_time 1) `prefix_of` k →
         fs r.2 !! k = fs Demo.built !! k).
Proof.
  intros r. exists (DEFAULT_FILESPEC Demo.cwd ++ [dll_spec Demo.packager]).
  split; [vm_compute; reflexivity|].
  apply (prepare_makes_fresh_staging Demo.cwd Demo.built "Mod" "My Mod" "1.0.0"
           (Demo.at_time 1)).
  all: vm_compute; reflexivity.
Defined.

Lemma main_archives_the_manifest_it_wrote_witness :
  let w' := (main Demo.cwd Demo.xml_of_string Demo.zip_bytes Demo.good).2 in
  ∃ url es,
    get_github_url Demo.good = (Ok url, Demo.good)
    ∧ fs w' !! manifest_at Demo.cwd
      = Some (File (manifest_text Demo.cwd (fs Demo.good) "My Mod" "1.0.0" url))
    ∧ fs w' !! zip_at Demo.cwd "My Mod" "1.0.0" = Some (File (Demo.zip_bytes es))
    ∧ ("manifest.json", manifest_text Demo.cwd (fs Demo.good) "My Mod" "1.0.0" url) ∈ es
    ∧ (∀ k, k ≠ manifest_at Demo.cwd → ¬ dist_at Demo.cwd `prefix_of` k →
         fs w' !! k = fs Demo.good !! k).
Proof.
  intros w'.
  apply (main_archives_the_manifest_it_wrote Demo.cwd Demo.xml_of_string
           Demo.zip_bytes Demo.good w' "Mod" "My Mod" "1.0.0").
  all: vm_compute; reflexivity.
Defined.

Lemma main_twice_same_outputs_witness :
  let w1 := (main Demo.cwd Demo.xml_of_string Demo.zip_bytes Demo.good).2 in
  let w1' := Demo.world (fs w1) 2 in
  let w2 := (main Demo.cwd Demo.xml_of_string Demo.zip_bytes w1').2 in
  fs w2 !! manifest_at Demo.cwd = fs w1 !! manifest_at Demo.cwd
  ∧ ∃ es1 es2,
      fs w1 !! zip_at Demo.cwd "My Mod" "1.0.0" = Some (File (Demo.zip_bytes es1))
      ∧ fs w2 !! zip_at Demo.cwd "My Mod" "1.0.0" = Some (File (Demo.zip_bytes es2))
      ∧ es1 ≡ₚ es2.
Proof.
  intros w1 w1' w2.
  apply (main_twice_same_outputs Demo.cwd Demo.xml_of_string Demo.zip_bytes
           Demo.good w1 w1' w2 "Mod" "My Mod" "1.0.0").
  - vm_compute. reflexivity.
  - vm_compute. reflexivity.
  - vm_compute. reflexivity.
  - reflexivity.
  - reflexivity.
  - reflexivity.
  - vm_compute. reflexivity.
  - reflexivity.
  - reflexivity.
  - vm_compute. reflexivity.
Defined.

Lemma github_url_shape_witness :
  let w := world_with_remote ("https://gitlab.com/x/y" +:+ LF) in
  ∃ url, get_github_url w = (Ok url, w)
    ∧ (url = EmptyString ∨ PyStr.startswith https_prefix url = true)
    ∧ (git_remote w = ToolNotFound → url = EmptyString)
    ∧ (∀ rc out err, git_remote w = Completed rc out err → rc ≠ 0%Z →
         url = EmptyString).
Proof. intros w. apply (github_url_shape w). Defined.

(** Before [build_manifest] has run there is no manifest.json to package. *)
Lemma missing_source_aborts_witness :
  let r := process Demo.cwd Demo.zip_bytes Demo.packager Demo.good in
  r.1 = Exit 1%Z ∧ unstaged Demo.cwd Demo.packager r.2.
Proof.
  intros r.
  apply (missing_source_aborts Demo.cwd Demo.zip_bytes Demo.good "Mod" "My Mod"
           "1.0.0" (Demo.at_time 1)
           (DEFAULT_FILESPEC Demo.cwd ++ [dll_spec Demo.packager])
           (prepare_file_spec Demo.cwd Demo.packager Demo.good).2 r.1 r.2).
  - vm_compute. reflexivity.
  - vm_compute. reflexivity.
  - reflexivity.
  - unfold sources_ready, plans. intros H.
    apply Forall_cons in H as [[[data Hd]|[Hm _]] _].
    + vm_compute in Hd. discriminate.
    + discriminate.
  - vm_compute. reflexivity.
  - vm_compute. reflexivity.
Defined.
